(** * Renishaw ECM client: JSON-RPC transport, polling wait and session

    A shallow embedding of [ecm_run.py] and [ecm_custom.py]: the
    [ECMConnection] class ([id], [call], [wait]) and [main] of both files,
    over a small model of the Python values, the HTTP exchange and the
    observable events (requests posted, sleeps, printed lines). *)

From Stdlib Require Import ZArith QArith String List Bool Lia FinFun.
From Equations Require Import Equations.
Import ListNotations.

Set Warnings "-register-all".
Open Scope string_scope.
Open Scope list_scope.
Open Scope Z_scope.

(** ** Python values

    The values the client handles are those of JSON: what [json.loads]
    yields and what is passed as keyword arguments.  A [dict] is an
    association list whose first binding of a key is the live one.  A float
    is carried as the rational it denotes; the modelled code does no float
    arithmetic. *)

Inductive pyval : Type :=
| PNone
| PBool (b : bool)
| PInt (n : Z)
| PFloat (q : Q)
| PStr (s : string)
| PList (l : list pyval)
| PDict (kv : list (string * pyval)).

Inductive exn : Type :=
| ECMException (message : pyval)
| KeyError (key : string)
| TypeError
| ValueError
| AttributeError (name : string)
| RequestException
| OverflowError
| OSError
| SystemExit (code : Z).

Inductive result (A : Type) : Type :=
| Return (a : A)
| Raise (e : exn).
Arguments Return {A} a.
Arguments Raise {A} e.

Fixpoint dict_get (key : string) (kv : list (string * pyval)) : option pyval :=
  match kv with
  | [] => None
  | (k, v) :: rest => if String.eqb k key then Some v else dict_get key rest
  end.

(** [x == s] for a string literal [s]: only a [str] with the same characters
    is equal to it. *)
Definition eq_str (x : pyval) (s : string) : bool :=
  match x with
  | PStr t => String.eqb t s
  | _ => false
  end.

Fixpoint substring_of (needle hay : string) : bool :=
  if String.prefix needle hay then true
  else match hay with
       | EmptyString => false
       | String _ rest => substring_of needle rest
       end.

(** [key in r]: key membership for a dict, element membership for a list,
    substring test for a str, [TypeError] for the values that are not
    iterable. *)
Definition py_in (key : string) (r : pyval) : result bool :=
  match r with
  | PDict kv => Return (match dict_get key kv with Some _ => true | None => false end)
  | PList l => Return (existsb (fun x => eq_str x key) l)
  | PStr s => Return (substring_of key s)
  | _ => Raise TypeError
  end.

(** [r[key]] for a string [key]: a dict lookup, [KeyError] when the key is
    missing, [TypeError] on every other value. *)
Definition getitem (r : pyval) (key : string) : result pyval :=
  match r with
  | PDict kv => match dict_get key kv with
                | Some v => Return v
                | None => Raise (KeyError key)
                end
  | _ => Raise TypeError
  end.

(** ** The HTTP exchange *)

(** The dict [data] that [call] posts as the JSON body. *)
Record envelope : Type := {
  jsonrpc : string;
  rpc_id : Z;
  rpc_method : string;
  rpc_params : list (string * pyval)
}.

(** The arguments of one [requests.post]; [req_timeout] is [None] when no
    [timeout=] is passed (requests then waits without limit), in seconds
    otherwise. *)
Record request : Type := {
  req_url : string;
  req_headers : list (string * string);
  req_json : envelope;
  req_timeout : option Q;
  req_proxies : list (string * option string)
}.

(** A response object: [res.status_code], [res.text], and what
    [json.loads(res.text)] yields ([None] when it raises). *)
Record response : Type := {
  status_code : Z;
  text : string;
  loads : option pyval
}.

(** What [requests.post] does: it returns a response, or raises (connection
    refused, timeout). *)
Inductive post_outcome : Type :=
| Responded (res : response)
| Failed.

Inductive output : Type :=
| OutValue (v : pyval)            (* print(v) *)
| OutResponse (res : response)     (* print(res) *)
| OutText (s : string)
| OutStatus (status : pyval)       (* "status: {0}".format(status) *)
| OutTimedOut (status : pyval)     (* "timed-out waiting with status '{0}'. Aborting." *)
| OutPower (value : pyval)         (* "{0:.3g}".format(value) *)
| OutUsage                         (* the usage message of the argument parser *)
| OutParserError (message : string). (* "<prog>: error: <message>" *)

(** Events are recorded in the order they happen; [Sleep] is in
    milliseconds ([time.sleep(0.250)] is [Sleep 250]). *)
Inductive event : Type :=
| Post (req : request)
| Sleep (ms : Z)
| Stdout (o : output)
| Stderr (o : output).

(** [parser.error(message)] of argparse: the usage message and the error
    line are written to standard error, then [SystemExit(2)] is raised. *)
Definition parser_error (message : string) : list event :=
  [Stderr OutUsage; Stderr (OutParserError message)].

(** ** State and exceptions

    The remote end is a state machine [serve] over a state [R]; the client's
    state is the connection object and the world. *)

Record world (R : Type) : Type := {
  remote : R;
  trace : list event
}.
Arguments remote {R} w.
Arguments trace {R} w.

Definition state (C R : Type) : Type := (C * world R)%type.

Definition M (C R A : Type) : Type := state C R -> result A * state C R.

Definition ret {C R A} (a : A) : M C R A := fun st => (Return a, st).

Definition raise {C R A} (e : exn) : M C R A := fun st => (Raise e, st).

Definition bind {C R A B} (m : M C R A) (f : A -> M C R B) : M C R B :=
  fun st =>
    match m st with
    | (Return a, st') => f a st'
    | (Raise e, st') => (Raise e, st')
    end.

Definition lift {C R A} (r : result A) : M C R A := fun st => (r, st).

Declare Scope py_scope.
Delimit Scope py_scope with py.
Notation "x <- m ;; k" := (bind m (fun x => k))
  (at level 61, m at next level, right associativity) : py_scope.
Notation "m ;; k" := (bind m (fun _ => k))
  (at level 61, right associativity) : py_scope.
Open Scope py_scope.

(** [try: m  except ECMException as ex: h ex]; other exceptions pass. *)
Definition try_except_ECMException {C R A}
    (m : M C R A) (h : pyval -> M C R A) : M C R A :=
  fun st =>
    match m st with
    | (Raise (ECMException message), st') => h message st'
    | other => other
    end.

Definition get_self {C R} : M C R C := fun st => (Return (fst st), st).

Definition emit {C R} (e : event) : M C R unit :=
  fun st =>
    (Return tt,
     (fst st, {| remote := remote (snd st); trace := trace (snd st) ++ [e] |})).

Definition sleep {C R} (ms : Z) : M C R unit := emit (Sleep ms).

Definition print {C R} (o : output) : M C R unit := emit (Stdout o).

Definition print_stderr {C R} (o : output) : M C R unit := emit (Stderr o).

Definition requests_post {C R} (serve : R -> request -> post_outcome * R)
    (req : request) : M C R response :=
  fun st =>
    let (o, r') := serve (remote (snd st)) req in
    let st' := (fst st, {| remote := r'; trace := trace (snd st) ++ [Post req] |}) in
    match o with
    | Responded res => (Return res, st')
    | Failed => (Raise RequestException, st')
    end.

Definition json_loads (res : response) : result pyval :=
  match loads res with
  | Some r => Return r
  | None => Raise ValueError
  end.

Definition when_ {C R} (b : bool) (m : M C R unit) : M C R unit :=
  if b then m else ret tt.

(** [if not o is None: body o] *)
Definition if_not_None {C R A} (o : option A) (body : A -> M C R unit) : M C R unit :=
  match o with
  | Some x => body x
  | None => ret tt
  end.

(** Argparse: the value a [dest] ends with is the one stored by the last
    option of the command line that writes it, the default otherwise. *)
Definition last_value {A B} (pick : A -> option B) (args : list A) (default : B) : B :=
  fold_left (fun acc a => match pick a with Some b => b | None => acc end)
    args default.

(** [for x in xs: body x] *)
Fixpoint for_each {C R A} (xs : list A) (body : A -> M C R unit) : M C R unit :=
  match xs with
  | [] => ret tt
  | x :: rest => body x ;; for_each rest body
  end.

Definition ignore {C R A} (m : M C R A) : M C R unit := _ <- m ;; ret tt.

(** ** ecm_run.py *)

Module Run.

Record ECMConnection_ : Type := {
  url : string;
  _id : Z;
  headers : list (string * string)
}.

(** [ECMConnection.__init__] *)
Definition ECMConnection (url : string) : ECMConnection_ :=
  {| url := url; _id := 0; headers := [("content-type", "application/json")] |}.

Section Connection.
Context {R : Type} (serve : R -> request -> post_outcome * R).

Local Abbreviation M := (M ECMConnection_ R).

(** The property [id]: return [_id] and increment it. *)
Definition id : M Z :=
  fun st =>
    let self := fst st in
    (Return (_id self),
     ({| url := url self; _id := _id self + 1; headers := headers self |}, snd st)).

Definition call (methodName : string) (kwargs : list (string * pyval)) : M pyval :=
  i <- id ;;
  let data := {| jsonrpc := "2.0"; rpc_id := i;
                 rpc_method := methodName; rpc_params := kwargs |} in
  self <- get_self ;;
  res <- requests_post serve
           {| req_url := url self;
              req_headers := headers self;
              req_json := data;
              req_timeout := Some (0.2)%Q;
              req_proxies := [("http", None)] |} ;;
  if status_code res =? 200 then
    r <- lift (json_loads res) ;;
    has_error <- lift (py_in "error" r) ;;
    if has_error then
      e <- lift (getitem r "error") ;;
      message <- lift (getitem e "message") ;;
      raise (ECMException message)
    else
      lift (getitem r "result")
  else
    print (OutResponse res) ;;
    raise (ECMException (PStr (text res))).

(** One pass through the body of the [while] loop of [wait]; the result is
    the new value of [status]. *)
Definition wait_body (handle status : pyval) : M pyval :=
  status' <- try_except_ECMException
               (call "Queue.GetMeasurementState" [("handle", handle)])
               (fun ex => print (OutValue ex) ;; ret status) ;;
  sleep 250 ;;
  ret status'.

Equations? wait_loop (handle status : pyval) (timeout : Z)
    (st : state ECMConnection_ R) : result pyval * state ECMConnection_ R
    by wf (Z.to_nat timeout) lt :=
  wait_loop handle status timeout st
    with Sumbool.sumbool_of_bool (negb (eq_str status "COMPLETE") && (0 <? timeout)) := {
    | left _ :=
        match wait_body handle status st with
        | (Return status', st') => wait_loop handle status' (timeout - 250) st'
        | (Raise e, st') => (Raise e, st')
        end
    | right _ := (Return status, st) }.
Proof.
  match goal with
  | H : (_ && _)%bool = true |- _ =>
      apply andb_prop in H; destruct H as [_ H]; apply Z.ltb_lt in H; lia
  end.
Qed.

Definition wait (handle : pyval) (timeout : Z) : M pyval :=
  wait_loop handle (PStr "") timeout.

(** A caller that issues the calls [cs] one after the other through one
    connection, whatever each of them returns or raises. *)
Fixpoint issue (cs : list (string * list (string * pyval)))
    (st : state ECMConnection_ R) : state ECMConnection_ R :=
  match cs with
  | [] => st
  | (methodName, kwargs) :: rest => issue rest (snd (call methodName kwargs st))
  end.

End Connection.

(** *** The command line of ecm_run.py

    An [arg] is one option of the command line after argparse has converted
    its value.  [parse_args] gives every [dest] the value of the last option
    that stores into it, and the default of its [add_argument] when there is
    none.  [--template] is required: without it the parser exits with
    status 2, after the usage and error lines that [main] records. *)

Inductive arg : Type :=
| Url (s : string)
| Template (path : string)
| Filename (s : string)
| Exposure (n : Z)
| Accumulations (n : Z)
| GetLaserpowers
| LaserPower (p : Q).

Record options : Type := {
  o_url : string;
  o_template : option string;
  o_filename : option string;
  o_exposure : option Z;
  o_accumulations : option Z;
  o_get_laserpowers : bool;
  o_power : option Q
}.

Definition parse_args (args : list arg) : result options :=
  let o :=
    {| o_url :=
         last_value (fun a => match a with Url s => Some s | _ => None end)
           args "http://localhost:9880/api";
       o_template :=
         last_value (fun a => match a with Template p => Some (Some p) | _ => None end)
           args None;
       o_filename :=
         last_value (fun a => match a with Filename s => Some (Some s) | _ => None end)
           args None;
       o_exposure :=
         last_value (fun a => match a with Exposure n => Some (Some n) | _ => None end)
           args None;
       o_accumulations :=
         last_value (fun a => match a with Accumulations n => Some (Some n) | _ => None end)
           args None;
       o_get_laserpowers :=
         last_value (fun a => match a with GetLaserpowers => Some true | _ => None end)
           args false;
       o_power :=
         last_value (fun a => match a with LaserPower p => Some (Some p) | _ => None end)
           args None |} in
  match o_template o with
  | Some _ => Return o
  | None => Raise (SystemExit 2)
  end.

Section Main.
Context {R : Type} (serve : R -> request -> post_outcome * R).
(** The files of the local disk: [fs path] is the content of the file, [None]
    when [open] fails. *)
Context (fs : string -> option string).

Local Abbreviation M := (M ECMConnection_ R).

(** [with open(path) as f: f.read()] *)
Definition open_read (path : option string) : M string :=
  match path with
  | None => raise TypeError
  | Some p => match fs p with
              | Some content => ret content
              | None => raise OSError
              end
  end.

(** [main]: the result is the returned exit status and the world after the
    run.  When [parse_args] rejects the command line, the parser has written
    its usage and its error line to standard error before it exits.
    [ecm.Measurement] (line 149) is not an attribute of
    [ECMConnection], neither of the instance ([url], [_id], [headers]) nor of
    the class ([id], [call], [wait]): the lookup raises [AttributeError]. *)
Definition main (args : list arg) (w : world R) : result Z * world R :=
  match parse_args args with
  | Raise e =>
      (Raise e,
       {| remote := remote w;
          trace := trace w ++
                   parser_error "the following arguments are required: --template" |})
  | Return options =>
      let ecm := ECMConnection (o_url options) in
      let (r, st) :=
        (template_xml <- open_read (o_template options) ;;
         handle <- call serve "Queue.Add"
                     [("paused", PBool true); ("monitor", PBool false);
                      ("wxmString", PStr template_xml)] ;;
         if_not_None (o_exposure options) (fun exposure =>
           ignore (call serve "Measurement.SetExposure"
                     [("handle", handle); ("exposure", PInt exposure)])) ;;
         if_not_None (o_filename options) (fun filename =>
           ignore (call serve "Measurement.SetFilename"
                     [("handle", handle); ("filename", PStr filename)])) ;;
         if_not_None (o_accumulations options) (fun accumulations =>
           call serve "Measurement.SetAccumulations"
             [("handle", handle); ("accumulations", PInt accumulations)] ;;
           raise (AttributeError "Measurement")) ;;
         if_not_None (o_power options) (fun power =>
           ignore (call serve "Measurement.SetLaserPower"
                     [("handle", handle); ("power", PFloat power)])) ;;
         if o_get_laserpowers options then
           powers <- call serve "Measurement.GetLaserPowers" [("handle", handle)] ;;
           print (OutValue powers) ;;
           call serve "Queue.Remove" [("handle", handle)] ;;
           ret 0
         else
           call serve "Queue.Continue" [("handle", handle)] ;;
           status <- wait serve handle 10000 ;;
           when_ (negb (eq_str status "COMPLETE"))
             (print_stderr (OutTimedOut status) ;;
              call serve "Queue.Abort" [("handle", handle)] ;;
              sleep 500) ;;
           call serve "Queue.Remove" [("handle", handle)] ;;
           ret 0) (ecm, w) in
      (r, snd st)
  end.

End Main.
End Run.

(** ** ecm_custom.py *)

Module Custom.

Record ECMConnection_ : Type := {
  url : string;
  _id : Z;
  debug : bool;
  headers : list (string * string)
}.

(** [ECMConnection.__init__] *)
Definition ECMConnection (url : string) : ECMConnection_ :=
  {| url := url; _id := 0; debug := false;
     headers := [("Content-Type", "application/json")] |}.

Section Connection.
Context {R : Type} (serve : R -> request -> post_outcome * R).

Local Abbreviation M := (M ECMConnection_ R).

(** The property [id]: return [_id] and increment it. *)
Definition id : M Z :=
  fun st =>
    let self := fst st in
    (Return (_id self),
     ({| url := url self; _id := _id self + 1; debug := debug self;
         headers := headers self |}, snd st)).

(** No [timeout=] is passed to [requests.post] here (line 45; the line
    after it, [res.timeout = 1.0], is commented out). *)
Definition call (methodName : string) (kwargs : list (string * pyval)) : M pyval :=
  self <- get_self ;;
  when_ (debug self && negb (String.eqb methodName "Queue.GetMeasurementState"))
    (print (OutText ("Sent = " ++ methodName ++ " command.")%string)) ;;
  i <- id ;;
  let data := {| jsonrpc := "2.0"; rpc_id := i;
                 rpc_method := methodName; rpc_params := kwargs |} in
  res <- requests_post serve
           {| req_url := url self;
              req_headers := headers self;
              req_json := data;
              req_timeout := None;
              req_proxies := [("http", None)] |} ;;
  if status_code res =? 200 then
    r <- lift (json_loads res) ;;
    has_error <- lift (py_in "error" r) ;;
    if has_error then
      e <- lift (getitem r "error") ;;
      message <- lift (getitem e "message") ;;
      raise (ECMException message)
    else
      lift (getitem r "result")
  else
    raise (ECMException (PStr (text res))).

(** One pass through the body of the [while] loop of [wait]; the result is
    the new value of [status]. *)
Definition wait_body (handle status : pyval) : M pyval :=
  status' <- try_except_ECMException
               (s <- call "Queue.GetMeasurementState" [("handle", handle)] ;;
                self <- get_self ;;
                when_ (debug self) (print (OutStatus s)) ;;
                ret s)
               (fun ex => print (OutValue ex) ;; ret status) ;;
  sleep 250 ;;
  ret status'.

Equations? wait_loop (handle status : pyval) (timeout : Z)
    (st : state ECMConnection_ R) : result pyval * state ECMConnection_ R
    by wf (Z.to_nat timeout) lt :=
  wait_loop handle status timeout st
    with Sumbool.sumbool_of_bool (negb (eq_str status "COMPLETE") && (0 <? timeout)) := {
    | left _ :=
        match wait_body handle status st with
        | (Return status', st') => wait_loop handle status' (timeout - 250) st'
        | (Raise e, st') => (Raise e, st')
        end
    | right _ := (Return status, st) }.
Proof.
  match goal with
  | H : (_ && _)%bool = true |- _ =>
      apply andb_prop in H; destruct H as [_ H]; apply Z.ltb_lt in H; lia
  end.
Qed.

Definition wait (handle : pyval) (timeout : Z) : M pyval :=
  sleep 250 ;;
  wait_loop handle (PStr "") timeout.

(** A caller that issues the calls [cs] one after the other through one
    connection, whatever each of them returns or raises. *)
Fixpoint issue (cs : list (string * list (string * pyval)))
    (st : state ECMConnection_ R) : state ECMConnection_ R :=
  match cs with
  | [] => st
  | (methodName, kwargs) :: rest => issue rest (snd (call methodName kwargs st))
  end.

End Connection.

(** *** The command line of ecm_custom.py

    [Whitelight] carries the dict that [parse_whitelight] returns, [MapArea],
    [Series] and [CustomAxis] the lists that [parse_map], [parse_series] and
    [parse_custom] return.  [--use-client-stage] ([store_false]) and
    [--use-wire-stage] ([store_true]) share the [dest] [stage]; argparse
    takes the default of a [dest] from the first action registered for it,
    here the [True] of [store_false]. *)

Record whitelight : Type := {
  Image : string;
  Objective : Q;
  XPosition : Q;
  YPosition : Q;
  XFieldOfView : Q;
  YFieldOfView : Q
}.

Inductive arg : Type :=
| Url (s : string)
| Template (path : string)
| Filename (s : string)
| Exposure (n : Z)
| Accumulations (n : Z)
| GetLaserpowers
| LaserPower (p : Q)
| Whitelight (image : whitelight)
| MapArea (rectangleParam : list pyval)
| Series (seriesParam : list pyval)
| CustomAxis (custom_axes : list pyval)
| UseClientStage
| UseWireStage
| EnableTriggers
| SendTrigger (handle : Z)
| DebugFlag
| TimeoutMs (ms : Z).

Record options : Type := {
  o_url : string;
  o_template : option string;
  o_filename : option string;
  o_exposure : option Z;
  o_accumulations : option Z;
  o_get_laserpowers : bool;
  o_power : option Q;
  o_whitelight : option whitelight;
  o_map : option (list pyval);
  o_series : option (list pyval);
  o_custom : option (list pyval);
  o_stage : option bool;
  o_triggers : bool;
  o_send_trigger : option Z;
  o_debug : bool;
  o_timeout : Z
}.

Definition parse_args (args : list arg) : options :=
  {| o_url :=
       last_value (fun a => match a with Url s => Some s | _ => None end)
         args "http://localhost:9880/api/";
     o_template :=
       last_value (fun a => match a with Template p => Some (Some p) | _ => None end)
         args None;
     o_filename :=
       last_value (fun a => match a with Filename s => Some (Some s) | _ => None end)
         args None;
     o_exposure :=
       last_value (fun a => match a with Exposure n => Some (Some n) | _ => None end)
         args None;
     o_accumulations :=
       last_value (fun a => match a with Accumulations n => Some (Some n) | _ => None end)
         args None;
     o_get_laserpowers :=
       last_value (fun a => match a with GetLaserpowers => Some true | _ => None end)
         args false;
     o_power :=
       last_value (fun a => match a with LaserPower p => Some (Some p) | _ => None end)
         args None;
     o_whitelight :=
       last_value (fun a => match a with Whitelight i => Some (Some i) | _ => None end)
         args None;
     o_map :=
       last_value (fun a => match a with MapArea m => Some (Some m) | _ => None end)
         args None;
     o_series :=
       last_value (fun a => match a with Series x => Some (Some x) | _ => None end)
         args None;
     o_custom :=
       last_value (fun a => match a with CustomAxis c => Some (Some c) | _ => None end)
         args None;
     o_stage :=
       last_value (fun a => match a with
                            | UseClientStage => Some (Some false)
                            | UseWireStage => Some (Some true)
                            | _ => None
                            end)
         args (Some true);
     o_triggers :=
       last_value (fun a => match a with EnableTriggers => Some true | _ => None end)
         args false;
     o_send_trigger :=
       last_value (fun a => match a with SendTrigger h => Some (Some h) | _ => None end)
         args None;
     o_debug :=
       last_value (fun a => match a with DebugFlag => Some true | _ => None end)
         args false;
     o_timeout :=
       last_value (fun a => match a with TimeoutMs t => Some t | _ => None end)
         args 60000 |}.

(** [for value in powers]: the elements of a list, the characters of a str,
    the keys of a dict; the other values are not iterable. *)
Definition iterate (v : pyval) : result (list pyval) :=
  match v with
  | PList l => Return l
  | PStr s => Return (map (fun c => PStr (String c EmptyString)) (list_ascii_of_string s))
  | PDict kv => Return (map (fun p => PStr (fst p)) kv)
  | _ => Raise TypeError
  end.

(** ["{0:.3g}".format(value)]: numbers are formatted (an int is converted to
    a float first, which overflows from 2^1024 - 2^970 on), a str has no
    format code [g], the other values take no format string. *)
Definition format_3g (value : pyval) : result output :=
  match value with
  | PInt n => if Z.abs n <? 2 ^ 1024 - 2 ^ 970
              then Return (OutPower value) else Raise OverflowError
  | PFloat _ | PBool _ => Return (OutPower value)
  | PStr _ => Raise ValueError
  | _ => Raise TypeError
  end.

Section Main.
Context {R : Type} (serve : R -> request -> post_outcome * R).
Context (fs : string -> option string).

Local Abbreviation M := (M ECMConnection_ R).

(** [with open(path) as f: f.read()] *)
Definition open_read (path : option string) : M string :=
  match path with
  | None => raise TypeError
  | Some p => match fs p with
              | Some content => ret content
              | None => raise OSError
              end
  end.

Definition main (args : list arg) (w : world R) : result Z * world R :=
  let options := parse_args args in
  let ecm := ECMConnection (o_url options) in
  let ecm := if o_debug options
             then {| url := url ecm; _id := _id ecm; debug := true;
                     headers := headers ecm |}
             else ecm in
  let (r, st) :=
    (match o_send_trigger options with
     | Some send_trigger =>
         call serve "Measurement.Trigger" [("handle", PInt send_trigger)] ;;
         ret 0
     | None =>
         template_xml <- open_read (o_template options) ;;
         handle <- call serve "Queue.Add"
                     [("paused", PBool true); ("monitor", PBool false);
                      ("wxmString", PStr template_xml)] ;;
         if_not_None (o_exposure options) (fun exposure =>
           ignore (call serve "Measurement.SetExposure"
                     [("handle", handle); ("exposure", PInt exposure)])) ;;
         if_not_None (o_filename options) (fun filename =>
           ignore (call serve "Measurement.SetFilename"
                     [("handle", handle); ("filename", PStr filename)])) ;;
         if_not_None (o_accumulations options) (fun accumulations =>
           ignore (call serve "Measurement.SetAccumulations"
                     [("handle", handle); ("accumulations", PInt accumulations)])) ;;
         if_not_None (o_power options) (fun power =>
           ignore (call serve "Measurement.SetLaserPower"
                     [("handle", handle); ("power", PFloat power)])) ;;
         if o_get_laserpowers options then
           powers <- call serve "Measurement.GetLaserPowers" [("handle", handle)] ;;
           values <- lift (iterate powers) ;;
           for_each values (fun value =>
             line <- lift (format_3g value) ;;
             print line) ;;
           call serve "Queue.Remove" [("handle", handle)] ;;
           ret 0
         else
           if_not_None (o_whitelight options) (fun image =>
             ignore (call serve "Measurement.SetImage"
                       [("handle", handle);
                        ("Image", PStr (Image image));
                        ("Objective", PFloat (Objective image));
                        ("XPosition", PFloat (XPosition image));
                        ("YPosition", PFloat (YPosition image));
                        ("XFieldOfView", PFloat (XFieldOfView image));
                        ("YFieldOfView", PFloat (YFieldOfView image))])) ;;
           if_not_None (o_map options) (fun map_ =>
             ignore (call serve "Measurement.SetMap"
                       [("handle", handle); ("rectangleParam", PList map_)])) ;;
           if_not_None (o_series options) (fun series =>
             ignore (call serve "Measurement.SetMap"
                       [("handle", handle); ("seriesParam", PList series)])) ;;
           if_not_None (o_custom options) (fun custom =>
             ignore (call serve "Measurement.SetMapCustomAxis"
                       [("handle", handle); ("custom_axes", PList custom)])) ;;
           if_not_None (o_stage options) (fun stage =>
             ignore (call serve "Measurement.SetMapUseStage"
                       [("handle", handle); ("use_stage", PBool stage)])) ;;
           when_ (o_triggers options)
             (ignore (call serve "Measurement.SetMapTriggerMode"
                        [("handle", handle); ("mode", PStr "TCP_IP")])) ;;
           call serve "Queue.Continue" [("handle", handle)] ;;
           status <- wait serve handle (o_timeout options) ;;
           when_ (negb (eq_str status "COMPLETE"))
             (print_stderr (OutTimedOut status) ;;
              call serve "Queue.Abort" [("handle", handle)] ;;
              sleep 500) ;;
           call serve "Queue.Remove" [("handle", handle)] ;;
           ret 0
     end) (ecm, w) in
  (r, snd st).

End Main.

(** *** The converters of the command line

    [parse_map], [parse_series] and [parse_custom] decode their argument and
    build a list from the members of the object, in a fixed order.
    [json_loads_text] is [json.loads] on the argument, [None] when it
    raises. *)

Section Parsers.
Context (json_loads_text : string -> option pyval).

(** The list display [[param[k1], param[k2], ...]]: the subscriptions are
    evaluated from left to right and the first that raises ends it. *)
Fixpoint subscripts (param : pyval) (keys : list string) : result (list pyval) :=
  match keys with
  | [] => Return []
  | key :: rest =>
      match getitem param key with
      | Raise e => Raise e
      | Return v =>
          match subscripts param rest with
          | Raise e => Raise e
          | Return vs => Return (v :: vs)
          end
      end
  end.

Definition parse_map (arg : string) : result (list pyval) :=
  match json_loads_text arg with
  | None => Raise ValueError
  | Some param =>
      subscripts param
        ["xStart"; "yStart"; "xStep"; "yStep"; "xCount"; "yCount";
         "row_major"; "snake"]
  end.

Definition parse_series (arg : string) : result (list pyval) :=
  match json_loads_text arg with
  | None => Raise ValueError
  | Some param => subscripts param ["count"; "start"; "step"; "units"; "label"]
  end.

Definition parse_custom (arg : string) : result (list pyval) :=
  match json_loads_text arg with
  | None => Raise ValueError
  | Some param => subscripts param ["index"; "type"; "units"; "label"]
  end.

End Parsers.
End Custom.

(** ** Observations on a trace *)

Definition method_of (req : request) : string := rpc_method (req_json req).

Definition posts (tr : list event) : list request :=
  flat_map (fun e => match e with Post req => [req] | _ => [] end) tr.


Definition sleeps (tr : list event) : list Z :=
  flat_map (fun e => match e with Sleep ms => [ms] | _ => [] end) tr.

(** What the remote end and the clock see, in order: the method of each
    request and each sleep; printed lines are left out. *)
Inductive action : Type :=
| Call (methodName : string)
| Pause (ms : Z).

Definition actions (tr : list event) : list action :=
  flat_map (fun e => match e with
                     | Post req => [Call (method_of req)]
                     | Sleep ms => [Pause ms]
                     | _ => []
                     end) tr.

Definition action_eqb (a b : action) : bool :=
  match a, b with
  | Call m, Call n => String.eqb m n
  | Pause x, Pause y => x =? y
  | _, _ => false
  end.

Definition count_calls (methodName : string) (l : list action) : nat :=
  length (filter (action_eqb (Call methodName)) l).

(** What [call] makes of the outcome of its [requests.post]: the value it
    returns or the exception it raises (lines 44-53 of ecm_run.py, 47-55 of
    ecm_custom.py, as a function of the outcome). *)
Definition rpc_result (o : post_outcome) : result pyval :=
  match o with
  | Failed => Raise RequestException
  | Responded res =>
      if status_code res =? 200 then
        match json_loads res with
        | Raise e => Raise e
        | Return r =>
            match py_in "error" r with
            | Raise e => Raise e
            | Return true =>
                match getitem r "error" with
                | Raise e => Raise e
                | Return e =>
                    match getitem e "message" with
                    | Raise e' => Raise e'
                    | Return message => Raise (ECMException message)
                    end
                end
            | Return false => getitem r "result"
            end
        end
      else Raise (ECMException (PStr (text res)))
  end.

Definition is_status_query (req : request) : Prop :=
  method_of req = "Queue.GetMeasurementState".

(** The status queries made from server state [r] on are answered as the
    script says, one entry per query: a returned status or a raised
    exception. *)
Fixpoint scripted {R} (serve : R -> request -> post_outcome * R) (r : R)
    (script : list (result pyval)) : Prop :=
  match script with
  | [] => True
  | x :: rest =>
      forall req, is_status_query req ->
        rpc_result (fst (serve r req)) = x /\
        scripted serve (snd (serve r req)) rest
  end.

(** A status query never returns ["COMPLETE"]: it returns another value or
    raises the RPC error that [wait] handles. *)
Definition never_complete {R} (serve : R -> request -> post_outcome * R) : Prop :=
  forall r req, is_status_query req ->
    match rpc_result (fst (serve r req)) with
    | Return v => eq_str v "COMPLETE" = false
    | Raise (ECMException _) => True
    | Raise _ => False
    end.

(** The request that [call] posts from the connection [self]. *)
Definition run_request (self : Run.ECMConnection_) (methodName : string)
    (kwargs : list (string * pyval)) : request :=
  {| req_url := Run.url self;
     req_headers := Run.headers self;
     req_json := {| jsonrpc := "2.0"; rpc_id := Run._id self;
                    rpc_method := methodName; rpc_params := kwargs |};
     req_timeout := Some (0.2)%Q;
     req_proxies := [("http", None)] |}.

Definition custom_request (self : Custom.ECMConnection_) (methodName : string)
    (kwargs : list (string * pyval)) : request :=
  {| req_url := Custom.url self;
     req_headers := Custom.headers self;
     req_json := {| jsonrpc := "2.0"; rpc_id := Custom._id self;
                    rpc_method := methodName; rpc_params := kwargs |};
     req_timeout := None;
     req_proxies := [("http", None)] |}.

Definition run_next (self : Run.ECMConnection_) : Run.ECMConnection_ :=
  {| Run.url := Run.url self; Run._id := Run._id self + 1;
     Run.headers := Run.headers self |}.

Definition custom_next (self : Custom.ECMConnection_) : Custom.ECMConnection_ :=
  {| Custom.url := Custom.url self; Custom._id := Custom._id self + 1;
     Custom.debug := Custom.debug self; Custom.headers := Custom.headers self |}.

(** The line that ecm_custom.py prints before a call when [debug] is set. *)
Definition custom_sent (self : Custom.ECMConnection_) (methodName : string)
    : list event :=
  if Custom.debug self && negb (String.eqb methodName "Queue.GetMeasurementState")
  then [Stdout (OutText ("Sent = " ++ methodName ++ " command.")%string)] else [].

(** What ecm_run.py prints after a post: the response when its status is
    not 200. *)
Definition run_printed (o : post_outcome) : list event :=
  match o with
  | Responded res => if status_code res =? 200 then [] else [Stdout (OutResponse res)]
  | Failed => []
  end.

(** One pass through the loop of [wait] as the remote end and the clock see
    it: the status query, then the sleep of 250 ms. *)
Definition poll : list action := [Call "Queue.GetMeasurementState"; Pause 250].

(** The script of a status query that returns ["RUNNING"] three times and
    then ["COMPLETE"]. *)
Definition running3_complete : list (result pyval) :=
  [Return (PStr "RUNNING"); Return (PStr "RUNNING"); Return (PStr "RUNNING");
   Return (PStr "COMPLETE")].

(** Every status query returns ["RUNNING"]. *)
Definition always_running {R} (serve : R -> request -> post_outcome * R) : Prop :=
  forall r req, is_status_query req ->
    rpc_result (fst (serve r req)) = Return (PStr "RUNNING").

(** Every call of the method [methodName] returns normally. *)
Definition succeeds {R} (serve : R -> request -> post_outcome * R)
    (methodName : string) : Prop :=
  forall r req, method_of req = methodName ->
    exists v, rpc_result (fst (serve r req)) = Return v.

Definition if_supplied {A} (o : option A) (methodName : string) : list action :=
  match o with
  | Some _ => [Call methodName]
  | None => []
  end.

(** The configuration calls that [main] of ecm_run.py makes for the options
    that do not stop it. *)
Definition run_configuration (o : Run.options) : list action :=
  if_supplied (Run.o_exposure o) "Measurement.SetExposure" ++
  if_supplied (Run.o_filename o) "Measurement.SetFilename" ++
  if_supplied (Run.o_power o) "Measurement.SetLaserPower".

(** The configuration calls that [main] of ecm_custom.py makes in a full
    session, by the options. *)
Definition custom_configuration (o : Custom.options) : list action :=
  if_supplied (Custom.o_exposure o) "Measurement.SetExposure" ++
  if_supplied (Custom.o_filename o) "Measurement.SetFilename" ++
  if_supplied (Custom.o_accumulations o) "Measurement.SetAccumulations" ++
  if_supplied (Custom.o_power o) "Measurement.SetLaserPower" ++
  if_supplied (Custom.o_whitelight o) "Measurement.SetImage" ++
  if_supplied (Custom.o_map o) "Measurement.SetMap" ++
  if_supplied (Custom.o_series o) "Measurement.SetMap" ++
  if_supplied (Custom.o_custom o) "Measurement.SetMapCustomAxis" ++
  if_supplied (Custom.o_stage o) "Measurement.SetMapUseStage" ++
  (if Custom.o_triggers o then [Call "Measurement.SetMapTriggerMode"] else []).

(** The two options that store into [stage]. *)
Definition is_stage_flag (a : Custom.arg) : bool :=
  match a with
  | Custom.UseClientStage | Custom.UseWireStage => true
  | _ => false
  end.

(** ** Stub servers *)

Definition reply_result (v : pyval) : response :=
  {| status_code := 200;
     text := "{result}";
     loads := Some (PDict [("jsonrpc", PStr "2.0"); ("id", PInt 0); ("result", v)]) |}.

Definition reply_error (code : Z) (message : string) : response :=
  {| status_code := 200;
     text := "{error}";
     loads := Some (PDict [("jsonrpc", PStr "2.0"); ("id", PInt 0);
                           ("error", PDict [("code", PInt code);
                                            ("message", PStr message)])]) |}.

(** Answers the requests with the responses of a list, in order; the
    connection fails once the list is used up. *)
Definition playback (r : list response) (req : request)
    : post_outcome * list response :=
  match r with
  | res :: rest => (Responded res, rest)
  | [] => (Failed, [])
  end.

(** An instrument whose measurement never finishes: every status query is
    answered ["RUNNING"], [Queue.Abort] with [abort_reply], every other
    method with the handle 7. *)
Definition busy_instrument (abort_reply : response) (r : unit) (req : request)
    : post_outcome * unit :=
  if String.eqb (method_of req) "Queue.GetMeasurementState"
  then (Responded (reply_result (PStr "RUNNING")), tt)
  else if String.eqb (method_of req) "Queue.Abort"
  then (Responded abort_reply, tt)
  else (Responded (reply_result (PInt 7)), tt).

Definition one_template (path : string) : option string :=
  if String.eqb path "t.wxm" then Some "<template/>" else None.

Definition fresh {R} (r : R) : world R := {| remote := r; trace := [] |}.

(** ** Sessions as a whole *)

(** The lines written to standard output, in order. *)
Definition printed (tr : list event) : list output :=
  flat_map (fun e => match e with Stdout o => [o] | _ => [] end) tr.

(** The number of passes through the loop of [wait] that a budget pays for:
    one per started 250. *)
Definition passes (timeout : Z) : nat := Z.to_nat ((timeout + 249) / 250).

Definition polls (n : nat) : list action := concat (repeat poll n).

Definition prefix (l plan : list action) : Prop := exists rest, plan = l ++ rest.

(** Every status query returns ["COMPLETE"]. *)
Definition always_complete {R} (serve : R -> request -> post_outcome * R) : Prop :=
  forall r req, is_status_query req ->
    rpc_result (fst (serve r req)) = Return (PStr "COMPLETE").

(** [m] only adds events that satisfy [P] to the trace, whatever it returns
    or raises. *)
Definition appends {C R A} (P : event -> Prop) (m : M C R A) : Prop :=
  forall st, exists evs,
    trace (snd (snd (m st))) = trace (snd st) ++ evs /\ Forall P evs.

(** [m] carries out one of the plans of [Plans]: all of it when it returns,
    a first part of it when it raises. *)
Definition follows {C R A} (m : M C R A) (Plans : list action -> Prop) : Prop :=
  forall st, exists l plan,
    actions (trace (snd (snd (m st)))) = actions (trace (snd st)) ++ l /\
    Plans plan /\
    match fst (m st) with
    | Return _ => l = plan
    | Raise _ => prefix l plan
    end.

(** The event is no request, or a request that names the measurement
    [handle]. *)
Definition names_handle (handle : pyval) (e : event) : Prop :=
  match e with
  | Post req => dict_get "handle" (rpc_params (req_json req)) = Some handle
  | _ => True
  end.

(** The event is no request, or the status query for [handle]. *)
Definition is_status_query_for (handle : pyval) (e : event) : Prop :=
  match e with
  | Post req =>
      method_of req = "Queue.GetMeasurementState" /\
      rpc_params (req_json req) = [("handle", handle)]
  | _ => True
  end.

(** How a released session ends: the removal, after the abort and its grace
    delay when the wait did not see ["COMPLETE"]. *)
Definition closing (tail : list action) : Prop :=
  tail = [Call "Queue.Remove"] \/
  tail = [Call "Queue.Abort"; Pause 500; Call "Queue.Remove"].

(** The calls and sleeps of a complete run of [main] of ecm_custom.py, by
    its options: the trigger alone, the laser-power query, or a full session
    with [n] passes of the wait. *)
Definition custom_session_plan (o : Custom.options) (plan : list action) : Prop :=
  match Custom.o_send_trigger o with
  | Some _ => plan = [Call "Measurement.Trigger"]
  | None =>
      if Custom.o_get_laserpowers o then
        plan =
          Call "Queue.Add" ::
          (if_supplied (Custom.o_exposure o) "Measurement.SetExposure" ++
           if_supplied (Custom.o_filename o) "Measurement.SetFilename" ++
           if_supplied (Custom.o_accumulations o) "Measurement.SetAccumulations" ++
           if_supplied (Custom.o_power o) "Measurement.SetLaserPower") ++
          [Call "Measurement.GetLaserPowers"; Call "Queue.Remove"]
      else
        exists n tail,
          (n <= passes (Custom.o_timeout o))%nat /\ closing tail /\
          plan =
            Call "Queue.Add" :: custom_configuration o ++
            [Call "Queue.Continue"; Pause 250] ++ polls n ++ tail
  end.

(** The same for ecm_run.py; with [--accumulations] the plan ends at the
    call that sets them. *)
Definition run_session_plan (o : Run.options) (plan : list action) : Prop :=
  match Run.o_accumulations o with
  | Some _ =>
      plan =
        Call "Queue.Add" ::
        (if_supplied (Run.o_exposure o) "Measurement.SetExposure" ++
         if_supplied (Run.o_filename o) "Measurement.SetFilename") ++
        [Call "Measurement.SetAccumulations"]
  | None =>
      if Run.o_get_laserpowers o then
        plan =
          Call "Queue.Add" :: run_configuration o ++
          [Call "Measurement.GetLaserPowers"; Call "Queue.Remove"]
      else
        exists n tail,
          (n <= passes 10000)%nat /\ closing tail /\
          plan =
            Call "Queue.Add" :: run_configuration o ++
            [Call "Queue.Continue"] ++ polls n ++ tail
  end.

(** A value that ["{0:.3g}".format] accepts. *)
Definition formattable (value : pyval) : Prop :=
  exists line, Custom.format_3g value = Return line.

(** When the post that [call] makes from world [w] is answered with [res],
    [call] gives [x], in both files. *)
Definition both_calls_give {R} (serve : R -> request -> post_outcome * R)
    (methodName : string) (kwargs : list (string * pyval))
    (self : Run.ECMConnection_) (self' : Custom.ECMConnection_) (w : world R)
    (res : response) (x : result pyval) : Prop :=
  (fst (serve (remote w) (run_request self methodName kwargs)) = Responded res ->
   fst (Run.call serve methodName kwargs (self, w)) = x) /\
  (fst (serve (remote w) (custom_request self' methodName kwargs)) = Responded res ->
   fst (Custom.call serve methodName kwargs (self', w)) = x).

(** What a status query may give while the measurement is not complete: a
    status other than ["COMPLETE"], or the [ECMException] that [wait]
    handles. *)
Definition not_yet (x : result pyval) : Prop :=
  match x with
  | Return v => eq_str v "COMPLETE" = false
  | Raise (ECMException _) => True
  | Raise _ => False
  end.

(** What [wait] did: [n] whole passes when it returned [s], which is then
    ["COMPLETE"] unless the budget [timeout] is used up; when it raised [e],
    [k] whole passes and the query that failed, [e] being no
    [ECMException]. *)
Definition wait_outcome (timeout : Z) (before : list action) (r : result pyval)
    (after : list action) : Prop :=
  match r with
  | Return s =>
      exists n, (n <= passes timeout)%nat /\
        after = before ++ polls n /\
        (eq_str s "COMPLETE" = true \/ n = passes timeout)
  | Raise e =>
      (forall message, e <> ECMException message) /\
      exists k, (S k <= passes timeout)%nat /\
        after = before ++ polls k ++ [Call "Queue.GetMeasurementState"]
  end.

(** A predicate on events that holds of everything [call] can add for the
    method [m] with the arguments [kw]: the request, and printed lines. *)
Definition admits_call (P : event -> Prop) (m : string)
    (kw : list (string * pyval)) : Prop :=
  (forall req, method_of req = m -> rpc_params (req_json req) = kw -> P (Post req)) /\
  (forall o, P (Stdout o)).

(** The answers to the requests [reqs], posted one after the other to the
    server in state [r]: what [call] makes of each outcome, the server going
    from each request to the next in the state the one before left. *)
Fixpoint answers {R} (serve : R -> request -> post_outcome * R) (r : R)
    (reqs : list request) : list (result pyval) :=
  match reqs with
  | [] => []
  | req :: rest =>
      rpc_result (fst (serve r req)) :: answers serve (snd (serve r req)) rest
  end.

(** The last value returned among the answers [l], [status] when there is
    none. *)
Definition last_status (status : pyval) (l : list (result pyval)) : pyval :=
  fold_left (fun s a => match a with Return v => v | Raise _ => s end) l status.

(** [wait] went from [before] to [after] and returned [s]: the requests it
    added to the trace are [qs], and [s] is the last status that the server,
    starting in the state of [before], returned to them, the empty string
    when it returned none.  A status other than the empty string is then one
    of these answers. *)
Definition status_of_the_run {R} (serve : R -> request -> post_outcome * R)
    (before after : world R) (s : pyval) : Prop :=
  exists qs,
    posts (trace after) = posts (trace before) ++ qs /\
    s = last_status (PStr "") (answers serve (remote before) qs) /\
    (eq_str s "COMPLETE" = true ->
     In (Return s) (answers serve (remote before) qs)).

(** The plans that are a plan of [P1] followed by a plan of [P2]. *)
Definition then_ (P1 P2 : list action -> Prop) (plan : list action) : Prop :=
  exists p1 p2, P1 p1 /\ P2 p2 /\ plan = p1 ++ p2.

(** The passes of one [wait] with the budget [timeout]. *)
Definition wait_plan (timeout : Z) (plan : list action) : Prop :=
  exists n, (n <= passes timeout)%nat /\ plan = polls n.

(** [m] never returns normally. *)
Definition never_returns {C R A} (m : M C R A) : Prop :=
  forall st a, fst (m st) <> Return a.

(** What a session may still do once the measurement is released: sleep,
    query the status, abort, remove. *)
Definition after_release (a : action) : Prop :=
  match a with
  | Pause _ => True
  | Call m =>
      m = "Queue.GetMeasurementState" \/ m = "Queue.Abort" \/ m = "Queue.Remove"
  end.

(** A plan holds at most one [Call m], as its last action. *)
Definition at_most_last (m : string) (plan : list action) : Prop :=
  count_calls m plan = 0%nat \/
  exists body, plan = body ++ [Call m] /\ count_calls m body = 0%nat.

(** A plan releases the measurement at most once, and what follows the
    release is allowed after it. *)
Definition releases_once (plan : list action) : Prop :=
  count_calls "Queue.Continue" plan = 0%nat \/
  exists pre post,
    plan = pre ++ Call "Queue.Continue" :: post /\
    count_calls "Queue.Continue" pre = 0%nat /\
    Forall after_release post.

(** What is asked of the requests of a session whose first request is
    [add]: when the answer to [add] is a handle, every later request names
    that handle; when [add] fails there is no later request and the session
    has raised the same exception. *)
Definition threads_handle {R} (serve : R -> request -> post_outcome * R) (r0 : R)
    (xml : string) (out : result Z * world R) : Prop :=
  exists add rest,
    posts (trace (snd out)) = add :: rest /\
    method_of add = "Queue.Add" /\
    rpc_params (req_json add) =
      [("paused", PBool true); ("monitor", PBool false); ("wxmString", PStr xml)] /\
    match rpc_result (fst (serve r0 add)) with
    | Return handle =>
        Forall (fun req =>
                  dict_get "handle" (rpc_params (req_json req)) = Some handle) rest
    | Raise e => rest = [] /\ fst out = Raise e
    end.


(** An instrument whose measurement is finished at once: every status query
    is answered ["COMPLETE"], every other method with the handle 7. *)
Definition ready_instrument (r : unit) (req : request) : post_outcome * unit :=
  if String.eqb (method_of req) "Queue.GetMeasurementState"
  then (Responded (reply_result (PStr "COMPLETE")), tt)
  else (Responded (reply_result (PInt 7)), tt).

(** The laser powers written to standard output by the loop of
    [--get-laserpowers], in order. *)
Definition power_lines (tr : list event) : list pyval :=
  flat_map (fun e => match e with Stdout (OutPower v) => [v] | _ => [] end) tr.

(** Every [Measurement.GetLaserPowers] call returns [powers]. *)
Definition offers_powers {R} (serve : R -> request -> post_outcome * R)
    (powers : pyval) : Prop :=
  forall r req, method_of req = "Measurement.GetLaserPowers" ->
    rpc_result (fst (serve r req)) = Return powers.

(** An instrument that answers [Measurement.GetLaserPowers] with [powers]
    and every other method with the handle 7. *)
Definition laser_instrument (powers : pyval) (r : unit) (req : request)
    : post_outcome * unit :=
  if String.eqb (method_of req) "Measurement.GetLaserPowers"
  then (Responded (reply_result powers), tt)
  else (Responded (reply_result (PInt 7)), tt).

(** [key] is the first of [keys] that the object [kv] has no member for. *)
Definition first_missing (kv : list (string * pyval)) (keys : list string)
    (key : string) : Prop :=
  exists before after,
    keys = before ++ key :: after /\
    Forall (fun k => dict_get k kv <> None) before /\
    dict_get key kv = None.

(** The exceptions of a converter that subscripts the decoded argument
    [loaded] with [keys]: [ValueError] when the text does not decode,
    [KeyError] with the first missing key for an object, [TypeError] for
    every other value. *)
Definition converter_error (loaded : option pyval) (keys : list string) (e : exn)
    : Prop :=
  match loaded with
  | None => e = ValueError
  | Some (PDict kv) => exists key, first_missing kv keys key /\ e = KeyError key
  | Some _ => e = TypeError
  end.

(** The decoded argument is an object, and [vs] are its members for
    [keys], in the order of [keys]. *)
Definition has_members (loaded : option pyval) (keys : list string)
    (vs : list pyval) : Prop :=
  exists kv, loaded = Some (PDict kv) /\
             map (fun key => dict_get key kv) keys = map Some vs.

(** A decoder that knows one text. *)
Definition decodes (text : string) (v : pyval) (arg : string) : option pyval :=
  if String.eqb arg text then Some v else None.

(** The lines that only [--debug] prints: the method sent, and the status
    received by [wait]. *)
Definition is_debug_line (e : event) : bool :=
  match e with
  | Stdout (OutText _) | Stdout (OutStatus _) => true
  | _ => false
  end.

(** The trace without its debug lines. *)
Definition undebugged (tr : list event) : list event :=
  filter (fun e => negb (is_debug_line e)) tr.

Definition is_debug_flag (a : Custom.arg) : bool :=
  match a with
  | Custom.DebugFlag => true
  | _ => false
  end.

(** Two states of ecm_custom.py that differ at most in the [debug]
    attribute of the connection and in the debug lines printed so far. *)
Definition same_session {R} (st1 st2 : state Custom.ECMConnection_ R) : Prop :=
  Custom.url (fst st1) = Custom.url (fst st2) /\
  Custom._id (fst st1) = Custom._id (fst st2) /\
  Custom.headers (fst st1) = Custom.headers (fst st2) /\
  remote (snd st1) = remote (snd st2) /\
  undebugged (trace (snd st1)) = undebugged (trace (snd st2)).

(** [m] gives the same result from two such states, and leaves two such
    states. *)
Definition debug_blind {R A} (m : M Custom.ECMConnection_ R A) : Prop :=
  forall st1 st2, same_session st1 st2 ->
    fst (m st1) = fst (m st2) /\ same_session (snd (m st1)) (snd (m st2)).

(** Every call of the method [methodName] raises [e]. *)
Definition fails {R} (serve : R -> request -> post_outcome * R)
    (methodName : string) (e : exn) : Prop :=
  forall r req, method_of req = methodName ->
    rpc_result (fst (serve r req)) = Raise e.

(** ** The transport: [call] *)

Lemma run_call_spec {R} (serve : R -> request -> post_outcome * R)
    methodName kwargs self w :
  let req := run_request self methodName kwargs in
  let o := fst (serve (remote w) req) in
  Run.call serve methodName kwargs (self, w) =
    (rpc_result o,
     (run_next self,
      {| remote := snd (serve (remote w) req);
         trace := trace w ++ Post req :: run_printed o |})).
Proof.
  intros req o. subst o.
  unfold Run.call, bind, Run.id, get_self, requests_post, lift, raise, print, emit,
    run_printed.
  cbn.
  change {| req_url := Run.url self; req_headers := Run.headers self;
            req_json := {| jsonrpc := "2.0"; rpc_id := Run._id self;
                           rpc_method := methodName; rpc_params := kwargs |};
            req_timeout := Some (0.2)%Q; req_proxies := [("http", None)] |} with req.
  destruct (serve (remote w) req) as [[res|] r']; cbn.
  - destruct (status_code res =? 200) eqn:Hs; cbn.
    + destruct (json_loads res) as [r|e]; [|reflexivity].
      destruct (py_in "error" r) as [[|]|e]; try reflexivity.
      destruct (getitem r "error") as [e|e]; [|reflexivity].
      destruct (getitem e "message"); reflexivity.
    + rewrite <- app_assoc. reflexivity.
  - reflexivity.
Qed.

Lemma custom_call_spec {R} (serve : R -> request -> post_outcome * R)
    methodName kwargs self w :
  let req := custom_request self methodName kwargs in
  Custom.call serve methodName kwargs (self, w) =
    (rpc_result (fst (serve (remote w) req)),
     (custom_next self,
      {| remote := snd (serve (remote w) req);
         trace := trace w ++ custom_sent self methodName ++ [Post req] |})).
Proof.
  intros req.
  unfold Custom.call, bind, Custom.id, get_self, requests_post, lift, raise,
    when_, print, emit, ret, custom_sent.
  assert (Hfin : forall (x : result pyval) (r' : R) tr1 tr2,
             tr1 = tr2 ->
             (x, (custom_next self, {| remote := r'; trace := tr1 |})) =
             (x, (custom_next self, {| remote := r'; trace := tr2 |})))
    by (intros; subst; reflexivity).
  cbn -[String.append].
  destruct (Custom.debug self && negb (methodName =? "Queue.GetMeasurementState")%string);
    cbn -[String.append];
    change {| req_url := Custom.url self; req_headers := Custom.headers self;
              req_json := {| jsonrpc := "2.0"; rpc_id := Custom._id self;
                             rpc_method := methodName; rpc_params := kwargs |};
              req_timeout := None; req_proxies := [("http", None)] |} with req;
    destruct (serve (remote w) req) as [[res|] r']; cbn -[String.append];
    try (apply Hfin; rewrite <- ?app_assoc; reflexivity);
    (destruct (status_code res =? 200) eqn:Hs; cbn -[String.append];
     [|apply Hfin; rewrite <- ?app_assoc; reflexivity]);
    (destruct (json_loads res) as [r|e]; [|apply Hfin; rewrite <- ?app_assoc; reflexivity]);
    (destruct (py_in "error" r) as [[|]|e];
     try (apply Hfin; rewrite <- ?app_assoc; reflexivity));
    (destruct (getitem r "error") as [e|e];
     [|apply Hfin; rewrite <- ?app_assoc; reflexivity]);
    destruct (getitem e "message"); apply Hfin; rewrite <- ?app_assoc; reflexivity.
Qed.

(** *** Observations are additive *)

Lemma posts_app tr1 tr2 : posts (tr1 ++ tr2) = posts tr1 ++ posts tr2.
Proof. unfold posts. apply flat_map_app. Qed.


Lemma actions_app tr1 tr2 : actions (tr1 ++ tr2) = actions tr1 ++ actions tr2.
Proof. unfold actions. apply flat_map_app. Qed.

Lemma sleeps_app tr1 tr2 : sleeps (tr1 ++ tr2) = sleeps tr1 ++ sleeps tr2.
Proof. unfold sleeps. apply flat_map_app. Qed.

Lemma count_calls_app m l1 l2 :
  count_calls m (l1 ++ l2) = (count_calls m l1 + count_calls m l2)%nat.
Proof. unfold count_calls. rewrite filter_app. apply length_app. Qed.

Lemma custom_sent_silent self methodName :
  posts (custom_sent self methodName) = [] /\
  actions (custom_sent self methodName) = [] /\
  sleeps (custom_sent self methodName) = [].
Proof.
  unfold custom_sent.
  destruct (Custom.debug self && _); repeat split; reflexivity.
Qed.

Lemma run_printed_silent o :
  posts (run_printed o) = [] /\ actions (run_printed o) = [].
Proof.
  destruct o as [res|]; cbn; [|split; reflexivity].
  destruct (status_code res =? 200); split; reflexivity.
Qed.

Lemma run_printed_return o v : rpc_result o = Return v -> run_printed o = [].
Proof.
  destruct o as [res|]; cbn; [|reflexivity].
  destruct (status_code res =? 200); [reflexivity|discriminate].
Qed.

(** *** Request identifiers *)






(** *** Error responses *)




(** *** The arguments of [requests.post] *)





(** ** The poller: [wait] *)

Lemma run_wait_loop_unfold {R} (serve : R -> request -> post_outcome * R)
    handle status timeout st :
  Run.wait_loop serve handle status timeout st =
    if negb (eq_str status "COMPLETE") && (0 <? timeout)
    then match Run.wait_body serve handle status st with
         | (Return status', st') =>
             Run.wait_loop serve handle status' (timeout - 250) st'
         | (Raise e, st') => (Raise e, st')
         end
    else (Return status, st).
Proof.
  rewrite Run.wait_loop_equation_1.
  destruct (Sumbool.sumbool_of_bool
              (negb (eq_str status "COMPLETE") && (0 <? timeout))) as [e|e];
    cbn [Run.wait_loop_unfold_clause_1]; rewrite e; reflexivity.
Qed.

Lemma custom_wait_loop_unfold {R} (serve : R -> request -> post_outcome * R)
    handle status timeout st :
  Custom.wait_loop serve handle status timeout st =
    if negb (eq_str status "COMPLETE") && (0 <? timeout)
    then match Custom.wait_body serve handle status st with
         | (Return status', st') =>
             Custom.wait_loop serve handle status' (timeout - 250) st'
         | (Raise e, st') => (Raise e, st')
         end
    else (Return status, st).
Proof.
  rewrite Custom.wait_loop_equation_1.
  destruct (Sumbool.sumbool_of_bool
              (negb (eq_str status "COMPLETE") && (0 <? timeout))) as [e|e];
    cbn [Custom.wait_loop_unfold_clause_1]; rewrite e; reflexivity.
Qed.

Lemma run_wait_body_spec {R} (serve : R -> request -> post_outcome * R)
    handle status self w :
  let req := run_request self "Queue.GetMeasurementState" [("handle", handle)] in
  let o := fst (serve (remote w) req) in
  let after evs :=
    (run_next self,
     {| remote := snd (serve (remote w) req);
        trace := trace w ++ Post req :: run_printed o ++ evs |}) in
  Run.wait_body serve handle status (self, w) =
    match rpc_result o with
    | Return v => (Return v, after [Sleep 250])
    | Raise (ECMException m) => (Return status, after [Stdout (OutValue m); Sleep 250])
    | Raise e => (Raise e, after [])
    end.
Proof.
  intros req o after. subst after.
  unfold Run.wait_body, bind, try_except_ECMException.
  rewrite run_call_spec. fold req. fold o.
  destruct (rpc_result o) as [v|[]]; unfold sleep, print, emit, ret, bind;
    cbn [fst snd remote trace]; rewrite <- ?app_assoc; cbn [app];
    rewrite ?app_nil_r; reflexivity.
Qed.

Lemma custom_sent_status_query self :
  custom_sent self "Queue.GetMeasurementState" = [].
Proof. unfold custom_sent. cbn. rewrite andb_false_r. reflexivity. Qed.

Lemma custom_wait_body_spec {R} (serve : R -> request -> post_outcome * R)
    handle status self w :
  let req := custom_request self "Queue.GetMeasurementState" [("handle", handle)] in
  let o := fst (serve (remote w) req) in
  let after evs :=
    (custom_next self,
     {| remote := snd (serve (remote w) req);
        trace := trace w ++ Post req :: evs |}) in
  Custom.wait_body serve handle status (self, w) =
    match rpc_result o with
    | Return v =>
        (Return v,
         after ((if Custom.debug self then [Stdout (OutStatus v)] else [])
                ++ [Sleep 250]))
    | Raise (ECMException m) => (Return status, after [Stdout (OutValue m); Sleep 250])
    | Raise e => (Raise e, after [])
    end.
Proof.
  intros req o after. subst after.
  unfold Custom.wait_body, bind, try_except_ECMException.
  rewrite custom_call_spec, custom_sent_status_query. fold req. fold o.
  destruct (rpc_result o) as [v|[]]; unfold sleep, print, emit, ret, bind, get_self, when_;
    cbn [fst snd remote trace custom_next Custom.debug app];
    try reflexivity.
  - destruct (Custom.debug self); unfold ret, emit;
      cbn [fst snd remote trace app]; rewrite <- ?app_assoc; reflexivity.
  - rewrite <- !app_assoc. reflexivity.
Qed.

Lemma run_wait_loop_done {R} (serve : R -> request -> post_outcome * R)
    handle status timeout st :
  eq_str status "COMPLETE" = true \/ timeout <= 0 ->
  Run.wait_loop serve handle status timeout st = (Return status, st).
Proof.
  intros H. rewrite run_wait_loop_unfold.
  destruct H as [H|H].
  - rewrite H. reflexivity.
  - replace (0 <? timeout) with false by (symmetry; apply Z.ltb_ge; exact H).
    rewrite andb_false_r. reflexivity.
Qed.

Lemma custom_wait_loop_done {R} (serve : R -> request -> post_outcome * R)
    handle status timeout st :
  eq_str status "COMPLETE" = true \/ timeout <= 0 ->
  Custom.wait_loop serve handle status timeout st = (Return status, st).
Proof.
  intros H. rewrite custom_wait_loop_unfold.
  destruct H as [H|H].
  - rewrite H. reflexivity.
  - replace (0 <? timeout) with false by (symmetry; apply Z.ltb_ge; exact H).
    rewrite andb_false_r. reflexivity.
Qed.

(** One pass of the loop, by what the status query does: a returned value
    becomes the status, an [ECMException] is printed and leaves the status
    as it was, and both cost one query, one sleep and 250 of the budget; any
    other exception leaves [wait]. *)
Lemma run_wait_loop_pass {R} (serve : R -> request -> post_outcome * R)
    handle status timeout st :
  eq_str status "COMPLETE" = false -> 0 < timeout ->
  let req := run_request (fst st) "Queue.GetMeasurementState" [("handle", handle)] in
  match rpc_result (fst (serve (remote (snd st)) req)) with
  | Return v =>
      exists st',
        Run.wait_loop serve handle status timeout st =
          Run.wait_loop serve handle v (timeout - 250) st' /\
        remote (snd st') = snd (serve (remote (snd st)) req) /\
        actions (trace (snd st')) = actions (trace (snd st)) ++ poll
  | Raise (ECMException m) =>
      exists st',
        Run.wait_loop serve handle status timeout st =
          Run.wait_loop serve handle status (timeout - 250) st' /\
        remote (snd st') = snd (serve (remote (snd st)) req) /\
        actions (trace (snd st')) = actions (trace (snd st)) ++ poll /\
        exists before, trace (snd st') = before ++ [Stdout (OutValue m); Sleep 250]
  | Raise e => fst (Run.wait_loop serve handle status timeout st) = Raise e
  end.
Proof.
  intros Hs Ht req. destruct st as [self w]. cbn [fst snd] in *.
  rewrite run_wait_loop_unfold, Hs.
  replace (0 <? timeout) with true by (symmetry; apply Z.ltb_lt; exact Ht).
  cbn [negb andb]. rewrite run_wait_body_spec. fold req.
  destruct (rpc_result (fst (serve (remote w) req))) as [v|e] eqn:E.
  - eexists. split; [reflexivity|]. cbn [fst snd remote trace].
    split; [reflexivity|].
    rewrite actions_app. cbn [actions flat_map].
    fold (actions (run_printed (fst (serve (remote w) req)) ++ [Sleep 250])).
    rewrite actions_app, (proj2 (run_printed_silent _)). reflexivity.
  - destruct e; try reflexivity.
    eexists. split; [reflexivity|]. cbn [fst snd remote trace].
    split; [reflexivity|]. split.
    + rewrite actions_app. cbn [actions flat_map].
      fold (actions (run_printed (fst (serve (remote w) req))
                     ++ [Stdout (OutValue message); Sleep 250])).
      rewrite actions_app, (proj2 (run_printed_silent _)). reflexivity.
    + exists (trace w ++ Post req :: run_printed (fst (serve (remote w) req))).
      rewrite <- app_assoc. reflexivity.
Qed.

Lemma custom_wait_loop_pass {R} (serve : R -> request -> post_outcome * R)
    handle status timeout st :
  eq_str status "COMPLETE" = false -> 0 < timeout ->
  let req := custom_request (fst st) "Queue.GetMeasurementState" [("handle", handle)] in
  match rpc_result (fst (serve (remote (snd st)) req)) with
  | Return v =>
      exists st',
        Custom.wait_loop serve handle status timeout st =
          Custom.wait_loop serve handle v (timeout - 250) st' /\
        remote (snd st') = snd (serve (remote (snd st)) req) /\
        actions (trace (snd st')) = actions (trace (snd st)) ++ poll
  | Raise (ECMException m) =>
      exists st',
        Custom.wait_loop serve handle status timeout st =
          Custom.wait_loop serve handle status (timeout - 250) st' /\
        remote (snd st') = snd (serve (remote (snd st)) req) /\
        actions (trace (snd st')) = actions (trace (snd st)) ++ poll /\
        exists before, trace (snd st') = before ++ [Stdout (OutValue m); Sleep 250]
  | Raise e => fst (Custom.wait_loop serve handle status timeout st) = Raise e
  end.
Proof.
  intros Hs Ht req. destruct st as [self w]. cbn [fst snd] in *.
  rewrite custom_wait_loop_unfold, Hs.
  replace (0 <? timeout) with true by (symmetry; apply Z.ltb_lt; exact Ht).
  cbn [negb andb]. rewrite custom_wait_body_spec. fold req.
  destruct (rpc_result (fst (serve (remote w) req))) as [v|e] eqn:E.
  - eexists. split; [reflexivity|]. cbn [fst snd remote trace].
    split; [reflexivity|].
    rewrite actions_app. cbn [actions flat_map].
    destruct (Custom.debug self); reflexivity.
  - destruct e; try reflexivity.
    eexists. split; [reflexivity|]. cbn [fst snd remote trace].
    split; [reflexivity|]. split.
    + rewrite actions_app. reflexivity.
    + exists (trace w ++ [Post req]).
      rewrite <- app_assoc. reflexivity.
Qed.

Lemma run_scripted_pass {R} (serve : R -> request -> post_outcome * R)
    handle status timeout st x rest :
  scripted serve (remote (snd st)) (x :: rest) ->
  eq_str status "COMPLETE" = false -> 0 < timeout ->
  match x with
  | Return v =>
      exists st',
        Run.wait_loop serve handle status timeout st =
          Run.wait_loop serve handle v (timeout - 250) st' /\
        scripted serve (remote (snd st')) rest /\
        actions (trace (snd st')) = actions (trace (snd st)) ++ poll
  | Raise (ECMException m) =>
      exists st',
        Run.wait_loop serve handle status timeout st =
          Run.wait_loop serve handle status (timeout - 250) st' /\
        scripted serve (remote (snd st')) rest /\
        actions (trace (snd st')) = actions (trace (snd st)) ++ poll /\
        exists before, trace (snd st') = before ++ [Stdout (OutValue m); Sleep 250]
  | Raise e => fst (Run.wait_loop serve handle status timeout st) = Raise e
  end.
Proof.
  intros H Hs Ht.
  pose proof (run_wait_loop_pass serve handle status timeout st Hs Ht) as P.
  cbv zeta in P.
  destruct (H (run_request (fst st) "Queue.GetMeasurementState" [("handle", handle)])
              eq_refl) as [E H'].
  rewrite E in P. destruct x as [v|[]]; try exact P.
  - destruct P as (st' & P1 & P2 & P3). exists st'. rewrite P2. auto.
  - destruct P as (st' & P1 & P2 & P3). exists st'. rewrite P2. auto.
Qed.

Lemma custom_scripted_pass {R} (serve : R -> request -> post_outcome * R)
    handle status timeout st x rest :
  scripted serve (remote (snd st)) (x :: rest) ->
  eq_str status "COMPLETE" = false -> 0 < timeout ->
  match x with
  | Return v =>
      exists st',
        Custom.wait_loop serve handle status timeout st =
          Custom.wait_loop serve handle v (timeout - 250) st' /\
        scripted serve (remote (snd st')) rest /\
        actions (trace (snd st')) = actions (trace (snd st)) ++ poll
  | Raise (ECMException m) =>
      exists st',
        Custom.wait_loop serve handle status timeout st =
          Custom.wait_loop serve handle status (timeout - 250) st' /\
        scripted serve (remote (snd st')) rest /\
        actions (trace (snd st')) = actions (trace (snd st)) ++ poll /\
        exists before, trace (snd st') = before ++ [Stdout (OutValue m); Sleep 250]
  | Raise e => fst (Custom.wait_loop serve handle status timeout st) = Raise e
  end.
Proof.
  intros H Hs Ht.
  pose proof (custom_wait_loop_pass serve handle status timeout st Hs Ht) as P.
  cbv zeta in P.
  destruct (H (custom_request (fst st) "Queue.GetMeasurementState" [("handle", handle)])
              eq_refl) as [E H'].
  rewrite E in P. destruct x as [v|[]]; try exact P.
  - destruct P as (st' & P1 & P2 & P3). exists st'. rewrite P2. auto.
  - destruct P as (st' & P1 & P2 & P3). exists st'. rewrite P2. auto.
Qed.

(** The first pause of [wait] in ecm_custom.py. *)
Lemma custom_wait_unfold {R} (serve : R -> request -> post_outcome * R)
    handle timeout st :
  Custom.wait serve handle timeout st =
    Custom.wait_loop serve handle (PStr "") timeout
      (fst st, {| remote := remote (snd st); trace := trace (snd st) ++ [Sleep 250] |}).
Proof. reflexivity. Qed.

(** The claim C1 as it is stated fails: with budget 1000 and the statuses
    RUNNING, RUNNING, RUNNING, COMPLETE, [wait] of ecm_run.py returns
    COMPLETE after 4 queries but has slept 4 times, not 3. *)
Lemma wait_sleeps_after_the_last_query :
  let out := Run.wait playback (PInt 7) 1000
               (Run.ECMConnection "http://localhost:9880/api",
                fresh [reply_result (PStr "RUNNING"); reply_result (PStr "RUNNING");
                       reply_result (PStr "RUNNING"); reply_result (PStr "COMPLETE")]) in
  ~ (fst out = Return (PStr "COMPLETE") /\
     length (posts (trace (snd (snd out)))) = 4%nat /\
     sleeps (trace (snd (snd out))) = [250; 250; 250]).
Proof.
  vm_compute. intros (_ & _ & H). discriminate H.
Qed.

Lemma run_wait_running3_complete {R} (serve : R -> request -> post_outcome * R)
    handle st :
  scripted serve (remote (snd st)) running3_complete ->
  exists st',
    Run.wait serve handle 1000 st = (Return (PStr "COMPLETE"), st') /\
    actions (trace (snd st')) =
      actions (trace (snd st)) ++ poll ++ poll ++ poll ++ poll.
Proof.
  intros H. unfold Run.wait.
  destruct (run_scripted_pass serve handle (PStr "") 1000 st _ _ H eq_refl
              ltac:(lia)) as (s1 & E1 & H1 & A1).
  destruct (run_scripted_pass serve handle (PStr "RUNNING") (1000 - 250) s1 _ _ H1
              eq_refl ltac:(lia)) as (s2 & E2 & H2 & A2).
  destruct (run_scripted_pass serve handle (PStr "RUNNING") (1000 - 250 - 250) s2 _ _
              H2 eq_refl ltac:(lia)) as (s3 & E3 & H3 & A3).
  destruct (run_scripted_pass serve handle (PStr "RUNNING") (1000 - 250 - 250 - 250)
              s3 _ _ H3 eq_refl ltac:(lia)) as (s4 & E4 & _ & A4).
  exists s4. rewrite E1, E2, E3, E4. split.
  - apply run_wait_loop_done. left. reflexivity.
  - rewrite A4, A3, A2, A1, <- !app_assoc. reflexivity.
Qed.

Lemma custom_wait_running3_complete {R} (serve : R -> request -> post_outcome * R)
    handle st :
  scripted serve (remote (snd st)) running3_complete ->
  exists st',
    Custom.wait serve handle 1000 st = (Return (PStr "COMPLETE"), st') /\
    actions (trace (snd st')) =
      actions (trace (snd st)) ++ Pause 250 :: poll ++ poll ++ poll ++ poll.
Proof.
  intros H. rewrite custom_wait_unfold.
  set (s0 := (fst st, {| remote := remote (snd st);
                         trace := trace (snd st) ++ [Sleep 250] |})).
  assert (A0 : actions (trace (snd s0)) = actions (trace (snd st)) ++ [Pause 250])
    by (subst s0; cbn [snd trace]; rewrite actions_app; reflexivity).
  destruct (custom_scripted_pass serve handle (PStr "") 1000 s0 _ _ H eq_refl
              ltac:(lia)) as (s1 & E1 & H1 & A1).
  destruct (custom_scripted_pass serve handle (PStr "RUNNING") (1000 - 250) s1 _ _ H1
              eq_refl ltac:(lia)) as (s2 & E2 & H2 & A2).
  destruct (custom_scripted_pass serve handle (PStr "RUNNING") (1000 - 250 - 250) s2
              _ _ H2 eq_refl ltac:(lia)) as (s3 & E3 & H3 & A3).
  destruct (custom_scripted_pass serve handle (PStr "RUNNING")
              (1000 - 250 - 250 - 250) s3 _ _ H3 eq_refl ltac:(lia))
    as (s4 & E4 & _ & A4).
  exists s4. rewrite E1, E2, E3, E4. split.
  - apply custom_wait_loop_done. left. reflexivity.
  - rewrite A4, A3, A2, A1, A0, <- !app_assoc. reflexivity.
Qed.

(** C1, amended. With budget 1000 and a status query that returns
    ["RUNNING"] three times and then ["COMPLETE"], [wait] returns
    ["COMPLETE"] after exactly 4 status queries, each followed by a sleep of
    250: 4 sleeps in ecm_run.py, and 5 in ecm_custom.py, which sleeps once
    more before the first query. *)
Theorem wait_complete_on_fourth_query {R}
    (serve : R -> request -> post_outcome * R) (handle : pyval)
    (self : Run.ECMConnection_) (self' : Custom.ECMConnection_) (w : world R) :
  scripted serve (remote w) running3_complete ->
  (exists st',
      Run.wait serve handle 1000 (self, w) = (Return (PStr "COMPLETE"), st') /\
      actions (trace (snd st')) =
        actions (trace w) ++
        [Call "Queue.GetMeasurementState"; Pause 250;
         Call "Queue.GetMeasurementState"; Pause 250;
         Call "Queue.GetMeasurementState"; Pause 250;
         Call "Queue.GetMeasurementState"; Pause 250]) /\
  (exists st',
      Custom.wait serve handle 1000 (self', w) = (Return (PStr "COMPLETE"), st') /\
      actions (trace (snd st')) =
        actions (trace w) ++
        [Pause 250;
         Call "Queue.GetMeasurementState"; Pause 250;
         Call "Queue.GetMeasurementState"; Pause 250;
         Call "Queue.GetMeasurementState"; Pause 250;
         Call "Queue.GetMeasurementState"; Pause 250]).
Proof.
  intros H. split.
  - exact (run_wait_running3_complete serve handle (self, w) H).
  - exact (custom_wait_running3_complete serve handle (self', w) H).
Qed.

Lemma wait_complete_on_fourth_query_witness :
  (exists st',
      Run.wait playback (PInt 7) 1000
        (Run.ECMConnection "http://localhost:9880/api",
         fresh (map reply_result
                  [PStr "RUNNING"; PStr "RUNNING"; PStr "RUNNING"; PStr "COMPLETE"])) =
        (Return (PStr "COMPLETE"), st') /\
      actions (trace (snd st')) =
        [Call "Queue.GetMeasurementState"; Pause 250;
         Call "Queue.GetMeasurementState"; Pause 250;
         Call "Queue.GetMeasurementState"; Pause 250;
         Call "Queue.GetMeasurementState"; Pause 250]) /\
  (exists st',
      Custom.wait playback (PInt 7) 1000
        (Custom.ECMConnection "http://localhost:9880/api/",
         fresh (map reply_result
                  [PStr "RUNNING"; PStr "RUNNING"; PStr "RUNNING"; PStr "COMPLETE"])) =
        (Return (PStr "COMPLETE"), st') /\
      actions (trace (snd st')) =
        [Pause 250;
         Call "Queue.GetMeasurementState"; Pause 250;
         Call "Queue.GetMeasurementState"; Pause 250;
         Call "Queue.GetMeasurementState"; Pause 250;
         Call "Queue.GetMeasurementState"; Pause 250]).
Proof.
  apply (wait_complete_on_fourth_query playback (PInt 7)
           (Run.ECMConnection "http://localhost:9880/api")
           (Custom.ECMConnection "http://localhost:9880/api/")
           (fresh (map reply_result
                     [PStr "RUNNING"; PStr "RUNNING"; PStr "RUNNING";
                      PStr "COMPLETE"]))).
  cbn. repeat (intros _ _; split; [reflexivity|]). exact I.
Defined.

Lemma run_never_complete_pass {R} (serve : R -> request -> post_outcome * R)
    handle status timeout st :
  never_complete serve ->
  eq_str status "COMPLETE" = false -> 0 < timeout ->
  exists status' st',
    Run.wait_loop serve handle status timeout st =
      Run.wait_loop serve handle status' (timeout - 250) st' /\
    eq_str status' "COMPLETE" = false /\
    actions (trace (snd st')) = actions (trace (snd st)) ++ poll.
Proof.
  intros H Hs Ht.
  pose proof (run_wait_loop_pass serve handle status timeout st Hs Ht) as P.
  cbv zeta in P.
  specialize (H (remote (snd st))
                (run_request (fst st) "Queue.GetMeasurementState" [("handle", handle)])
                eq_refl).
  destruct (rpc_result _) as [v|[]]; try contradiction.
  - destruct P as (st' & P1 & _ & P3). exists v, st'. auto.
  - destruct P as (st' & P1 & _ & P3 & _). exists status, st'. auto.
Qed.

Lemma custom_never_complete_pass {R} (serve : R -> request -> post_outcome * R)
    handle status timeout st :
  never_complete serve ->
  eq_str status "COMPLETE" = false -> 0 < timeout ->
  exists status' st',
    Custom.wait_loop serve handle status timeout st =
      Custom.wait_loop serve handle status' (timeout - 250) st' /\
    eq_str status' "COMPLETE" = false /\
    actions (trace (snd st')) = actions (trace (snd st)) ++ poll.
Proof.
  intros H Hs Ht.
  pose proof (custom_wait_loop_pass serve handle status timeout st Hs Ht) as P.
  cbv zeta in P.
  specialize (H (remote (snd st))
                (custom_request (fst st) "Queue.GetMeasurementState" [("handle", handle)])
                eq_refl).
  destruct (rpc_result _) as [v|[]]; try contradiction.
  - destruct P as (st' & P1 & _ & P3). exists v, st'. auto.
  - destruct P as (st' & P1 & _ & P3 & _). exists status, st'. auto.
Qed.

(** The number of passes that a budget pays for: a pass is made while the
    budget is positive and costs 250. *)
Lemma passes_step (timeout : Z) :
  0 < timeout ->
  Z.to_nat ((timeout + 249) / 250) = S (Z.to_nat ((timeout - 250 + 249) / 250)).
Proof.
  intros H.
  replace (timeout + 249) with ((timeout - 250 + 249) + 1 * 250) by lia.
  rewrite Z.div_add by lia.
  assert (0 <= (timeout - 250 + 249) / 250) by (apply Z.div_pos; lia).
  lia.
Qed.

Lemma passes_none (timeout : Z) :
  timeout <= 0 -> Z.to_nat ((timeout + 249) / 250) = 0%nat.
Proof.
  intros H.
  assert ((timeout + 249) / 250 <= 0).
  { apply Z.lt_succ_r. apply Z.div_lt_upper_bound; lia. }
  lia.
Qed.

(** While the status query never returns ["COMPLETE"], the loop makes one
    pass per started 250 of the budget and ends with another status. *)
Lemma run_wait_loop_times_out {R} (serve : R -> request -> post_outcome * R) handle :
  never_complete serve ->
  forall n timeout status st,
    n = Z.to_nat ((timeout + 249) / 250) ->
    eq_str status "COMPLETE" = false ->
    exists status' st',
      Run.wait_loop serve handle status timeout st = (Return status', st') /\
      eq_str status' "COMPLETE" = false /\
      actions (trace (snd st')) = actions (trace (snd st)) ++ concat (repeat poll n).
Proof.
  intros H. induction n as [|n IH]; intros timeout status st Hn Hs.
  - assert (timeout <= 0).
    { destruct (Z_lt_le_dec 0 timeout) as [Hp|]; [|assumption].
      rewrite (passes_step timeout Hp) in Hn. discriminate. }
    exists status, st. rewrite run_wait_loop_done by (right; assumption).
    cbn [repeat concat]. rewrite app_nil_r. auto.
  - assert (Hp : 0 < timeout).
    { destruct (Z_lt_le_dec 0 timeout) as [|Hle]; [assumption|].
      rewrite (passes_none timeout Hle) in Hn. discriminate. }
    rewrite (passes_step timeout Hp) in Hn. injection Hn as Hn.
    destruct (run_never_complete_pass serve handle status timeout st H Hs Hp)
      as (s1 & st1 & E1 & Hs1 & A1).
    destruct (IH (timeout - 250) s1 st1 Hn Hs1) as (s2 & st2 & E2 & Hs2 & A2).
    exists s2, st2. rewrite E1, E2, A2, A1. cbn [repeat concat].
    rewrite <- app_assoc. auto.
Qed.

Lemma custom_wait_loop_times_out {R} (serve : R -> request -> post_outcome * R) handle :
  never_complete serve ->
  forall n timeout status st,
    n = Z.to_nat ((timeout + 249) / 250) ->
    eq_str status "COMPLETE" = false ->
    exists status' st',
      Custom.wait_loop serve handle status timeout st = (Return status', st') /\
      eq_str status' "COMPLETE" = false /\
      actions (trace (snd st')) = actions (trace (snd st)) ++ concat (repeat poll n).
Proof.
  intros H. induction n as [|n IH]; intros timeout status st Hn Hs.
  - assert (timeout <= 0).
    { destruct (Z_lt_le_dec 0 timeout) as [Hp|]; [|assumption].
      rewrite (passes_step timeout Hp) in Hn. discriminate. }
    exists status, st. rewrite custom_wait_loop_done by (right; assumption).
    cbn [repeat concat]. rewrite app_nil_r. auto.
  - assert (Hp : 0 < timeout).
    { destruct (Z_lt_le_dec 0 timeout) as [|Hle]; [assumption|].
      rewrite (passes_none timeout Hle) in Hn. discriminate. }
    rewrite (passes_step timeout Hp) in Hn. injection Hn as Hn.
    destruct (custom_never_complete_pass serve handle status timeout st H Hs Hp)
      as (s1 & st1 & E1 & Hs1 & A1).
    destruct (IH (timeout - 250) s1 st1 Hn Hs1) as (s2 & st2 & E2 & Hs2 & A2).
    exists s2, st2. rewrite E1, E2, A2, A1. cbn [repeat concat].
    rewrite <- app_assoc. auto.
Qed.

(** C2. With budget 500 and a status query that never returns ["COMPLETE"],
    [wait] returns a status other than ["COMPLETE"] after exactly 2 status
    queries: the loop is left with the budget at [500 - 250 - 250], which is
    not positive.  In both files; ecm_custom.py sleeps once before the first
    query. *)
Theorem wait_times_out_after_two_queries {R}
    (serve : R -> request -> post_outcome * R) (handle : pyval)
    (st : state Run.ECMConnection_ R) (st2 : state Custom.ECMConnection_ R) :
  never_complete serve ->
  (exists status st',
      Run.wait serve handle 500 st = (Return status, st') /\
      eq_str status "COMPLETE" = false /\
      Run.wait_loop serve handle (PStr "") 500 st =
        Run.wait_loop serve handle status (500 - 250 - 250) st' /\
      500 - 250 - 250 <= 0 /\
      actions (trace (snd st')) =
        actions (trace (snd st)) ++
        [Call "Queue.GetMeasurementState"; Pause 250;
         Call "Queue.GetMeasurementState"; Pause 250]) /\
  (exists status st',
      Custom.wait serve handle 500 st2 = (Return status, st') /\
      eq_str status "COMPLETE" = false /\
      Custom.wait_loop serve handle (PStr "") 500
        (fst st2, {| remote := remote (snd st2);
                     trace := trace (snd st2) ++ [Sleep 250] |}) =
        Custom.wait_loop serve handle status (500 - 250 - 250) st' /\
      500 - 250 - 250 <= 0 /\
      actions (trace (snd st')) =
        actions (trace (snd st2)) ++
        [Pause 250;
         Call "Queue.GetMeasurementState"; Pause 250;
         Call "Queue.GetMeasurementState"; Pause 250]).
Proof.
  intros H. split.
  - unfold Run.wait.
    destruct (run_never_complete_pass serve handle (PStr "") 500 st H eq_refl
                ltac:(lia)) as (s1 & st1 & E1 & Hs1 & A1).
    destruct (run_never_complete_pass serve handle s1 (500 - 250) st1 H Hs1
                ltac:(lia)) as (s2 & st2' & E2 & Hs2 & A2).
    exists s2, st2'. rewrite E1, E2. repeat split.
    + apply run_wait_loop_done. right. lia.
    + exact Hs2.
    + lia.
    + rewrite A2, A1, <- app_assoc. reflexivity.
  - rewrite custom_wait_unfold.
    set (s0 := (fst st2, {| remote := remote (snd st2);
                            trace := trace (snd st2) ++ [Sleep 250] |})).
    assert (A0 : actions (trace (snd s0)) = actions (trace (snd st2)) ++ [Pause 250])
      by (subst s0; cbn [snd trace]; rewrite actions_app; reflexivity).
    destruct (custom_never_complete_pass serve handle (PStr "") 500 s0 H eq_refl
                ltac:(lia)) as (s1 & st1 & E1 & Hs1 & A1).
    destruct (custom_never_complete_pass serve handle s1 (500 - 250) st1 H Hs1
                ltac:(lia)) as (s2 & st2' & E2 & Hs2 & A2).
    exists s2, st2'. rewrite E1, E2. repeat split.
    + apply custom_wait_loop_done. right. lia.
    + exact Hs2.
    + lia.
    + rewrite A2, A1, A0, <- !app_assoc. reflexivity.
Qed.

Lemma wait_times_out_after_two_queries_witness :
  (exists status st',
      Run.wait (busy_instrument (reply_result PNone)) (PInt 7) 500
        (Run.ECMConnection "http://localhost:9880/api", fresh tt) =
        (Return status, st') /\
      eq_str status "COMPLETE" = false /\
      length (posts (trace (snd st'))) = 2%nat) /\
  (exists status st',
      Custom.wait (busy_instrument (reply_result PNone)) (PInt 7) 500
        (Custom.ECMConnection "http://localhost:9880/api/", fresh tt) =
        (Return status, st') /\
      eq_str status "COMPLETE" = false /\
      length (posts (trace (snd st'))) = 2%nat).
Proof.
  assert (H : never_complete (busy_instrument (reply_result PNone))).
  { intros r req Hq. unfold busy_instrument.
    unfold is_status_query in Hq. rewrite Hq. reflexivity. }
  destruct (wait_times_out_after_two_queries
              (busy_instrument (reply_result PNone)) (PInt 7)
              (Run.ECMConnection "http://localhost:9880/api", fresh tt)
              (Custom.ECMConnection "http://localhost:9880/api/", fresh tt) H)
    as [(s & st' & E & Hs & _) (s2 & st2' & E2 & Hs2 & _)].
  split.
  - exists s, st'. repeat split; try assumption.
    vm_compute in E. injection E as _ E. subst st'. reflexivity.
  - exists s2, st2'. repeat split; try assumption.
    vm_compute in E2. injection E2 as _ E2. subst st2'. reflexivity.
Defined.



(** ** The session: [main] *)

Lemma bind_ok {C R A B} (m : M C R A) (f : A -> M C R B) st a st' :
  m st = (Return a, st') -> bind m f st = f a st'.
Proof. intros E. unfold bind. rewrite E. reflexivity. Qed.

Lemma bind_raise {C R A B} (m : M C R A) (f : A -> M C R B) st e st' :
  m st = (Raise e, st') -> bind m f st = (Raise e, st').
Proof. intros E. unfold bind. rewrite E. reflexivity. Qed.

Lemma run_call_actions {R} (serve : R -> request -> post_outcome * R) m kw st :
  actions (trace (snd (snd (Run.call serve m kw st)))) =
  actions (trace (snd st)) ++ [Call m].
Proof.
  destruct st as [self w]. rewrite run_call_spec. cbn [snd trace].
  rewrite actions_app. cbn [actions flat_map].
  fold (actions (run_printed (fst (serve (remote w) (run_request self m kw))))).
  rewrite (proj2 (run_printed_silent _)). reflexivity.
Qed.

Lemma custom_call_actions {R} (serve : R -> request -> post_outcome * R) m kw st :
  actions (trace (snd (snd (Custom.call serve m kw st)))) =
  actions (trace (snd st)) ++ [Call m].
Proof.
  destruct st as [self w]. rewrite custom_call_spec. cbn [snd trace].
  rewrite !actions_app, (proj1 (proj2 (custom_sent_silent _ _))). reflexivity.
Qed.

Lemma run_call_ok {R} (serve : R -> request -> post_outcome * R) m :
  succeeds serve m ->
  forall kw st, exists v st',
    Run.call serve m kw st = (Return v, st') /\
    actions (trace (snd st')) = actions (trace (snd st)) ++ [Call m].
Proof.
  intros H kw st.
  pose proof (run_call_actions serve m kw st) as A.
  destruct st as [self w]. rewrite run_call_spec in *.
  destruct (H (remote w) (run_request self m kw) eq_refl) as [v E].
  rewrite E in *. eauto.
Qed.

Lemma custom_call_ok {R} (serve : R -> request -> post_outcome * R) m :
  succeeds serve m ->
  forall kw st, exists v st',
    Custom.call serve m kw st = (Return v, st') /\
    actions (trace (snd st')) = actions (trace (snd st)) ++ [Call m].
Proof.
  intros H kw st.
  pose proof (custom_call_actions serve m kw st) as A.
  destruct st as [self w]. rewrite custom_call_spec in *.
  destruct (H (remote w) (custom_request self m kw) eq_refl) as [v E].
  rewrite E in *. eauto.
Qed.

Lemma run_optional_ok {R T} (serve : R -> request -> post_outcome * R) m :
  succeeds serve m ->
  forall (o : option T) kw st, exists st',
    if_not_None o (fun x => ignore (Run.call serve m (kw x))) st = (Return tt, st') /\
    actions (trace (snd st')) = actions (trace (snd st)) ++ if_supplied o m.
Proof.
  intros H [x|] kw st; cbn [if_not_None if_supplied].
  - destruct (run_call_ok serve m H (kw x) st) as (v & st' & E & A).
    exists st'. unfold ignore. rewrite (bind_ok _ _ _ _ _ E). auto.
  - exists st. rewrite app_nil_r. auto.
Qed.

Lemma custom_optional_ok {R T} (serve : R -> request -> post_outcome * R) m :
  succeeds serve m ->
  forall (o : option T) kw st, exists st',
    if_not_None o (fun x => ignore (Custom.call serve m (kw x))) st = (Return tt, st') /\
    actions (trace (snd st')) = actions (trace (snd st)) ++ if_supplied o m.
Proof.
  intros H [x|] kw st; cbn [if_not_None if_supplied].
  - destruct (custom_call_ok serve m H (kw x) st) as (v & st' & E & A).
    exists st'. unfold ignore. rewrite (bind_ok _ _ _ _ _ E). auto.
  - exists st. rewrite app_nil_r. auto.
Qed.

(** [H] says which methods return normally; the methods of the calls made
    before the release differ from the ones it leaves out. *)
Ltac succeeds_by H m :=
  first [ exact (H m ltac:(discriminate) ltac:(discriminate))
        | exact (H m ltac:(discriminate)) ].

Ltac run_optional H :=
  match goal with
  | |- context [bind (if_not_None ?o (fun x => ignore (Run.call ?serve ?m (@?kw x))))
                  ?k ?st] =>
      let st' := fresh "st" in
      let E := fresh "E" in
      let A := fresh "A" in
      let S := fresh "S" in
      assert (S : succeeds serve m) by succeeds_by H m;
      destruct (run_optional_ok serve m S o kw st) as (st' & E & A); clear S;
      cbv beta in E; rewrite (bind_ok _ _ _ _ _ E); clear E; cbv beta
  end.

Ltac custom_optional H :=
  match goal with
  | |- context [bind (if_not_None ?o (fun x => ignore (Custom.call ?serve ?m (@?kw x))))
                  ?k ?st] =>
      let st' := fresh "st" in
      let E := fresh "E" in
      let A := fresh "A" in
      let S := fresh "S" in
      assert (S : succeeds serve m) by succeeds_by H m;
      destruct (custom_optional_ok serve m S o kw st) as (st' & E & A); clear S;
      cbv beta in E; rewrite (bind_ok _ _ _ _ _ E); clear E; cbv beta
  end.

Ltac run_call H :=
  match goal with
  | |- context [bind (Run.call ?serve ?m ?kw) ?k ?st] =>
      let v := fresh "v" in
      let st' := fresh "st" in
      let E := fresh "E" in
      let A := fresh "A" in
      let S := fresh "S" in
      assert (S : succeeds serve m) by succeeds_by H m;
      destruct (run_call_ok serve m S kw st) as (v & st' & E & A); clear S;
      rewrite (bind_ok _ _ _ _ _ E); clear E; cbv beta
  end.

Ltac custom_call H :=
  match goal with
  | |- context [bind (Custom.call ?serve ?m ?kw) ?k ?st] =>
      let v := fresh "v" in
      let st' := fresh "st" in
      let E := fresh "E" in
      let A := fresh "A" in
      let S := fresh "S" in
      assert (S : succeeds serve m) by succeeds_by H m;
      destruct (custom_call_ok serve m S kw st) as (v & st' & E & A); clear S;
      rewrite (bind_ok _ _ _ _ _ E); clear E; cbv beta
  end.

(** A full session of ecm_custom.py up to the release: when the template can
    be read and the calls return normally, [main] creates the measurement,
    makes the configuration calls of its options, releases it, and goes on
    with the wait. *)
Lemma custom_main_until_release {R} (serve : R -> request -> post_outcome * R)
    (fs : string -> option string) (args : list Custom.arg) (w : world R)
    (path xml : string) :
  let options := Custom.parse_args args in
  Custom.o_send_trigger options = None ->
  Custom.o_get_laserpowers options = false ->
  Custom.o_template options = Some path ->
  fs path = Some xml ->
  (forall m, m <> "Queue.Abort" -> m <> "Queue.Remove" -> succeeds serve m) ->
  exists handle st1,
    Custom.main serve fs args w =
      (let (r, st) :=
         (status <- Custom.wait serve handle (Custom.o_timeout options) ;;
          when_ (negb (eq_str status "COMPLETE"))
            (print_stderr (OutTimedOut status) ;;
             Custom.call serve "Queue.Abort" [("handle", handle)] ;;
             sleep 500) ;;
          Custom.call serve "Queue.Remove" [("handle", handle)] ;;
          ret 0) st1 in
       (r, snd st)) /\
    actions (trace (snd st1)) =
      actions (trace w) ++
      Call "Queue.Add" :: custom_configuration options ++ [Call "Queue.Continue"].
Proof.
  intros options Htrig Hpow Htmpl Hfs H.
  unfold Custom.main. fold options. rewrite Htrig, Hpow, Htmpl.
  unfold Custom.open_read. rewrite Hfs.
  set (st0 := (_, w)).
  assert (A0 : actions (trace (snd st0)) = actions (trace w)) by reflexivity.
  clearbody st0.
  rewrite (bind_ok (ret xml) _ st0 xml st0 eq_refl).
  custom_call H. rename v into handle.
  do 4 custom_optional H.
  cbv iota.
  do 5 custom_optional H.
  match goal with
  | |- context [bind (when_ ?b ?m) ?k ?st] =>
      assert (exists st',
                 when_ b m st = (Return tt, st') /\
                 actions (trace (snd st')) =
                   actions (trace (snd st)) ++
                   (if b then [Call "Measurement.SetMapTriggerMode"] else []))
        as (st10 & E & A10)
  end.
  { destruct (Custom.o_triggers options); cbn [when_].
    - match goal with
      | |- context [ignore (Custom.call ?serve ?m ?kw) ?st] =>
          destruct (custom_call_ok serve m
                      (H m ltac:(discriminate) ltac:(discriminate)) kw st)
            as (v' & st' & E' & A')
      end.
      exists st'. unfold ignore. rewrite (bind_ok _ _ _ _ _ E'). auto.
    - eexists. split; [reflexivity|]. rewrite app_nil_r. reflexivity. }
  rewrite (bind_ok _ _ _ _ _ E); clear E; cbv beta.
  custom_call H.
  exists handle. eexists. split; [reflexivity|].
  unfold custom_configuration. fold options.
  repeat match goal with
         | A : actions (trace (snd _)) = _ |- _ => rewrite A; clear A
         end.
  rewrite <- !app_assoc. reflexivity.
Qed.

(** The same for ecm_run.py, when [--accumulations] is not given. *)
Lemma run_main_until_release {R} (serve : R -> request -> post_outcome * R)
    (fs : string -> option string) (args : list Run.arg) (w : world R)
    (options : Run.options) (path xml : string) :
  Run.parse_args args = Return options ->
  Run.o_accumulations options = None ->
  Run.o_get_laserpowers options = false ->
  Run.o_template options = Some path ->
  fs path = Some xml ->
  (forall m, m <> "Queue.Abort" -> m <> "Queue.Remove" -> succeeds serve m) ->
  exists handle st1,
    Run.main serve fs args w =
      (let (r, st) :=
         (status <- Run.wait serve handle 10000 ;;
          when_ (negb (eq_str status "COMPLETE"))
            (print_stderr (OutTimedOut status) ;;
             Run.call serve "Queue.Abort" [("handle", handle)] ;;
             sleep 500) ;;
          Run.call serve "Queue.Remove" [("handle", handle)] ;;
          ret 0) st1 in
       (r, snd st)) /\
    actions (trace (snd st1)) =
      actions (trace w) ++
      Call "Queue.Add" :: run_configuration options ++ [Call "Queue.Continue"].
Proof.
  intros Hargs Hacc Hpow Htmpl Hfs H.
  unfold Run.main. rewrite Hargs, Hacc, Hpow, Htmpl.
  unfold Run.open_read. rewrite Hfs.
  set (st0 := (_, w)).
  assert (A0 : actions (trace (snd st0)) = actions (trace w)) by reflexivity.
  clearbody st0.
  rewrite (bind_ok (ret xml) _ st0 xml st0 eq_refl).
  run_call H. rename v into handle.
  do 2 run_optional H.
  cbn [if_not_None].
  match goal with
  | |- context [bind (ret tt) ?k ?st] => rewrite (bind_ok (ret tt) k st tt st eq_refl)
  end.
  run_optional H.
  run_call H.
  exists handle. eexists. split; [reflexivity|].
  unfold run_configuration.
  repeat match goal with
         | A : actions (trace (snd _)) = _ |- _ => rewrite A; clear A
         end.
  rewrite <- !app_assoc. reflexivity.
Qed.

(** After a wait that did not end with ["COMPLETE"]: the abort, the grace
    delay of 500 ms, and the removal, when the abort returns normally. *)
Lemma run_abort_then_remove {R} (serve : R -> request -> post_outcome * R)
    handle status st :
  succeeds serve "Queue.Abort" ->
  eq_str status "COMPLETE" = false ->
  actions (trace (snd (snd
    ((when_ (negb (eq_str status "COMPLETE"))
        (print_stderr (OutTimedOut status) ;;
         Run.call serve "Queue.Abort" [("handle", handle)] ;;
         sleep 500) ;;
      Run.call serve "Queue.Remove" [("handle", handle)] ;;
      ret 0) st)))) =
  actions (trace (snd st)) ++ [Call "Queue.Abort"; Pause 500; Call "Queue.Remove"].
Proof.
  intros H Hs. rewrite Hs. cbn [negb when_].
  unfold print_stderr, sleep.
  set (st1 := snd (emit (Stderr (OutTimedOut status)) st)).
  assert (A1 : actions (trace (snd st1)) = actions (trace (snd st))).
  { subst st1. cbn. rewrite actions_app. cbn. apply app_nil_r. }
  destruct (run_call_ok serve "Queue.Abort" H [("handle", handle)] st1)
    as (v & st2 & E2 & A2).
  set (st3 := snd (emit (Sleep 500) st2)).
  assert (A3 : actions (trace (snd st3)) = actions (trace (snd st2)) ++ [Pause 500]).
  { subst st3. cbn. rewrite actions_app. reflexivity. }
  pose proof (run_call_actions serve "Queue.Remove" [("handle", handle)] st3) as A4.
  assert (E : (emit (Stderr (OutTimedOut status)) ;;
               Run.call serve "Queue.Abort" [("handle", handle)] ;;
               emit (Sleep 500)) st = (Return tt, st3)).
  { rewrite (bind_ok (emit (Stderr (OutTimedOut status))) _ st tt st1 eq_refl).
    rewrite (bind_ok _ _ st1 v st2 E2). reflexivity. }
  rewrite (bind_ok _ _ st tt st3 E).
  unfold bind at 1.
  destruct (Run.call serve "Queue.Remove" [("handle", handle)] st3) as [[x|e] st4];
    cbn [snd fst ret] in *; rewrite A4, A3, A2, A1, <- !app_assoc; reflexivity.
Qed.

Lemma custom_abort_then_remove {R} (serve : R -> request -> post_outcome * R)
    handle status st :
  succeeds serve "Queue.Abort" ->
  eq_str status "COMPLETE" = false ->
  actions (trace (snd (snd
    ((when_ (negb (eq_str status "COMPLETE"))
        (print_stderr (OutTimedOut status) ;;
         Custom.call serve "Queue.Abort" [("handle", handle)] ;;
         sleep 500) ;;
      Custom.call serve "Queue.Remove" [("handle", handle)] ;;
      ret 0) st)))) =
  actions (trace (snd st)) ++ [Call "Queue.Abort"; Pause 500; Call "Queue.Remove"].
Proof.
  intros H Hs. rewrite Hs. cbn [negb when_].
  unfold print_stderr, sleep.
  set (st1 := snd (emit (Stderr (OutTimedOut status)) st)).
  assert (A1 : actions (trace (snd st1)) = actions (trace (snd st))).
  { subst st1. cbn. rewrite actions_app. cbn. apply app_nil_r. }
  destruct (custom_call_ok serve "Queue.Abort" H [("handle", handle)] st1)
    as (v & st2 & E2 & A2).
  set (st3 := snd (emit (Sleep 500) st2)).
  assert (A3 : actions (trace (snd st3)) = actions (trace (snd st2)) ++ [Pause 500]).
  { subst st3. cbn. rewrite actions_app. reflexivity. }
  pose proof (custom_call_actions serve "Queue.Remove" [("handle", handle)] st3) as A4.
  assert (E : (emit (Stderr (OutTimedOut status)) ;;
               Custom.call serve "Queue.Abort" [("handle", handle)] ;;
               emit (Sleep 500)) st = (Return tt, st3)).
  { rewrite (bind_ok (emit (Stderr (OutTimedOut status))) _ st tt st1 eq_refl).
    rewrite (bind_ok _ _ st1 v st2 E2). reflexivity. }
  rewrite (bind_ok _ _ st tt st3 E).
  unfold bind at 1.
  destruct (Custom.call serve "Queue.Remove" [("handle", handle)] st3) as [[x|e] st4];
    cbn [snd fst ret] in *; rewrite A4, A3, A2, A1, <- !app_assoc; reflexivity.
Qed.

Lemma always_running_never_complete {R} (serve : R -> request -> post_outcome * R) :
  always_running serve -> never_complete serve.
Proof. intros H r req Hq. rewrite (H r req Hq). reflexivity. Qed.

Lemma count_calls_if_supplied {T} (o : option T) m m' :
  String.eqb m m' = false -> count_calls m (if_supplied o m') = 0%nat.
Proof.
  intros H. destruct o; [|reflexivity].
  unfold count_calls. cbn. rewrite H. reflexivity.
Qed.

Lemma run_configuration_quiet o m :
  m = "Queue.Abort" \/ m = "Queue.Remove" ->
  count_calls m (run_configuration o) = 0%nat.
Proof.
  intros [-> | ->]; unfold run_configuration;
    rewrite !count_calls_app, !count_calls_if_supplied by reflexivity; reflexivity.
Qed.

Lemma custom_configuration_quiet o m :
  m = "Queue.Abort" \/ m = "Queue.Remove" ->
  count_calls m (custom_configuration o) = 0%nat.
Proof.
  intros [-> | ->]; unfold custom_configuration;
    rewrite !count_calls_app, !count_calls_if_supplied by reflexivity;
    destruct (Custom.o_triggers o); reflexivity.
Qed.

Lemma count_calls_polls m n :
  m = "Queue.Abort" \/ m = "Queue.Remove" ->
  count_calls m (concat (repeat poll n)) = 0%nat.
Proof.
  intros Hm. induction n as [|n IH]; [reflexivity|].
  cbn [repeat concat]. rewrite count_calls_app, IH.
  destruct Hm as [-> | ->]; reflexivity.
Qed.

Lemma run_wait_times_out {R} (serve : R -> request -> post_outcome * R)
    handle timeout st :
  never_complete serve ->
  exists status st',
    Run.wait serve handle timeout st = (Return status, st') /\
    eq_str status "COMPLETE" = false /\
    actions (trace (snd st')) =
      actions (trace (snd st)) ++
      concat (repeat poll (Z.to_nat ((timeout + 249) / 250))).
Proof.
  intros H. unfold Run.wait.
  apply (run_wait_loop_times_out serve handle H _ timeout (PStr "") st eq_refl eq_refl).
Qed.

Lemma custom_wait_times_out {R} (serve : R -> request -> post_outcome * R)
    handle timeout st :
  never_complete serve ->
  exists status st',
    Custom.wait serve handle timeout st = (Return status, st') /\
    eq_str status "COMPLETE" = false /\
    actions (trace (snd st')) =
      actions (trace (snd st)) ++
      Pause 250 :: concat (repeat poll (Z.to_nat ((timeout + 249) / 250))).
Proof.
  intros H. rewrite custom_wait_unfold.
  destruct (custom_wait_loop_times_out serve handle H _ timeout (PStr "")
              (fst st, {| remote := remote (snd st);
                          trace := trace (snd st) ++ [Sleep 250] |})
              eq_refl eq_refl) as (s & st' & E & Hs & A).
  exists s, st'. repeat split; try assumption.
  rewrite A. cbn [snd trace]. rewrite actions_app, <- app_assoc. reflexivity.
Qed.

Lemma snd_main_result {C R} (p : result Z * state C R) :
  snd (let (r, st) := p in (r, snd st)) = snd (snd p).
Proof. destruct p. reflexivity. Qed.

(** The claim C4 as it is stated fails when the abort itself fails: the
    status is always ["RUNNING"], the budget of 250 runs out, [Queue.Abort]
    is answered with an error, and no [Queue.Remove] is issued. *)
Lemma failed_abort_skips_remove :
  let acts :=
    actions (trace (snd
      (Custom.main (busy_instrument (reply_error (-32000) "cannot abort"))
         one_template [Custom.Template "t.wxm"; Custom.TimeoutMs 250] (fresh tt)))) in
  ~ (count_calls "Queue.Abort" acts = 1%nat /\
     count_calls "Queue.Remove" acts = 1%nat).
Proof.
  vm_compute. intros [_ H]. discriminate H.
Qed.

Lemma main_result {C R} (p : result Z * state C R) :
  fst (let (r, st) := p in (r, snd st)) = fst p.
Proof. destruct p. reflexivity. Qed.

Lemma run_call_fails {R} (serve : R -> request -> post_outcome * R) m e :
  fails serve m e ->
  forall kw st, exists st',
    Run.call serve m kw st = (Raise e, st') /\
    actions (trace (snd st')) = actions (trace (snd st)) ++ [Call m].
Proof.
  intros H kw st.
  pose proof (run_call_actions serve m kw st) as A.
  destruct st as [self w]. rewrite run_call_spec in *.
  rewrite (H (remote w) (run_request self m kw) eq_refl) in *. eauto.
Qed.

Lemma custom_call_fails {R} (serve : R -> request -> post_outcome * R) m e :
  fails serve m e ->
  forall kw st, exists st',
    Custom.call serve m kw st = (Raise e, st') /\
    actions (trace (snd st')) = actions (trace (snd st)) ++ [Call m].
Proof.
  intros H kw st.
  pose proof (custom_call_actions serve m kw st) as A.
  destruct st as [self w]. rewrite custom_call_spec in *.
  rewrite (H (remote w) (custom_request self m kw) eq_refl) in *. eauto.
Qed.

(** After a wait that did not end with ["COMPLETE"], when the abort raises:
    the exception leaves the rest of [main], which neither sleeps nor
    removes the measurement. *)
Lemma run_abort_fails {R} (serve : R -> request -> post_outcome * R)
    handle status st e :
  fails serve "Queue.Abort" e ->
  eq_str status "COMPLETE" = false ->
  let out :=
    (when_ (negb (eq_str status "COMPLETE"))
       (print_stderr (OutTimedOut status) ;;
        Run.call serve "Queue.Abort" [("handle", handle)] ;;
        sleep 500) ;;
     Run.call serve "Queue.Remove" [("handle", handle)] ;;
     ret 0) st in
  fst out = Raise e /\
  actions (trace (snd (snd out))) = actions (trace (snd st)) ++ [Call "Queue.Abort"].
Proof.
  intros H Hs. rewrite Hs. cbn [negb when_].
  unfold print_stderr, sleep.
  set (st1 := snd (emit (Stderr (OutTimedOut status)) st)).
  assert (A1 : actions (trace (snd st1)) = actions (trace (snd st))).
  { subst st1. cbn. rewrite actions_app. cbn. apply app_nil_r. }
  destruct (run_call_fails serve "Queue.Abort" e H [("handle", handle)] st1)
    as (st2 & E2 & A2).
  assert (E : (emit (Stderr (OutTimedOut status)) ;;
               Run.call serve "Queue.Abort" [("handle", handle)] ;;
               emit (Sleep 500)) st = (Raise e, st2)).
  { rewrite (bind_ok (emit (Stderr (OutTimedOut status))) _ st tt st1 eq_refl).
    apply bind_raise. exact E2. }
  rewrite (bind_raise _ _ st e st2 E). cbn [fst snd].
  split; [reflexivity|]. rewrite A2, A1. reflexivity.
Qed.

Lemma custom_abort_fails {R} (serve : R -> request -> post_outcome * R)
    handle status st e :
  fails serve "Queue.Abort" e ->
  eq_str status "COMPLETE" = false ->
  let out :=
    (when_ (negb (eq_str status "COMPLETE"))
       (print_stderr (OutTimedOut status) ;;
        Custom.call serve "Queue.Abort" [("handle", handle)] ;;
        sleep 500) ;;
     Custom.call serve "Queue.Remove" [("handle", handle)] ;;
     ret 0) st in
  fst out = Raise e /\
  actions (trace (snd (snd out))) = actions (trace (snd st)) ++ [Call "Queue.Abort"].
Proof.
  intros H Hs. rewrite Hs. cbn [negb when_].
  unfold print_stderr, sleep.
  set (st1 := snd (emit (Stderr (OutTimedOut status)) st)).
  assert (A1 : actions (trace (snd st1)) = actions (trace (snd st))).
  { subst st1. cbn. rewrite actions_app. cbn. apply app_nil_r. }
  destruct (custom_call_fails serve "Queue.Abort" e H [("handle", handle)] st1)
    as (st2 & E2 & A2).
  assert (E : (emit (Stderr (OutTimedOut status)) ;;
               Custom.call serve "Queue.Abort" [("handle", handle)] ;;
               emit (Sleep 500)) st = (Raise e, st2)).
  { rewrite (bind_ok (emit (Stderr (OutTimedOut status))) _ st tt st1 eq_refl).
    apply bind_raise. exact E2. }
  rewrite (bind_raise _ _ st e st2 E). cbn [fst snd].
  split; [reflexivity|]. rewrite A2, A1. reflexivity.
Qed.

(** The timeout path up to the abort: the wait has used its budget up and
    [main] goes on with the abort. *)
Lemma custom_timeout_until_abort {R}
    (serve : R -> request -> post_outcome * R) (fs : string -> option string)
    (r0 : R) (args : list Custom.arg) (path xml : string) :
  always_running serve ->
  (forall m, m <> "Queue.Abort" -> m <> "Queue.Remove" -> succeeds serve m) ->
  Custom.o_send_trigger (Custom.parse_args args) = None ->
  Custom.o_get_laserpowers (Custom.parse_args args) = false ->
  Custom.o_template (Custom.parse_args args) = Some path ->
  fs path = Some xml ->
  Custom.o_timeout (Custom.parse_args args) = 250 ->
  exists handle status st2,
    Custom.main serve fs args (fresh r0) =
      (let (r, st) :=
         (when_ (negb (eq_str status "COMPLETE"))
            (print_stderr (OutTimedOut status) ;;
             Custom.call serve "Queue.Abort" [("handle", handle)] ;;
             sleep 500) ;;
          Custom.call serve "Queue.Remove" [("handle", handle)] ;;
          ret 0) st2 in
       (r, snd st)) /\
    eq_str status "COMPLETE" = false /\
    actions (trace (snd st2)) =
      Call "Queue.Add" :: custom_configuration (Custom.parse_args args) ++
      [Call "Queue.Continue"; Pause 250; Call "Queue.GetMeasurementState"; Pause 250].
Proof.
  intros Hrun H Htrig Hpow Htmpl Hfs Hto.
  assert (Hnc := always_running_never_complete serve Hrun).
  destruct (custom_main_until_release serve fs args (fresh r0) path xml
              Htrig Hpow Htmpl Hfs H) as (handle & st1 & E & A1).
  rewrite Hto in E.
  destruct (custom_wait_times_out serve handle 250 st1 Hnc)
    as (status & st2 & Ew & Hs & A2).
  rewrite (bind_ok _ _ _ _ _ Ew) in E.
  exists handle, status, st2. split; [exact E|]. split; [exact Hs|].
  rewrite A2, A1. cbn [fresh trace actions flat_map app repeat concat poll].
  rewrite <- !app_assoc. reflexivity.
Qed.

Lemma run_timeout_until_abort {R}
    (serve : R -> request -> post_outcome * R) (fs : string -> option string)
    (r0 : R) (args : list Run.arg) (options : Run.options) (path xml : string) :
  always_running serve ->
  (forall m, m <> "Queue.Abort" -> m <> "Queue.Remove" -> succeeds serve m) ->
  Run.parse_args args = Return options ->
  Run.o_accumulations options = None ->
  Run.o_get_laserpowers options = false ->
  Run.o_template options = Some path ->
  fs path = Some xml ->
  exists handle status st2,
    Run.main serve fs args (fresh r0) =
      (let (r, st) :=
         (when_ (negb (eq_str status "COMPLETE"))
            (print_stderr (OutTimedOut status) ;;
             Run.call serve "Queue.Abort" [("handle", handle)] ;;
             sleep 500) ;;
          Run.call serve "Queue.Remove" [("handle", handle)] ;;
          ret 0) st2 in
       (r, snd st)) /\
    eq_str status "COMPLETE" = false /\
    actions (trace (snd st2)) =
      Call "Queue.Add" :: run_configuration options ++
      Call "Queue.Continue" :: concat (repeat poll 40).
Proof.
  intros Hrun H Hargs Hacc Hpow Htmpl Hfs.
  assert (Hnc := always_running_never_complete serve Hrun).
  destruct (run_main_until_release serve fs args (fresh r0) options path xml
              Hargs Hacc Hpow Htmpl Hfs H) as (handle & st1 & E & A1).
  destruct (run_wait_times_out serve handle 10000 st1 Hnc)
    as (status & st2 & Ew & Hs & A2).
  rewrite (bind_ok _ _ _ _ _ Ew) in E.
  exists handle, status, st2. split; [exact E|]. split; [exact Hs|].
  rewrite A2, A1. cbn [fresh trace actions flat_map app].
  change (Z.to_nat ((10000 + 249) / 250)) with 40%nat.
  rewrite <- !app_assoc. reflexivity.
Qed.

(** C4, amended. On the timeout path (every status query returns
    ["RUNNING"] and the budget runs out: the configured 250 in
    ecm_custom.py, the fixed 10000 in ecm_run.py), the calls before the
    abort returning normally: when [Queue.Abort] returns normally, the
    session issues exactly one [Queue.Abort], then sleeps the grace delay of
    500, then issues exactly one [Queue.Remove], and nothing else follows
    the abort, so no status query does; when [Queue.Abort] raises, the
    exception leaves [main] right after that one call, and no
    [Queue.Remove] is issued. *)
Theorem timeout_path_aborts_then_removes {R}
    (serve : R -> request -> post_outcome * R) (fs : string -> option string)
    (r0 : R) (args : list Custom.arg) (path xml : string)
    (args' : list Run.arg) (options' : Run.options) (path' xml' : string) :
  always_running serve ->
  (forall m, m <> "Queue.Abort" -> m <> "Queue.Remove" -> succeeds serve m) ->
  let custom_out := Custom.main serve fs args (fresh r0) in
  let run_out := Run.main serve fs args' (fresh r0) in
  let custom := actions (trace (snd custom_out)) in
  let run := actions (trace (snd run_out)) in
  (Custom.o_send_trigger (Custom.parse_args args) = None ->
   Custom.o_get_laserpowers (Custom.parse_args args) = false ->
   Custom.o_template (Custom.parse_args args) = Some path ->
   fs path = Some xml ->
   Custom.o_timeout (Custom.parse_args args) = 250 ->
   (succeeds serve "Queue.Abort" ->
    custom =
      Call "Queue.Add" :: custom_configuration (Custom.parse_args args) ++
      [Call "Queue.Continue"; Pause 250;
       Call "Queue.GetMeasurementState"; Pause 250;
       Call "Queue.Abort"; Pause 500; Call "Queue.Remove"] /\
    count_calls "Queue.Abort" custom = 1%nat /\
    count_calls "Queue.Remove" custom = 1%nat) /\
   (forall e, fails serve "Queue.Abort" e ->
    fst custom_out = Raise e /\
    custom =
      Call "Queue.Add" :: custom_configuration (Custom.parse_args args) ++
      [Call "Queue.Continue"; Pause 250;
       Call "Queue.GetMeasurementState"; Pause 250;
       Call "Queue.Abort"] /\
    count_calls "Queue.Abort" custom = 1%nat /\
    count_calls "Queue.Remove" custom = 0%nat)) /\
  (Run.parse_args args' = Return options' ->
   Run.o_accumulations options' = None ->
   Run.o_get_laserpowers options' = false ->
   Run.o_template options' = Some path' ->
   fs path' = Some xml' ->
   (succeeds serve "Queue.Abort" ->
    run =
      Call "Queue.Add" :: run_configuration options' ++
      Call "Queue.Continue" :: concat (repeat poll 40) ++
      [Call "Queue.Abort"; Pause 500; Call "Queue.Remove"] /\
    count_calls "Queue.Abort" run = 1%nat /\
    count_calls "Queue.Remove" run = 1%nat) /\
   (forall e, fails serve "Queue.Abort" e ->
    fst run_out = Raise e /\
    run =
      Call "Queue.Add" :: run_configuration options' ++
      Call "Queue.Continue" :: concat (repeat poll 40) ++
      [Call "Queue.Abort"] /\
    count_calls "Queue.Abort" run = 1%nat /\
    count_calls "Queue.Remove" run = 0%nat)).
Proof.
  intros Hrun H custom_out run_out custom run. split.
  - intros Htrig Hpow Htmpl Hfs Hto.
    destruct (custom_timeout_until_abort serve fs r0 args path xml
                Hrun H Htrig Hpow Htmpl Hfs Hto) as (handle & status & st2 & E & Hs & A).
    split.
    + intros Hab.
      assert (Ec : custom =
                   Call "Queue.Add" :: custom_configuration (Custom.parse_args args) ++
                   [Call "Queue.Continue"; Pause 250;
                    Call "Queue.GetMeasurementState"; Pause 250;
                    Call "Queue.Abort"; Pause 500; Call "Queue.Remove"]).
      { subst custom custom_out. rewrite E, snd_main_result.
        rewrite (custom_abort_then_remove serve handle status st2 Hab Hs), A.
        cbn [app]. rewrite <- app_assoc. reflexivity. }
      split; [exact Ec|]. rewrite Ec.
      change (Call "Queue.Add" :: ?l) with ([Call "Queue.Add"] ++ l).
      rewrite !count_calls_app, !custom_configuration_quiet by auto.
      split; reflexivity.
    + intros e He.
      destruct (custom_abort_fails serve handle status st2 e He Hs) as [Er Ea].
      assert (Ec : custom =
                   Call "Queue.Add" :: custom_configuration (Custom.parse_args args) ++
                   [Call "Queue.Continue"; Pause 250;
                    Call "Queue.GetMeasurementState"; Pause 250;
                    Call "Queue.Abort"]).
      { subst custom custom_out. rewrite E, snd_main_result, Ea, A.
        cbn [app]. rewrite <- app_assoc. reflexivity. }
      split; [subst custom_out; rewrite E, main_result; exact Er|].
      split; [exact Ec|]. rewrite Ec.
      change (Call "Queue.Add" :: ?l) with ([Call "Queue.Add"] ++ l).
      rewrite !count_calls_app, !custom_configuration_quiet by auto.
      split; reflexivity.
  - intros Hargs Hacc Hpow Htmpl Hfs.
    destruct (run_timeout_until_abort serve fs r0 args' options' path' xml'
                Hrun H Hargs Hacc Hpow Htmpl Hfs) as (handle & status & st2 & E & Hs & A).
    split.
    + intros Hab.
      assert (Ec : run =
                   Call "Queue.Add" :: run_configuration options' ++
                   Call "Queue.Continue" :: concat (repeat poll 40) ++
                   [Call "Queue.Abort"; Pause 500; Call "Queue.Remove"]).
      { subst run run_out. rewrite E, snd_main_result.
        rewrite (run_abort_then_remove serve handle status st2 Hab Hs), A.
        cbn [app]. rewrite <- !app_assoc. cbn [app]. reflexivity. }
      split; [exact Ec|]. rewrite Ec.
      change (Call "Queue.Add" :: ?l) with ([Call "Queue.Add"] ++ l).
      change (Call "Queue.Continue" :: ?l) with ([Call "Queue.Continue"] ++ l).
      rewrite !count_calls_app, !run_configuration_quiet, !count_calls_polls by auto.
      split; reflexivity.
    + intros e He.
      destruct (run_abort_fails serve handle status st2 e He Hs) as [Er Ea].
      assert (Ec : run =
                   Call "Queue.Add" :: run_configuration options' ++
                   Call "Queue.Continue" :: concat (repeat poll 40) ++
                   [Call "Queue.Abort"]).
      { subst run run_out. rewrite E, snd_main_result, Ea, A.
        cbn [app]. rewrite <- !app_assoc. cbn [app]. reflexivity. }
      split; [subst run_out; rewrite E, main_result; exact Er|].
      split; [exact Ec|]. rewrite Ec.
      change (Call "Queue.Add" :: ?l) with ([Call "Queue.Add"] ++ l).
      change (Call "Queue.Continue" :: ?l) with ([Call "Queue.Continue"] ++ l).
      rewrite !count_calls_app, !run_configuration_quiet, !count_calls_polls by auto.
      split; reflexivity.
Qed.

Lemma timeout_path_aborts_then_removes_witness :
  (actions (trace (snd
     (Custom.main (busy_instrument (reply_result PNone)) one_template
        [Custom.Template "t.wxm"; Custom.TimeoutMs 250] (fresh tt)))) =
     [Call "Queue.Add"; Call "Measurement.SetMapUseStage";
      Call "Queue.Continue"; Pause 250;
      Call "Queue.GetMeasurementState"; Pause 250;
      Call "Queue.Abort"; Pause 500; Call "Queue.Remove"] /\
   count_calls "Queue.Abort"
     (actions (trace (snd
        (Run.main (busy_instrument (reply_result PNone)) one_template
           [Run.Template "t.wxm"] (fresh tt))))) = 1%nat) /\
  (fst (Custom.main (busy_instrument (reply_error (-32000) "cannot abort"))
          one_template [Custom.Template "t.wxm"; Custom.TimeoutMs 250] (fresh tt)) =
     Raise (ECMException (PStr "cannot abort")) /\
   count_calls "Queue.Remove"
     (actions (trace (snd
        (Run.main (busy_instrument (reply_error (-32000) "cannot abort"))
           one_template [Run.Template "t.wxm"] (fresh tt))))) = 0%nat).
Proof.
  assert (Hrun : forall abort_reply, always_running (busy_instrument abort_reply)).
  { intros abort_reply r req Hq. unfold busy_instrument.
    unfold is_status_query in Hq. rewrite Hq. reflexivity. }
  assert (H : forall abort_reply m, m <> "Queue.Abort" -> m <> "Queue.Remove" ->
                succeeds (busy_instrument abort_reply) m).
  { intros abort_reply m Ha _ r req Hm. unfold busy_instrument.
    destruct (String.eqb (method_of req) "Queue.GetMeasurementState");
      [eexists; reflexivity|].
    destruct (String.eqb (method_of req) "Queue.Abort") eqn:Hq;
      [|eexists; reflexivity].
    apply String.eqb_eq in Hq. congruence. }
  assert (Hok : succeeds (busy_instrument (reply_result PNone)) "Queue.Abort").
  { intros r req Hm. unfold busy_instrument. rewrite Hm. eexists. reflexivity. }
  assert (Hno : fails (busy_instrument (reply_error (-32000) "cannot abort"))
                  "Queue.Abort" (ECMException (PStr "cannot abort"))).
  { intros r req Hm. unfold busy_instrument. rewrite Hm. reflexivity. }
  set (o := {| Run.o_url := "http://localhost:9880/api";
               Run.o_template := Some "t.wxm";
               Run.o_filename := None;
               Run.o_exposure := None;
               Run.o_accumulations := None;
               Run.o_get_laserpowers := false;
               Run.o_power := None |}).
  split.
  - destruct (timeout_path_aborts_then_removes
                (busy_instrument (reply_result PNone)) one_template tt
                [Custom.Template "t.wxm"; Custom.TimeoutMs 250] "t.wxm" "<template/>"
                [Run.Template "t.wxm"] o "t.wxm" "<template/>" (Hrun _) (H _))
      as [Hc Hr].
    destruct (Hc eq_refl eq_refl eq_refl eq_refl eq_refl) as [Hc1 _].
    destruct (Hr eq_refl eq_refl eq_refl eq_refl eq_refl) as [Hr1 _].
    split; [exact (proj1 (Hc1 Hok)) | exact (proj1 (proj2 (Hr1 Hok)))].
  - destruct (timeout_path_aborts_then_removes
                (busy_instrument (reply_error (-32000) "cannot abort")) one_template tt
                [Custom.Template "t.wxm"; Custom.TimeoutMs 250] "t.wxm" "<template/>"
                [Run.Template "t.wxm"] o "t.wxm" "<template/>" (Hrun _) (H _))
      as [Hc Hr].
    destruct (Hc eq_refl eq_refl eq_refl eq_refl eq_refl) as [_ Hc2].
    destruct (Hr eq_refl eq_refl eq_refl eq_refl eq_refl) as [_ Hr2].
    split; [exact (proj1 (Hc2 _ Hno)) | exact (proj2 (proj2 (proj2 (Hr2 _ Hno))))].
Defined.

(** C10. With a budget that is not positive, [wait] makes no status query
    and returns the empty string, which is not ["COMPLETE"]: ecm_run.py
    leaves the state as it is, ecm_custom.py only sleeps its first 250 ms.
    The caller that passes its own budget, [main] of ecm_custom.py with
    [--timeout], then goes from the release straight to the abort and the
    removal. *)
Theorem wait_without_budget {R}
    (serve : R -> request -> post_outcome * R) (fs : string -> option string)
    (handle : pyval) (timeout : Z)
    (st : state Run.ECMConnection_ R) (st2 : state Custom.ECMConnection_ R)
    (r0 : R) (args : list Custom.arg) (path xml : string) :
  timeout <= 0 ->
  Run.wait serve handle timeout st = (Return (PStr ""), st) /\
  Custom.wait serve handle timeout st2 =
    (Return (PStr ""),
     (fst st2, {| remote := remote (snd st2);
                  trace := trace (snd st2) ++ [Sleep 250] |})) /\
  eq_str (PStr "") "COMPLETE" = false /\
  (Custom.o_timeout (Custom.parse_args args) = timeout ->
   Custom.o_send_trigger (Custom.parse_args args) = None ->
   Custom.o_get_laserpowers (Custom.parse_args args) = false ->
   Custom.o_template (Custom.parse_args args) = Some path ->
   fs path = Some xml ->
   (forall m, m <> "Queue.Remove" -> succeeds serve m) ->
   actions (trace (snd (Custom.main serve fs args (fresh r0)))) =
     Call "Queue.Add" :: custom_configuration (Custom.parse_args args) ++
     [Call "Queue.Continue"; Pause 250;
      Call "Queue.Abort"; Pause 500; Call "Queue.Remove"]).
Proof.
  intros Ht.
  assert (Hw : Custom.wait serve handle timeout st2 =
                 (Return (PStr ""),
                  (fst st2, {| remote := remote (snd st2);
                               trace := trace (snd st2) ++ [Sleep 250] |}))).
  { rewrite custom_wait_unfold. apply custom_wait_loop_done. right. exact Ht. }
  repeat split.
  - unfold Run.wait. apply run_wait_loop_done. right. exact Ht.
  - exact Hw.
  - intros Hto Htrig Hpow Htmpl Hfs H.
    destruct (custom_main_until_release serve fs args (fresh r0) path xml
                Htrig Hpow Htmpl Hfs (fun m _ Hr => H m Hr)) as (h & st1 & E & A1).
    rewrite E, snd_main_result, Hto.
    rewrite (bind_ok (Custom.wait serve h timeout) _ st1 (PStr "")
               (fst st1, {| remote := remote (snd st1);
                            trace := trace (snd st1) ++ [Sleep 250] |})).
    + rewrite (custom_abort_then_remove serve h (PStr "") _
                 (H "Queue.Abort" ltac:(discriminate)) eq_refl).
      cbn [snd trace]. rewrite actions_app, A1.
      cbn [fresh trace actions flat_map app]. rewrite <- !app_assoc. reflexivity.
    + rewrite custom_wait_unfold. apply custom_wait_loop_done. right. exact Ht.
Qed.

Lemma wait_without_budget_witness :
  Run.wait (busy_instrument (reply_result PNone)) (PInt 7) 0
    (Run.ECMConnection "http://localhost:9880/api", fresh tt) =
    (Return (PStr ""), (Run.ECMConnection "http://localhost:9880/api", fresh tt)) /\
  actions (trace (snd
    (Custom.main (busy_instrument (reply_result PNone)) one_template
       [Custom.Template "t.wxm"; Custom.TimeoutMs 0] (fresh tt)))) =
    [Call "Queue.Add"; Call "Measurement.SetMapUseStage";
     Call "Queue.Continue"; Pause 250;
     Call "Queue.Abort"; Pause 500; Call "Queue.Remove"].
Proof.
  assert (Ht : 0 <= 0) by lia.
  assert (H : forall m, m <> "Queue.Remove" ->
                        succeeds (busy_instrument (reply_result PNone)) m).
  { intros m _ r req _. unfold busy_instrument.
    destruct (String.eqb (method_of req) "Queue.GetMeasurementState");
      [|destruct (String.eqb (method_of req) "Queue.Abort")];
      eexists; reflexivity. }
  destruct (wait_without_budget (busy_instrument (reply_result PNone)) one_template
              (PInt 7) 0
              (Run.ECMConnection "http://localhost:9880/api", fresh tt)
              (Custom.ECMConnection "http://localhost:9880/api/", fresh tt)
              tt [Custom.Template "t.wxm"; Custom.TimeoutMs 0] "t.wxm" "<template/>" Ht)
    as (Hrun & _ & _ & Hmain).
  split; [exact Hrun|].
  exact (Hmain eq_refl eq_refl eq_refl eq_refl eq_refl H).
Defined.

(** *** Options that are not supplied *)

Lemma last_value_inv {A B} (P : B -> Prop) (pick : A -> option B) args default :
  P default ->
  (forall a b, In a args -> pick a = Some b -> P b) ->
  P (last_value pick args default).
Proof.
  unfold last_value. revert default.
  induction args as [|a args IH]; intros default Hd Hp; cbn [fold_left].
  - exact Hd.
  - apply IH.
    + destruct (pick a) as [b|] eqn:E; [|exact Hd].
      apply (Hp a b); [left; reflexivity | exact E].
    + intros a' b Hin. apply Hp. right. exact Hin.
Qed.

(** C8 fails for the stage selection of ecm_custom.py. [options.stage] is
    never [None]: without a stage flag on the command line it is [True], the
    default of [store_false], so the guard [if not options.stage is None] is
    always passed.  A session started with the template alone calls
    [Measurement.SetMapUseStage] with [use_stage=True]. *)
Theorem stage_call_is_not_optional :
  (forall args, Custom.o_stage (Custom.parse_args args) <> None) /\
  (forall args,
      Custom.o_stage
        (Custom.parse_args (filter (fun a => negb (is_stage_flag a)) args)) =
      Some true) /\
  map (fun req => (method_of req, rpc_params (req_json req)))
    (posts (trace (snd
       (Custom.main playback one_template [Custom.Template "t.wxm"]
          (fresh [reply_result (PInt 7); reply_result (PBool true);
                  reply_result (PBool true); reply_result (PStr "COMPLETE");
                  reply_result (PBool true)]))))) =
    [("Queue.Add", [("paused", PBool true); ("monitor", PBool false);
                    ("wxmString", PStr "<template/>")]);
     ("Measurement.SetMapUseStage", [("handle", PInt 7); ("use_stage", PBool true)]);
     ("Queue.Continue", [("handle", PInt 7)]);
     ("Queue.GetMeasurementState", [("handle", PInt 7)]);
     ("Queue.Remove", [("handle", PInt 7)])].
Proof.
  repeat split.
  - intros args. unfold Custom.parse_args. cbn [Custom.o_stage].
    apply last_value_inv; [discriminate|].
    intros a b _ E. destruct a; inversion E; discriminate.
  - intros args. unfold Custom.parse_args. cbn [Custom.o_stage].
    apply last_value_inv; [reflexivity|].
    intros a b Hin E. apply filter_In in Hin. destruct Hin as [_ Hf].
    destruct a; try discriminate E; discriminate Hf.
Qed.

(** C9 fails for ecm_run.py. With [--accumulations], once the calls up to
    [Measurement.SetAccumulations] have returned normally, [main] raises
    [AttributeError] on the next line ([ecm.Measurement]): the session is
    left there, with the measurement neither released nor removed. *)
Theorem accumulations_stop_the_session {R}
    (serve : R -> request -> post_outcome * R) (fs : string -> option string)
    (r0 : R) (args : list Run.arg) (options : Run.options)
    (path xml : string) (n : Z) :
  Run.parse_args args = Return options ->
  Run.o_accumulations options = Some n ->
  Run.o_template options = Some path ->
  fs path = Some xml ->
  (forall m, m <> "Queue.Remove" -> succeeds serve m) ->
  let out := Run.main serve fs args (fresh r0) in
  fst out = Raise (AttributeError "Measurement") /\
  actions (trace (snd out)) =
    Call "Queue.Add" ::
    if_supplied (Run.o_exposure options) "Measurement.SetExposure" ++
    if_supplied (Run.o_filename options) "Measurement.SetFilename" ++
    [Call "Measurement.SetAccumulations"].
Proof.
  intros Hargs Hacc Htmpl Hfs H.
  unfold Run.main. rewrite Hargs, Hacc, Htmpl.
  unfold Run.open_read. rewrite Hfs.
  set (st0 := (_, fresh r0)).
  assert (A0 : actions (trace (snd st0)) = []) by reflexivity.
  clearbody st0.
  rewrite (bind_ok (ret xml) _ st0 xml st0 eq_refl).
  run_call H. rename v into handle.
  do 2 run_optional H.
  cbn [if_not_None].
  match goal with
  | |- context [bind (bind (Run.call ?serve ?m ?kw) ?k1) ?k2 ?st] =>
      destruct (run_call_ok serve m (H m ltac:(discriminate)) kw st)
        as (v & st' & E & A');
      rewrite (bind_raise (bind (Run.call serve m kw) k1) k2 st
                 (AttributeError "Measurement") st')
  end.
  - cbv zeta. cbn [fst snd]. split; [reflexivity|].
    repeat match goal with
           | A : actions (trace (snd _)) = _ |- _ => rewrite A; clear A
           end.
    rewrite <- !app_assoc. reflexivity.
  - rewrite (bind_ok _ _ _ _ _ E). reflexivity.
Qed.

Lemma accumulations_stop_the_session_witness :
  let out := Run.main (busy_instrument (reply_result PNone)) one_template
               [Run.Template "t.wxm"; Run.Accumulations 5] (fresh tt) in
  fst out = Raise (AttributeError "Measurement") /\
  actions (trace (snd out)) =
    [Call "Queue.Add"; Call "Measurement.SetAccumulations"].
Proof.
  assert (H : forall m, m <> "Queue.Remove" ->
                        succeeds (busy_instrument (reply_result PNone)) m).
  { intros m _ r req _. unfold busy_instrument.
    destruct (String.eqb (method_of req) "Queue.GetMeasurementState");
      [|destruct (String.eqb (method_of req) "Queue.Abort")];
      eexists; reflexivity. }
  exact (accumulations_stop_the_session
           (busy_instrument (reply_result PNone)) one_template tt
           [Run.Template "t.wxm"; Run.Accumulations 5]
           {| Run.o_url := "http://localhost:9880/api";
              Run.o_template := Some "t.wxm";
              Run.o_filename := None;
              Run.o_exposure := None;
              Run.o_accumulations := Some 5;
              Run.o_get_laserpowers := false;
              Run.o_power := None |}
           "t.wxm" "<template/>" 5 eq_refl eq_refl eq_refl eq_refl H).
Defined.

(** ** More on the transport *)

Lemma both_calls_give_intro {R} (serve : R -> request -> post_outcome * R)
    methodName kwargs self self' w res x :
  rpc_result (Responded res) = x ->
  both_calls_give serve methodName kwargs self self' w res x.
Proof.
  intros H. split; intros Hres.
  - rewrite run_call_spec. cbn [fst]. rewrite Hres. exact H.
  - rewrite custom_call_spec. cbn [fst]. rewrite Hres. exact H.
Qed.

(** X1. When the response has status 200 and its body is an object without
    an [error] member, [call] returns the value of its [result] member as it
    is, whatever JSON value that is; in both files. *)
Theorem call_returns_the_result {R} (serve : R -> request -> post_outcome * R)
    (methodName : string) (kwargs : list (string * pyval))
    (self : Run.ECMConnection_) (self' : Custom.ECMConnection_) (w : world R)
    (res : response) (kv : list (string * pyval)) (v : pyval) :
  status_code res = 200 ->
  loads res = Some (PDict kv) ->
  dict_get "error" kv = None ->
  dict_get "result" kv = Some v ->
  both_calls_give serve methodName kwargs self self' w res (Return v).
Proof.
  intros Hs Hl He Hr. apply both_calls_give_intro.
  unfold rpc_result, json_loads. rewrite Hs, Hl. cbn [Z.eqb Pos.eqb py_in getitem].
  rewrite He, Hr. reflexivity.
Qed.

Lemma call_returns_the_result_witness :
  fst (Run.call playback "Measurement.GetLaserPowers" [("handle", PInt 7)]
         (Run.ECMConnection "http://localhost:9880/api",
          fresh [reply_result (PList [PFloat 10.5; PFloat 25; PFloat 50])])) =
    Return (PList [PFloat 10.5; PFloat 25; PFloat 50]) /\
  fst (Custom.call playback "Measurement.GetLaserPowers" [("handle", PInt 7)]
         (Custom.ECMConnection "http://localhost:9880/api/",
          fresh [reply_result (PList [PFloat 10.5; PFloat 25; PFloat 50])])) =
    Return (PList [PFloat 10.5; PFloat 25; PFloat 50]).
Proof.
  destruct (call_returns_the_result playback
              "Measurement.GetLaserPowers" [("handle", PInt 7)]
              (Run.ECMConnection "http://localhost:9880/api")
              (Custom.ECMConnection "http://localhost:9880/api/")
              (fresh [reply_result (PList [PFloat 10.5; PFloat 25; PFloat 50])])
              (reply_result (PList [PFloat 10.5; PFloat 25; PFloat 50]))
              [("jsonrpc", PStr "2.0"); ("id", PInt 0);
               ("result", PList [PFloat 10.5; PFloat 25; PFloat 50])]
              (PList [PFloat 10.5; PFloat 25; PFloat 50])
              eq_refl eq_refl eq_refl eq_refl) as [H1 H2].
  split; [exact (H1 eq_refl) | exact (H2 eq_refl)].
Defined.

(** X2. A response whose status is not 200 makes [call] raise
    [ECMException] with the text of the response, whatever the body holds;
    ecm_run.py prints the response first, ecm_custom.py prints nothing
    more. *)
Theorem call_raises_on_bad_status {R} (serve : R -> request -> post_outcome * R)
    (methodName : string) (kwargs : list (string * pyval))
    (self : Run.ECMConnection_) (self' : Custom.ECMConnection_) (w : world R)
    (res : response) :
  status_code res <> 200 ->
  (fst (serve (remote w) (run_request self methodName kwargs)) = Responded res ->
   fst (Run.call serve methodName kwargs (self, w)) =
     Raise (ECMException (PStr (text res))) /\
   trace (snd (snd (Run.call serve methodName kwargs (self, w)))) =
     trace w ++ [Post (run_request self methodName kwargs);
                 Stdout (OutResponse res)]) /\
  (fst (serve (remote w) (custom_request self' methodName kwargs)) = Responded res ->
   fst (Custom.call serve methodName kwargs (self', w)) =
     Raise (ECMException (PStr (text res))) /\
   trace (snd (snd (Custom.call serve methodName kwargs (self', w)))) =
     trace w ++ custom_sent self' methodName ++
     [Post (custom_request self' methodName kwargs)]).
Proof.
  intros Hs. apply Z.eqb_neq in Hs.
  split; intros Hres.
  - rewrite run_call_spec. cbn [fst snd trace]. rewrite Hres.
    cbn [rpc_result run_printed]. rewrite Hs. split; reflexivity.
  - rewrite custom_call_spec. cbn [fst snd trace]. rewrite Hres.
    cbn [rpc_result]. rewrite Hs. split; reflexivity.
Qed.

Lemma call_raises_on_bad_status_witness :
  fst (Run.call playback "Queue.Add" []
         (Run.ECMConnection "http://localhost:9880/api",
          fresh [{| status_code := 500; text := "Internal Server Error";
                    loads := None |}])) =
    Raise (ECMException (PStr "Internal Server Error")) /\
  fst (Custom.call playback "Queue.Add" []
         (Custom.ECMConnection "http://localhost:9880/api/",
          fresh [{| status_code := 500; text := "Internal Server Error";
                    loads := None |}])) =
    Raise (ECMException (PStr "Internal Server Error")).
Proof.
  assert (Hs : 500 <> 200) by lia.
  destruct (call_raises_on_bad_status playback "Queue.Add" []
              (Run.ECMConnection "http://localhost:9880/api")
              (Custom.ECMConnection "http://localhost:9880/api/")
              (fresh [{| status_code := 500; text := "Internal Server Error";
                         loads := None |}])
              {| status_code := 500; text := "Internal Server Error"; loads := None |}
              Hs) as [H1 H2].
  split; [exact (proj1 (H1 eq_refl)) | exact (proj1 (H2 eq_refl))].
Defined.

(** X3. Whatever the outcome of a call (a result, an error of the server, a
    failed connection), it has posted exactly one request, to the URL of the
    connection, with the envelope [jsonrpc "2.0"], the current identifier,
    the method name and the keyword arguments as [params]; afterwards the
    identifier is one higher and nothing else of the connection has
    changed.  In both files. *)
Theorem call_posts_one_envelope {R} (serve : R -> request -> post_outcome * R)
    (methodName : string) (kwargs : list (string * pyval))
    (self : Run.ECMConnection_) (self' : Custom.ECMConnection_) (w : world R) :
  (exists req,
      posts (trace (snd (snd (Run.call serve methodName kwargs (self, w))))) =
        posts (trace w) ++ [req] /\
      req_url req = Run.url self /\
      req_json req = {| jsonrpc := "2.0"; rpc_id := Run._id self;
                        rpc_method := methodName; rpc_params := kwargs |} /\
      fst (snd (Run.call serve methodName kwargs (self, w))) =
        {| Run.url := Run.url self; Run._id := Run._id self + 1;
           Run.headers := Run.headers self |}) /\
  (exists req,
      posts (trace (snd (snd (Custom.call serve methodName kwargs (self', w))))) =
        posts (trace w) ++ [req] /\
      req_url req = Custom.url self' /\
      req_json req = {| jsonrpc := "2.0"; rpc_id := Custom._id self';
                        rpc_method := methodName; rpc_params := kwargs |} /\
      fst (snd (Custom.call serve methodName kwargs (self', w))) =
        {| Custom.url := Custom.url self'; Custom._id := Custom._id self' + 1;
           Custom.debug := Custom.debug self';
           Custom.headers := Custom.headers self' |}).
Proof.
  split.
  - exists (run_request self methodName kwargs).
    rewrite run_call_spec. cbn [fst snd trace]. repeat split.
    rewrite posts_app. cbn [posts flat_map app].
    fold (posts (run_printed (fst (serve (remote w)
                                     (run_request self methodName kwargs))))).
    rewrite (proj1 (run_printed_silent _)). reflexivity.
  - exists (custom_request self' methodName kwargs).
    rewrite custom_call_spec. cbn [fst snd trace]. repeat split.
    rewrite !posts_app, (proj1 (custom_sent_silent _ _)). reflexivity.
Qed.

(** X4. A response with status 200 whose body is not JSON makes [call]
    raise [ValueError]; one whose body is JSON but not an object (null, a
    boolean, a number, a string, a list) makes it raise [TypeError].
    Neither is the [ECMException] that [wait] handles.  In both files. *)
Theorem call_rejects_other_bodies {R} (serve : R -> request -> post_outcome * R)
    (methodName : string) (kwargs : list (string * pyval))
    (self : Run.ECMConnection_) (self' : Custom.ECMConnection_) (w : world R)
    (res : response) :
  status_code res = 200 ->
  (loads res = None ->
   both_calls_give serve methodName kwargs self self' w res (Raise ValueError)) /\
  (forall r, loads res = Some r -> (forall kv, r <> PDict kv) ->
   both_calls_give serve methodName kwargs self self' w res (Raise TypeError)).
Proof.
  intros Hs. split.
  - intros Hl. apply both_calls_give_intro.
    unfold rpc_result, json_loads. rewrite Hs, Hl. reflexivity.
  - intros r Hl Hr. apply both_calls_give_intro.
    unfold rpc_result, json_loads. rewrite Hs, Hl. cbn [Z.eqb Pos.eqb].
    destruct r; try reflexivity.
    + cbn [py_in]. destruct (substring_of "error" s); reflexivity.
    + cbn [py_in]. destruct (existsb _ l); reflexivity.
    + exfalso. apply (Hr kv). reflexivity.
Qed.

Lemma call_rejects_other_bodies_witness :
  fst (Run.call playback "Queue.Add" []
         (Run.ECMConnection "http://localhost:9880/api",
          fresh [{| status_code := 200; text := "<html>"; loads := None |}])) =
    Raise ValueError /\
  fst (Custom.call playback "Queue.Add" []
         (Custom.ECMConnection "http://localhost:9880/api/",
          fresh [{| status_code := 200; text := "[1, 2]";
                    loads := Some (PList [PInt 1; PInt 2]) |}])) =
    Raise TypeError.
Proof.
  destruct (call_rejects_other_bodies playback "Queue.Add" []
              (Run.ECMConnection "http://localhost:9880/api")
              (Custom.ECMConnection "http://localhost:9880/api/")
              (fresh [{| status_code := 200; text := "<html>"; loads := None |}])
              {| status_code := 200; text := "<html>"; loads := None |}
              eq_refl) as [H1 _].
  destruct (call_rejects_other_bodies playback "Queue.Add" []
              (Run.ECMConnection "http://localhost:9880/api")
              (Custom.ECMConnection "http://localhost:9880/api/")
              (fresh [{| status_code := 200; text := "[1, 2]";
                         loads := Some (PList [PInt 1; PInt 2]) |}])
              {| status_code := 200; text := "[1, 2]";
                 loads := Some (PList [PInt 1; PInt 2]) |}
              eq_refl) as [_ H2].
  split.
  - exact (proj1 (H1 eq_refl) eq_refl).
  - refine (proj2 (H2 (PList [PInt 1; PInt 2]) eq_refl _) eq_refl).
    intros kv. discriminate.
Defined.

(** X5. For a response with status 200 whose body is an object: an [error]
    member that is not itself an object (null, say) makes [call] raise
    [TypeError] even when a [result] member is there; an [error] object
    without [message] makes it raise [KeyError] for [message]; and an object
    with neither [error] nor [result] makes it raise [KeyError] for
    [result].  In both files. *)
Theorem call_on_incomplete_objects {R} (serve : R -> request -> post_outcome * R)
    (methodName : string) (kwargs : list (string * pyval))
    (self : Run.ECMConnection_) (self' : Custom.ECMConnection_) (w : world R)
    (res : response) (kv : list (string * pyval)) :
  status_code res = 200 ->
  loads res = Some (PDict kv) ->
  (forall e, dict_get "error" kv = Some e -> (forall ekv, e <> PDict ekv) ->
   both_calls_give serve methodName kwargs self self' w res (Raise TypeError)) /\
  (forall ekv, dict_get "error" kv = Some (PDict ekv) ->
   dict_get "message" ekv = None ->
   both_calls_give serve methodName kwargs self self' w res
     (Raise (KeyError "message"))) /\
  (dict_get "error" kv = None -> dict_get "result" kv = None ->
   both_calls_give serve methodName kwargs self self' w res
     (Raise (KeyError "result"))).
Proof.
  intros Hs Hl. split; [|split].
  - intros e He Hne. apply both_calls_give_intro.
    unfold rpc_result, json_loads. rewrite Hs, Hl. cbn [Z.eqb Pos.eqb py_in getitem].
    rewrite He. destruct e; try reflexivity.
    exfalso. apply (Hne kv0). reflexivity.
  - intros ekv He Hm. apply both_calls_give_intro.
    unfold rpc_result, json_loads. rewrite Hs, Hl. cbn [Z.eqb Pos.eqb py_in getitem].
    rewrite He. cbn [getitem]. rewrite Hm. reflexivity.
  - intros He Hr. apply both_calls_give_intro.
    unfold rpc_result, json_loads. rewrite Hs, Hl. cbn [Z.eqb Pos.eqb py_in getitem].
    rewrite He, Hr. reflexivity.
Qed.

Lemma call_on_incomplete_objects_witness :
  fst (Run.call playback "Queue.Continue" [("handle", PInt 7)]
         (Run.ECMConnection "http://localhost:9880/api",
          fresh [{| status_code := 200; text := "{result, error: null}";
                    loads := Some (PDict [("result", PBool true);
                                          ("error", PNone)]) |}])) =
    Raise TypeError.
Proof.
  destruct (call_on_incomplete_objects playback "Queue.Continue" [("handle", PInt 7)]
              (Run.ECMConnection "http://localhost:9880/api")
              (Custom.ECMConnection "http://localhost:9880/api/")
              (fresh [{| status_code := 200; text := "{result, error: null}";
                         loads := Some (PDict [("result", PBool true);
                                               ("error", PNone)]) |}])
              {| status_code := 200; text := "{result, error: null}";
                 loads := Some (PDict [("result", PBool true); ("error", PNone)]) |}
              [("result", PBool true); ("error", PNone)]
              eq_refl eq_refl) as [H1 _].
  refine (proj1 (H1 PNone eq_refl _) eq_refl).
  intros ekv. discriminate.
Defined.

(** ** More on the poller *)

Lemma polls_S n : polls (S n) = poll ++ polls n.
Proof. reflexivity. Qed.

Lemma passes_pos timeout :
  0 < timeout -> passes timeout = S (passes (timeout - 250)).
Proof. apply passes_step. Qed.

Lemma passes_nonpos timeout : timeout <= 0 -> passes timeout = 0%nat.
Proof. apply passes_none. Qed.

(** A status query that raises something else than [ECMException] ends the
    loop at once: the exception leaves [wait] and the pass is not finished
    by a sleep. *)
Lemma run_wait_loop_raise {R} (serve : R -> request -> post_outcome * R)
    handle status timeout st e :
  eq_str status "COMPLETE" = false -> 0 < timeout ->
  rpc_result (fst (serve (remote (snd st))
                     (run_request (fst st) "Queue.GetMeasurementState"
                        [("handle", handle)]))) = Raise e ->
  (forall message, e <> ECMException message) ->
  exists st',
    Run.wait_loop serve handle status timeout st = (Raise e, st') /\
    actions (trace (snd st')) =
      actions (trace (snd st)) ++ [Call "Queue.GetMeasurementState"].
Proof.
  intros Hs Ht E He. destruct st as [self w]. cbn [fst snd] in *.
  rewrite run_wait_loop_unfold, Hs.
  replace (0 <? timeout) with true by (symmetry; apply Z.ltb_lt; exact Ht).
  cbn [negb andb]. rewrite run_wait_body_spec. cbv zeta. rewrite E.
  destruct e; try (exfalso; eapply He; reflexivity);
    (eexists; split; [reflexivity|]);
    cbn [snd trace]; rewrite actions_app; cbn [actions flat_map];
    rewrite app_nil_r;
    match goal with
    | |- context [flat_map _ (run_printed ?o)] =>
        change (flat_map _ (run_printed o)) with (actions (run_printed o));
        rewrite (proj2 (run_printed_silent o))
    end; reflexivity.
Qed.

Lemma custom_wait_loop_raise {R} (serve : R -> request -> post_outcome * R)
    handle status timeout st e :
  eq_str status "COMPLETE" = false -> 0 < timeout ->
  rpc_result (fst (serve (remote (snd st))
                     (custom_request (fst st) "Queue.GetMeasurementState"
                        [("handle", handle)]))) = Raise e ->
  (forall message, e <> ECMException message) ->
  exists st',
    Custom.wait_loop serve handle status timeout st = (Raise e, st') /\
    actions (trace (snd st')) =
      actions (trace (snd st)) ++ [Call "Queue.GetMeasurementState"].
Proof.
  intros Hs Ht E He. destruct st as [self w]. cbn [fst snd] in *.
  rewrite custom_wait_loop_unfold, Hs.
  replace (0 <? timeout) with true by (symmetry; apply Z.ltb_lt; exact Ht).
  cbn [negb andb]. rewrite custom_wait_body_spec. cbv zeta. rewrite E.
  destruct e; try (exfalso; eapply He; reflexivity);
    (eexists; split; [reflexivity|]);
    cbn [snd trace]; rewrite actions_app; reflexivity.
Qed.

Lemma run_wait_loop_outcome {R} (serve : R -> request -> post_outcome * R) handle :
  forall n timeout status st,
    n = passes timeout ->
    wait_outcome timeout (actions (trace (snd st)))
      (fst (Run.wait_loop serve handle status timeout st))
      (actions (trace (snd (snd (Run.wait_loop serve handle status timeout st))))).
Proof.
  induction n as [|n IH]; intros timeout status st Hn.
  - assert (Ht : timeout <= 0).
    { destruct (Z_lt_le_dec 0 timeout) as [Hp|]; [|assumption].
      rewrite (passes_pos timeout Hp) in Hn. discriminate. }
    rewrite run_wait_loop_done by (right; exact Ht). cbn [fst snd wait_outcome].
    exists 0%nat. rewrite <- Hn. cbn. rewrite app_nil_r. auto.
  - assert (Ht : 0 < timeout).
    { destruct (Z_lt_le_dec 0 timeout) as [|Hle]; [assumption|].
      rewrite (passes_nonpos timeout Hle) in Hn. discriminate. }
    rewrite (passes_pos timeout Ht) in Hn. injection Hn as Hn.
    destruct (eq_str status "COMPLETE") eqn:Hs.
    + rewrite run_wait_loop_done by (left; exact Hs). cbn [fst snd wait_outcome].
      exists 0%nat. cbn. rewrite app_nil_r. repeat split; auto. lia.
    + pose proof (run_wait_loop_pass serve handle status timeout st Hs Ht) as P.
      cbv zeta in P.
      destruct (rpc_result _) as [v|e] eqn:E.
      * destruct P as (st1 & E1 & _ & A1). rewrite E1.
        specialize (IH (timeout - 250) v st1 Hn). rewrite A1 in IH.
        destruct (fst (Run.wait_loop serve handle v (timeout - 250) st1)) as [s|e'];
          cbn [wait_outcome] in *; rewrite (passes_pos timeout Ht).
        -- destruct IH as (k & Hk & Ha & Hc). exists (S k).
           rewrite Ha, polls_S, <- app_assoc. repeat split; [lia|].
           destruct Hc as [Hc|Hc]; [left; exact Hc | right; lia].
        -- destruct IH as (Hne & k & Hk & Ha). split; [exact Hne|]. exists (S k).
           rewrite Ha, polls_S, <- !app_assoc. split; [lia|reflexivity].
      * assert (Hecm : (exists m, e = ECMException m) \/
                       (forall m, e <> ECMException m)).
        { destruct e; try (right; intros m; discriminate). left. eauto. }
        destruct Hecm as [[m ->]|Hne].
        -- destruct P as (st1 & E1 & _ & A1 & _). rewrite E1.
           specialize (IH (timeout - 250) status st1 Hn). rewrite A1 in IH.
           destruct (fst (Run.wait_loop serve handle status (timeout - 250) st1))
             as [s|e']; cbn [wait_outcome] in *; rewrite (passes_pos timeout Ht).
           ++ destruct IH as (k & Hk & Ha & Hc). exists (S k).
              rewrite Ha, polls_S, <- app_assoc. repeat split; [lia|].
              destruct Hc as [Hc|Hc]; [left; exact Hc | right; lia].
           ++ destruct IH as (Hne & k & Hk & Ha). split; [exact Hne|]. exists (S k).
              rewrite Ha, polls_S, <- !app_assoc. split; [lia|reflexivity].
        -- destruct (run_wait_loop_raise serve handle status timeout st e Hs Ht E Hne)
             as (st' & E' & A'). rewrite E'. cbn [fst snd wait_outcome].
           split; [exact Hne|]. exists 0%nat. rewrite A'.
           rewrite (passes_pos timeout Ht). split; [lia|reflexivity].
Qed.

Lemma custom_wait_loop_outcome {R} (serve : R -> request -> post_outcome * R) handle :
  forall n timeout status st,
    n = passes timeout ->
    wait_outcome timeout (actions (trace (snd st)))
      (fst (Custom.wait_loop serve handle status timeout st))
      (actions (trace (snd (snd (Custom.wait_loop serve handle status timeout st))))).
Proof.
  induction n as [|n IH]; intros timeout status st Hn.
  - assert (Ht : timeout <= 0).
    { destruct (Z_lt_le_dec 0 timeout) as [Hp|]; [|assumption].
      rewrite (passes_pos timeout Hp) in Hn. discriminate. }
    rewrite custom_wait_loop_done by (right; exact Ht). cbn [fst snd wait_outcome].
    exists 0%nat. rewrite <- Hn. cbn. rewrite app_nil_r. auto.
  - assert (Ht : 0 < timeout).
    { destruct (Z_lt_le_dec 0 timeout) as [|Hle]; [assumption|].
      rewrite (passes_nonpos timeout Hle) in Hn. discriminate. }
    rewrite (passes_pos timeout Ht) in Hn. injection Hn as Hn.
    destruct (eq_str status "COMPLETE") eqn:Hs.
    + rewrite custom_wait_loop_done by (left; exact Hs). cbn [fst snd wait_outcome].
      exists 0%nat. cbn. rewrite app_nil_r. repeat split; auto. lia.
    + pose proof (custom_wait_loop_pass serve handle status timeout st Hs Ht) as P.
      cbv zeta in P.
      destruct (rpc_result _) as [v|e] eqn:E.
      * destruct P as (st1 & E1 & _ & A1). rewrite E1.
        specialize (IH (timeout - 250) v st1 Hn). rewrite A1 in IH.
        destruct (fst (Custom.wait_loop serve handle v (timeout - 250) st1)) as [s|e'];
          cbn [wait_outcome] in *; rewrite (passes_pos timeout Ht).
        -- destruct IH as (k & Hk & Ha & Hc). exists (S k).
           rewrite Ha, polls_S, <- app_assoc. repeat split; [lia|].
           destruct Hc as [Hc|Hc]; [left; exact Hc | right; lia].
        -- destruct IH as (Hne & k & Hk & Ha). split; [exact Hne|]. exists (S k).
           rewrite Ha, polls_S, <- !app_assoc. split; [lia|reflexivity].
      * assert (Hecm : (exists m, e = ECMException m) \/
                       (forall m, e <> ECMException m)).
        { destruct e; try (right; intros m; discriminate). left. eauto. }
        destruct Hecm as [[m ->]|Hne].
        -- destruct P as (st1 & E1 & _ & A1 & _). rewrite E1.
           specialize (IH (timeout - 250) status st1 Hn). rewrite A1 in IH.
           destruct (fst (Custom.wait_loop serve handle status (timeout - 250) st1))
             as [s|e']; cbn [wait_outcome] in *; rewrite (passes_pos timeout Ht).
           ++ destruct IH as (k & Hk & Ha & Hc). exists (S k).
              rewrite Ha, polls_S, <- app_assoc. repeat split; [lia|].
              destruct Hc as [Hc|Hc]; [left; exact Hc | right; lia].
           ++ destruct IH as (Hne & k & Hk & Ha). split; [exact Hne|]. exists (S k).
              rewrite Ha, polls_S, <- !app_assoc. split; [lia|reflexivity].
        -- destruct (custom_wait_loop_raise serve handle status timeout st e
                       Hs Ht E Hne) as (st' & E' & A'). rewrite E'.
           cbn [fst snd wait_outcome].
           split; [exact Hne|]. exists 0%nat. rewrite A'.
           rewrite (passes_pos timeout Ht). split; [lia|reflexivity].
Qed.

(** X6. Whatever the server does, [wait] makes at most one status query per
    started 250 of its budget, each whole pass being the query and a sleep
    of 250.  When it returns, the status is ["COMPLETE"] or the budget is
    used up; it never lets an [ECMException] out, and any other exception
    of a query leaves it at once, without the sleep.  ecm_custom.py sleeps
    250 once before all that. *)
Theorem wait_is_bounded {R} (serve : R -> request -> post_outcome * R)
    (handle : pyval) (timeout : Z)
    (st : state Run.ECMConnection_ R) (st2 : state Custom.ECMConnection_ R) :
  wait_outcome timeout (actions (trace (snd st)))
    (fst (Run.wait serve handle timeout st))
    (actions (trace (snd (snd (Run.wait serve handle timeout st))))) /\
  wait_outcome timeout (actions (trace (snd st2)) ++ [Pause 250])
    (fst (Custom.wait serve handle timeout st2))
    (actions (trace (snd (snd (Custom.wait serve handle timeout st2))))).
Proof.
  split.
  - unfold Run.wait. apply (run_wait_loop_outcome serve handle _ _ _ _ eq_refl).
  - rewrite custom_wait_unfold.
    pose proof (custom_wait_loop_outcome serve handle _ timeout (PStr "")
                  (fst st2, {| remote := remote (snd st2);
                               trace := trace (snd st2) ++ [Sleep 250] |}) eq_refl)
      as H.
    cbn [snd trace] in H. rewrite actions_app in H. exact H.
Qed.

(** *** What a computation adds to the trace *)

Lemma appends_ret {C R A} (P : event -> Prop) (a : A) : appends P (@ret C R A a).
Proof. intros st. exists []. cbn. rewrite app_nil_r. auto. Qed.

Lemma appends_raise {C R A} (P : event -> Prop) e : appends P (@raise C R A e).
Proof. intros st. exists []. cbn. rewrite app_nil_r. auto. Qed.

Lemma appends_lift {C R A} (P : event -> Prop) (r : result A) :
  appends P (@lift C R A r).
Proof. intros st. exists []. cbn. rewrite app_nil_r. auto. Qed.

Lemma appends_emit {C R} (P : event -> Prop) e : P e -> appends P (@emit C R e).
Proof. intros H st. exists [e]. cbn. auto. Qed.

Lemma appends_get_self {C R} (P : event -> Prop) : appends P (@get_self C R).
Proof. intros st. exists []. cbn. rewrite app_nil_r. auto. Qed.

Lemma appends_bind {C R A B} (P : event -> Prop) (m : M C R A) (f : A -> M C R B) :
  appends P m -> (forall a, appends P (f a)) -> appends P (bind m f).
Proof.
  intros Hm Hf st. unfold bind.
  destruct (Hm st) as (evs & E & HP).
  destruct (m st) as [[a|e] st1]; cbn [snd] in *.
  - destruct (Hf a st1) as (evs2 & E2 & HP2).
    exists (evs ++ evs2). rewrite E2, E, <- app_assoc. split; [reflexivity|].
    apply Forall_app. auto.
  - exists evs. auto.
Qed.

Lemma appends_try {C R A} (P : event -> Prop) (m : M C R A) (h : pyval -> M C R A) :
  appends P m -> (forall ex, appends P (h ex)) ->
  appends P (try_except_ECMException m h).
Proof.
  intros Hm Hh st. unfold try_except_ECMException.
  destruct (Hm st) as (evs & E & HP).
  destruct (m st) as [[a|e] st1]; cbn [snd] in *; [exists evs; auto|].
  destruct e; try solve [exists evs; auto].
  destruct (Hh message st1) as (evs2 & E2 & HP2).
  exists (evs ++ evs2). rewrite E2, E, <- app_assoc. split; [reflexivity|].
  apply Forall_app. auto.
Qed.

Lemma appends_when {C R} (P : event -> Prop) b (m : M C R unit) :
  appends P m -> appends P (when_ b m).
Proof. intros H. destruct b; [exact H | apply appends_ret]. Qed.

Lemma appends_if_not_None {C R A} (P : event -> Prop) (o : option A)
    (body : A -> M C R unit) :
  (forall x, appends P (body x)) -> appends P (if_not_None o body).
Proof. intros H. destruct o; [apply H | apply appends_ret]. Qed.

Lemma appends_ignore {C R A} (P : event -> Prop) (m : M C R A) :
  appends P m -> appends P (ignore m).
Proof. intros H. apply appends_bind; [exact H | intros; apply appends_ret]. Qed.

Lemma appends_for_each {C R A} (P : event -> Prop) (xs : list A)
    (body : A -> M C R unit) :
  (forall x, appends P (body x)) -> appends P (for_each xs body).
Proof.
  intros H. induction xs as [|x xs IH]; cbn [for_each].
  - apply appends_ret.
  - apply appends_bind; [apply H | intros; exact IH].
Qed.

Lemma run_appends_call {R} (serve : R -> request -> post_outcome * R)
    (P : event -> Prop) m kw :
  admits_call P m kw -> appends P (Run.call serve m kw).
Proof.
  intros [Hreq Hout] [self w]. rewrite run_call_spec. cbn [snd trace].
  eexists. split; [reflexivity|].
  constructor; [apply Hreq; reflexivity|].
  unfold run_printed. destruct (fst _); [|constructor].
  destruct (status_code res =? 200); repeat constructor. apply Hout.
Qed.

Lemma custom_appends_call {R} (serve : R -> request -> post_outcome * R)
    (P : event -> Prop) m kw :
  admits_call P m kw -> appends P (Custom.call serve m kw).
Proof.
  intros [Hreq Hout] [self w]. rewrite custom_call_spec. cbn [snd trace].
  eexists. split; [reflexivity|].
  apply Forall_app. split.
  - unfold custom_sent. destruct (_ && _); repeat constructor. apply Hout.
  - constructor; [apply Hreq; reflexivity | constructor].
Qed.

Lemma run_appends_wait_loop {R} (serve : R -> request -> post_outcome * R)
    (P : event -> Prop) handle :
  admits_call P "Queue.GetMeasurementState" [("handle", handle)] ->
  P (Sleep 250) ->
  forall n timeout status st,
    n = passes timeout ->
    exists evs,
      trace (snd (snd (Run.wait_loop serve handle status timeout st))) =
        trace (snd st) ++ evs /\ Forall P evs.
Proof.
  intros Hc Hsl. induction n as [|n IH]; intros timeout status st Hn.
  - assert (Ht : timeout <= 0).
    { destruct (Z_lt_le_dec 0 timeout) as [Hp|]; [|assumption].
      rewrite (passes_pos timeout Hp) in Hn. discriminate. }
    rewrite run_wait_loop_done by (right; exact Ht).
    exists []. cbn. rewrite app_nil_r. auto.
  - rewrite run_wait_loop_unfold.
    destruct (negb (eq_str status "COMPLETE") && (0 <? timeout)) eqn:Hcond;
      [|exists []; cbn; rewrite app_nil_r; auto].
    apply andb_prop in Hcond. destruct Hcond as [_ Ht]. apply Z.ltb_lt in Ht.
    rewrite (passes_pos timeout Ht) in Hn. injection Hn as Hn.
    assert (Hbody : appends P (Run.wait_body serve handle status)).
    { unfold Run.wait_body.
      apply appends_bind.
      - apply appends_try; [apply run_appends_call; exact Hc|].
        intros ex. apply appends_bind; [apply appends_emit; apply Hc|].
        intros; apply appends_ret.
      - intros s. apply appends_bind; [apply appends_emit; exact Hsl|].
        intros; apply appends_ret. }
    destruct (Hbody st) as (evs & E & HP).
    destruct (Run.wait_body serve handle status st) as [[s|e] st1]; cbn [snd] in *.
    + destruct (IH (timeout - 250) s st1 Hn) as (evs2 & E2 & HP2).
      exists (evs ++ evs2). rewrite E2, E, <- app_assoc. split; [reflexivity|].
      apply Forall_app. auto.
    + exists evs. auto.
Qed.

Lemma custom_appends_wait_loop {R} (serve : R -> request -> post_outcome * R)
    (P : event -> Prop) handle :
  admits_call P "Queue.GetMeasurementState" [("handle", handle)] ->
  P (Sleep 250) ->
  forall n timeout status st,
    n = passes timeout ->
    exists evs,
      trace (snd (snd (Custom.wait_loop serve handle status timeout st))) =
        trace (snd st) ++ evs /\ Forall P evs.
Proof.
  intros Hc Hsl. induction n as [|n IH]; intros timeout status st Hn.
  - assert (Ht : timeout <= 0).
    { destruct (Z_lt_le_dec 0 timeout) as [Hp|]; [|assumption].
      rewrite (passes_pos timeout Hp) in Hn. discriminate. }
    rewrite custom_wait_loop_done by (right; exact Ht).
    exists []. cbn. rewrite app_nil_r. auto.
  - rewrite custom_wait_loop_unfold.
    destruct (negb (eq_str status "COMPLETE") && (0 <? timeout)) eqn:Hcond;
      [|exists []; cbn; rewrite app_nil_r; auto].
    apply andb_prop in Hcond. destruct Hcond as [_ Ht]. apply Z.ltb_lt in Ht.
    rewrite (passes_pos timeout Ht) in Hn. injection Hn as Hn.
    assert (Hbody : appends P (Custom.wait_body serve handle status)).
    { unfold Custom.wait_body.
      apply appends_bind.
      - apply appends_try.
        + apply appends_bind; [apply custom_appends_call; exact Hc|].
          intros s. apply appends_bind; [apply appends_get_self|].
          intros self. apply appends_bind.
          * apply appends_when. apply appends_emit. apply Hc.
          * intros; apply appends_ret.
        + intros ex. apply appends_bind; [apply appends_emit; apply Hc|].
          intros; apply appends_ret.
      - intros s. apply appends_bind; [apply appends_emit; exact Hsl|].
        intros; apply appends_ret. }
    destruct (Hbody st) as (evs & E & HP).
    destruct (Custom.wait_body serve handle status st) as [[s|e] st1]; cbn [snd] in *.
    + destruct (IH (timeout - 250) s st1 Hn) as (evs2 & E2 & HP2).
      exists (evs ++ evs2). rewrite E2, E, <- app_assoc. split; [reflexivity|].
      apply Forall_app. auto.
    + exists evs. auto.
Qed.

Lemma run_appends_wait {R} (serve : R -> request -> post_outcome * R)
    (P : event -> Prop) handle timeout :
  admits_call P "Queue.GetMeasurementState" [("handle", handle)] ->
  P (Sleep 250) ->
  appends P (Run.wait serve handle timeout).
Proof.
  intros Hc Hsl st. unfold Run.wait.
  apply (run_appends_wait_loop serve P handle Hc Hsl _ timeout (PStr "") st eq_refl).
Qed.

Lemma custom_appends_wait {R} (serve : R -> request -> post_outcome * R)
    (P : event -> Prop) handle timeout :
  admits_call P "Queue.GetMeasurementState" [("handle", handle)] ->
  P (Sleep 250) ->
  appends P (Custom.wait serve handle timeout).
Proof.
  intros Hc Hsl. unfold Custom.wait.
  apply appends_bind; [apply appends_emit; exact Hsl|].
  intros _ st.
  apply (custom_appends_wait_loop serve P handle Hc Hsl _ timeout (PStr "") st eq_refl).
Qed.

(** X7. Whatever the server does, the only requests that [wait] posts are
    status queries ([Queue.GetMeasurementState]) whose one parameter is the
    handle it was given; everything else it adds to the trace are sleeps and
    printed lines.  In both files. *)
Theorem wait_only_queries_the_status {R} (serve : R -> request -> post_outcome * R)
    (handle : pyval) (timeout : Z) :
  appends (is_status_query_for handle) (Run.wait serve handle timeout) /\
  appends (is_status_query_for handle) (Custom.wait serve handle timeout).
Proof.
  assert (Hc : admits_call (is_status_query_for handle)
                 "Queue.GetMeasurementState" [("handle", handle)]).
  { split; [|intros; exact I]. intros req Hm Hp. cbn. auto. }
  split; [apply run_appends_wait | apply custom_appends_wait];
    try exact Hc; exact I.
Qed.

Lemma last_status_in status l s :
  last_status status l = s -> s = status \/ In (Return s) l.
Proof.
  unfold last_status. revert status.
  induction l as [|a l IH]; intros status H; cbn [fold_left] in H.
  - left. symmetry. exact H.
  - destruct (IH _ H) as [E|Hin]; [|right; right; exact Hin].
    destruct a as [v|e]; [right; left; congruence | left; exact E].
Qed.

Lemma run_wait_loop_answers {R} (serve : R -> request -> post_outcome * R) handle :
  forall n timeout status st,
    n = passes timeout ->
    forall s, fst (Run.wait_loop serve handle status timeout st) = Return s ->
    exists qs,
      posts (trace (snd (snd (Run.wait_loop serve handle status timeout st)))) =
        posts (trace (snd st)) ++ qs /\
      s = last_status status (answers serve (remote (snd st)) qs).
Proof.
  induction n as [|n IH]; intros timeout status st Hn s Hs.
  - assert (Ht : timeout <= 0).
    { destruct (Z_lt_le_dec 0 timeout) as [Hp|]; [|assumption].
      rewrite (passes_pos timeout Hp) in Hn. discriminate. }
    rewrite run_wait_loop_done in * by (right; exact Ht).
    injection Hs as <-. exists []. rewrite app_nil_r. auto.
  - rewrite run_wait_loop_unfold in *.
    destruct (negb (eq_str status "COMPLETE") && (0 <? timeout)) eqn:Hcond.
    2:{ injection Hs as <-. exists []. rewrite app_nil_r. auto. }
    apply andb_prop in Hcond. destruct Hcond as [_ Ht]. apply Z.ltb_lt in Ht.
    rewrite (passes_pos timeout Ht) in Hn. injection Hn as Hn.
    destruct st as [self w]. rewrite run_wait_body_spec in *. cbv zeta in *.
    set (req := run_request self "Queue.GetMeasurementState" [("handle", handle)]) in *.
    assert (Hp : forall evs, posts evs = [] ->
              posts (trace w ++ Post req :: run_printed (fst (serve (remote w) req)) ++ evs) =
              posts (trace w) ++ [req]).
    { intros evs Hev. rewrite posts_app. cbn [posts flat_map app].
      change (flat_map _ (?l ++ evs)) with (posts (l ++ evs)).
      rewrite posts_app, (proj1 (run_printed_silent _)), Hev. reflexivity. }
    cbn [snd remote answers].
    destruct (rpc_result (fst (serve (remote w) req))) as [v|e] eqn:E.
    + destruct (IH (timeout - 250) v _ Hn s Hs) as (qs & Eq & El).
      exists (req :: qs). rewrite Eq. cbn [snd trace remote] in *.
      rewrite Hp by reflexivity. rewrite <- app_assoc. cbn [answers].
      rewrite E. split; [reflexivity | exact El].
    + destruct e; try discriminate Hs.
      destruct (IH (timeout - 250) status _ Hn s Hs) as (qs & Eq & El).
      exists (req :: qs). rewrite Eq. cbn [snd trace remote] in *.
      rewrite Hp by reflexivity. rewrite <- app_assoc. cbn [answers].
      rewrite E. split; [reflexivity | exact El].
Qed.

Lemma custom_wait_loop_answers {R} (serve : R -> request -> post_outcome * R) handle :
  forall n timeout status st,
    n = passes timeout ->
    forall s, fst (Custom.wait_loop serve handle status timeout st) = Return s ->
    exists qs,
      posts (trace (snd (snd (Custom.wait_loop serve handle status timeout st)))) =
        posts (trace (snd st)) ++ qs /\
      s = last_status status (answers serve (remote (snd st)) qs).
Proof.
  induction n as [|n IH]; intros timeout status st Hn s Hs.
  - assert (Ht : timeout <= 0).
    { destruct (Z_lt_le_dec 0 timeout) as [Hp|]; [|assumption].
      rewrite (passes_pos timeout Hp) in Hn. discriminate. }
    rewrite custom_wait_loop_done in * by (right; exact Ht).
    injection Hs as <-. exists []. rewrite app_nil_r. auto.
  - rewrite custom_wait_loop_unfold in *.
    destruct (negb (eq_str status "COMPLETE") && (0 <? timeout)) eqn:Hcond.
    2:{ injection Hs as <-. exists []. rewrite app_nil_r. auto. }
    apply andb_prop in Hcond. destruct Hcond as [_ Ht]. apply Z.ltb_lt in Ht.
    rewrite (passes_pos timeout Ht) in Hn. injection Hn as Hn.
    destruct st as [self w]. rewrite custom_wait_body_spec in *. cbv zeta in *.
    set (req := custom_request self "Queue.GetMeasurementState" [("handle", handle)])
      in *.
    assert (Hp : forall evs, posts evs = [] ->
              posts (trace w ++ Post req :: evs) = posts (trace w) ++ [req]).
    { intros evs Hev. rewrite posts_app. cbn [posts flat_map app].
      change (flat_map _ evs) with (posts evs). rewrite Hev. reflexivity. }
    cbn [snd remote answers].
    destruct (rpc_result (fst (serve (remote w) req))) as [v|e] eqn:E.
    + destruct (IH (timeout - 250) v _ Hn s Hs) as (qs & Eq & El).
      exists (req :: qs). rewrite Eq. cbn [snd trace remote] in *.
      rewrite Hp by (destruct (Custom.debug self); reflexivity).
      rewrite <- app_assoc. cbn [answers].
      rewrite E. split; [reflexivity | exact El].
    + destruct e; try discriminate Hs.
      destruct (IH (timeout - 250) status _ Hn s Hs) as (qs & Eq & El).
      exists (req :: qs). rewrite Eq. cbn [snd trace remote] in *.
      rewrite Hp by reflexivity. rewrite <- app_assoc. cbn [answers].
      rewrite E. split; [reflexivity | exact El].
Qed.

(** X8. The status that [wait] returns is never made up: it is the last
    status that the server returned to the status queries of this very run
    of [wait] (the requests that [wait] added to the trace, answered from
    the state the server was in when [wait] began), and the empty string
    when none of them returned one.  So [wait] returns ["COMPLETE"] only
    when the server answered ["COMPLETE"] to one of its queries.  In both
    files. *)
Theorem wait_returns_a_reported_status {R}
    (serve : R -> request -> post_outcome * R) (handle : pyval) (timeout : Z)
    (st : state Run.ECMConnection_ R) (st2 : state Custom.ECMConnection_ R) :
  (forall s, fst (Run.wait serve handle timeout st) = Return s ->
             status_of_the_run serve (snd st)
               (snd (snd (Run.wait serve handle timeout st))) s) /\
  (forall s, fst (Custom.wait serve handle timeout st2) = Return s ->
             status_of_the_run serve (snd st2)
               (snd (snd (Custom.wait serve handle timeout st2))) s).
Proof.
  assert (Hc : forall l s, s = last_status (PStr "") l ->
                 eq_str s "COMPLETE" = true -> In (Return s) l).
  { intros l s El Hs. symmetry in El.
    destruct (last_status_in _ _ _ El) as [->|Hin]; [discriminate Hs | exact Hin]. }
  split; intros s Hs.
  - destruct (run_wait_loop_answers serve handle _ timeout (PStr "") st eq_refl s Hs)
      as (qs & Eq & El).
    exists qs. split; [exact Eq|]. split; [exact El | apply Hc; exact El].
  - rewrite custom_wait_unfold in *.
    destruct (custom_wait_loop_answers serve handle _ timeout (PStr "") _ eq_refl s Hs)
      as (qs & Eq & El).
    cbn [snd trace remote] in Eq, El.
    rewrite posts_app in Eq. cbn [posts flat_map app] in Eq.
    rewrite app_nil_r in Eq.
    exists qs. split; [exact Eq|]. split; [exact El | apply Hc; exact El].
Qed.

Lemma wait_returns_a_reported_status_witness :
  status_of_the_run playback
    (fresh [reply_result (PStr "RUNNING"); reply_error (-32000) "busy";
            reply_result (PStr "COMPLETE")])
    (snd (snd (Run.wait playback (PInt 7) 1000
                 (Run.ECMConnection "http://localhost:9880/api",
                  fresh [reply_result (PStr "RUNNING"); reply_error (-32000) "busy";
                         reply_result (PStr "COMPLETE")]))))
    (PStr "COMPLETE") /\
  status_of_the_run playback
    (fresh [reply_error (-32000) "busy"])
    (snd (snd (Custom.wait playback (PInt 7) 250
                 (Custom.ECMConnection "http://localhost:9880/api/",
                  fresh [reply_error (-32000) "busy"]))))
    (PStr "").
Proof.
  split.
  - apply (proj1 (wait_returns_a_reported_status playback (PInt 7) 1000
                    (Run.ECMConnection "http://localhost:9880/api",
                     fresh [reply_result (PStr "RUNNING"); reply_error (-32000) "busy";
                            reply_result (PStr "COMPLETE")])
                    (Custom.ECMConnection "http://localhost:9880/api/", fresh []))).
    vm_compute. reflexivity.
  - apply (proj2 (wait_returns_a_reported_status playback (PInt 7) 250
                    (Run.ECMConnection "http://localhost:9880/api", fresh [])
                    (Custom.ECMConnection "http://localhost:9880/api/",
                     fresh [reply_error (-32000) "busy"]))).
    vm_compute. reflexivity.
Defined.

(** X9. With a positive budget, when the first status query raises anything
    but [ECMException] (the connection fails, the body is not a JSON
    object, ...), [wait] raises that exception after this one query and
    does not sleep after it.  In both files. *)
Theorem wait_lets_other_exceptions_out {R}
    (serve : R -> request -> post_outcome * R) (handle : pyval) (timeout : Z)
    (self : Run.ECMConnection_) (self' : Custom.ECMConnection_) (w : world R)
    (e : exn) :
  0 < timeout ->
  (forall message, e <> ECMException message) ->
  (rpc_result (fst (serve (remote w)
                      (run_request self "Queue.GetMeasurementState"
                         [("handle", handle)]))) = Raise e ->
   exists st',
     Run.wait serve handle timeout (self, w) = (Raise e, st') /\
     actions (trace (snd st')) =
       actions (trace w) ++ [Call "Queue.GetMeasurementState"]) /\
  (rpc_result (fst (serve (remote w)
                      (custom_request self' "Queue.GetMeasurementState"
                         [("handle", handle)]))) = Raise e ->
   exists st',
     Custom.wait serve handle timeout (self', w) = (Raise e, st') /\
     actions (trace (snd st')) =
       actions (trace w) ++ [Pause 250; Call "Queue.GetMeasurementState"]).
Proof.
  intros Ht He. split; intros E.
  - unfold Run.wait.
    apply (run_wait_loop_raise serve handle (PStr "") timeout (self, w) e
             eq_refl Ht E He).
  - rewrite custom_wait_unfold. cbn [fst snd].
    destruct (custom_wait_loop_raise serve handle (PStr "") timeout
                (self', {| remote := remote w; trace := trace w ++ [Sleep 250] |}) e
                eq_refl Ht E He) as (st' & E' & A').
    exists st'. split; [exact E'|]. rewrite A'. cbn [snd trace].
    rewrite actions_app, <- app_assoc. reflexivity.
Qed.

Lemma wait_lets_other_exceptions_out_witness :
  fst (Run.wait playback (PInt 7) 10000
         (Run.ECMConnection "http://localhost:9880/api", fresh [])) =
    Raise RequestException /\
  fst (Custom.wait playback (PInt 7) 60000
         (Custom.ECMConnection "http://localhost:9880/api/",
          fresh [{| status_code := 200; text := "<html>"; loads := None |}])) =
    Raise ValueError.
Proof.
  assert (H1 : 0 < 10000) by lia.
  assert (H2 : 0 < 60000) by lia.
  destruct (wait_lets_other_exceptions_out playback (PInt 7) 10000
              (Run.ECMConnection "http://localhost:9880/api")
              (Custom.ECMConnection "http://localhost:9880/api/")
              (fresh []) RequestException H1
              ltac:(intros m; discriminate)) as [Hr _].
  destruct (wait_lets_other_exceptions_out playback (PInt 7) 60000
              (Run.ECMConnection "http://localhost:9880/api")
              (Custom.ECMConnection "http://localhost:9880/api/")
              (fresh [{| status_code := 200; text := "<html>"; loads := None |}])
              ValueError H2 ltac:(intros m; discriminate)) as [_ Hc].
  destruct (Hr eq_refl) as (st' & E & _).
  destruct (Hc eq_refl) as (st2' & E2 & _).
  rewrite E, E2. split; reflexivity.
Defined.

Lemma run_wait_loop_until_complete {R} (serve : R -> request -> post_outcome * R)
    handle :
  forall script timeout status st,
    eq_str status "COMPLETE" = false ->
    Forall not_yet script ->
    scripted serve (remote (snd st)) (script ++ [Return (PStr "COMPLETE")]) ->
    250 * Z.of_nat (length script) < timeout ->
    exists st',
      Run.wait_loop serve handle status timeout st = (Return (PStr "COMPLETE"), st') /\
      actions (trace (snd st')) =
        actions (trace (snd st)) ++ polls (S (length script)).
Proof.
  induction script as [|x script IH]; intros timeout status st Hs Hq H Ht.
  - cbn [app length] in *.
    destruct (run_scripted_pass serve handle status timeout st _ _ H Hs
                ltac:(lia)) as (st1 & E1 & _ & A1).
    exists st1. rewrite E1, run_wait_loop_done by (left; reflexivity).
    split; [reflexivity|]. rewrite A1. reflexivity.
  - cbn [app length] in *. inversion Hq as [|? ? Hx Hq']; subst.
    pose proof (run_scripted_pass serve handle status timeout st _ _ H Hs
                  ltac:(lia)) as P.
    destruct x as [v|[]]; cbn [not_yet] in Hx; try contradiction.
    + destruct P as (st1 & E1 & H1 & A1).
      destruct (IH (timeout - 250) v st1 Hx Hq' H1 ltac:(lia)) as (st' & E' & A').
      exists st'. rewrite E1, E'. split; [reflexivity|].
      rewrite A', A1, (polls_S (S (length script))), <- app_assoc. reflexivity.
    + destruct P as (st1 & E1 & H1 & A1 & _).
      destruct (IH (timeout - 250) status st1 Hs Hq' H1 ltac:(lia)) as (st' & E' & A').
      exists st'. rewrite E1, E'. split; [reflexivity|].
      rewrite A', A1, (polls_S (S (length script))), <- app_assoc. reflexivity.
Qed.

Lemma custom_wait_loop_until_complete {R} (serve : R -> request -> post_outcome * R)
    handle :
  forall script timeout status st,
    eq_str status "COMPLETE" = false ->
    Forall not_yet script ->
    scripted serve (remote (snd st)) (script ++ [Return (PStr "COMPLETE")]) ->
    250 * Z.of_nat (length script) < timeout ->
    exists st',
      Custom.wait_loop serve handle status timeout st =
        (Return (PStr "COMPLETE"), st') /\
      actions (trace (snd st')) =
        actions (trace (snd st)) ++ polls (S (length script)).
Proof.
  induction script as [|x script IH]; intros timeout status st Hs Hq H Ht.
  - cbn [app length] in *.
    destruct (custom_scripted_pass serve handle status timeout st _ _ H Hs
                ltac:(lia)) as (st1 & E1 & _ & A1).
    exists st1. rewrite E1, custom_wait_loop_done by (left; reflexivity).
    split; [reflexivity|]. rewrite A1. reflexivity.
  - cbn [app length] in *. inversion Hq as [|? ? Hx Hq']; subst.
    pose proof (custom_scripted_pass serve handle status timeout st _ _ H Hs
                  ltac:(lia)) as P.
    destruct x as [v|[]]; cbn [not_yet] in Hx; try contradiction.
    + destruct P as (st1 & E1 & H1 & A1).
      destruct (IH (timeout - 250) v st1 Hx Hq' H1 ltac:(lia)) as (st' & E' & A').
      exists st'. rewrite E1, E'. split; [reflexivity|].
      rewrite A', A1, (polls_S (S (length script))), <- app_assoc. reflexivity.
    + destruct P as (st1 & E1 & H1 & A1 & _).
      destruct (IH (timeout - 250) status st1 Hs Hq' H1 ltac:(lia)) as (st' & E' & A').
      exists st'. rewrite E1, E'. split; [reflexivity|].
      rewrite A', A1, (polls_S (S (length script))), <- app_assoc. reflexivity.
Qed.

(** X10. When the status queries give [k] answers that are not yet
    ["COMPLETE"] (other statuses, or [ECMException]s) and then
    ["COMPLETE"], and the budget is above [250 * k], [wait] returns
    ["COMPLETE"] after exactly [k + 1] passes, each a query and a sleep of
    250.  In both files; ecm_custom.py sleeps 250 once before them. *)
Theorem wait_returns_complete_when_reported {R}
    (serve : R -> request -> post_outcome * R) (handle : pyval) (timeout : Z)
    (self : Run.ECMConnection_) (self' : Custom.ECMConnection_) (w : world R)
    (script : list (result pyval)) :
  Forall not_yet script ->
  scripted serve (remote w) (script ++ [Return (PStr "COMPLETE")]) ->
  250 * Z.of_nat (length script) < timeout ->
  (exists st',
      Run.wait serve handle timeout (self, w) = (Return (PStr "COMPLETE"), st') /\
      actions (trace (snd st')) =
        actions (trace w) ++ polls (S (length script))) /\
  (exists st',
      Custom.wait serve handle timeout (self', w) = (Return (PStr "COMPLETE"), st') /\
      actions (trace (snd st')) =
        actions (trace w) ++ Pause 250 :: polls (S (length script))).
Proof.
  intros Hq H Ht. split.
  - unfold Run.wait.
    apply (run_wait_loop_until_complete serve handle script timeout (PStr "")
             (self, w) eq_refl Hq H Ht).
  - rewrite custom_wait_unfold. cbn [fst snd].
    destruct (custom_wait_loop_until_complete serve handle script timeout (PStr "")
                (self', {| remote := remote w; trace := trace w ++ [Sleep 250] |})
                eq_refl Hq H Ht) as (st' & E' & A').
    exists st'. split; [exact E'|]. rewrite A'. cbn [snd trace].
    rewrite actions_app, <- app_assoc. reflexivity.
Qed.

Lemma wait_returns_complete_when_reported_witness :
  fst (Run.wait playback (PInt 7) 10000
         (Run.ECMConnection "http://localhost:9880/api",
          fresh [reply_result (PStr ""); reply_error (-32000) "busy";
                 reply_result (PStr "COMPLETE")])) = Return (PStr "COMPLETE") /\
  fst (Custom.wait playback (PInt 7) 60000
         (Custom.ECMConnection "http://localhost:9880/api/",
          fresh [reply_result (PStr ""); reply_error (-32000) "busy";
                 reply_result (PStr "COMPLETE")])) = Return (PStr "COMPLETE").
Proof.
  assert (Hq : Forall not_yet [Return (PStr ""); Raise (ECMException (PStr "busy"))]).
  { repeat constructor. }
  assert (H : scripted playback
                [reply_result (PStr ""); reply_error (-32000) "busy";
                 reply_result (PStr "COMPLETE")]
                ([Return (PStr ""); Raise (ECMException (PStr "busy"))] ++
                 [Return (PStr "COMPLETE")])).
  { cbn. repeat (intros _ _; split; [reflexivity|]). exact I. }
  destruct (wait_returns_complete_when_reported playback (PInt 7) 10000
              (Run.ECMConnection "http://localhost:9880/api")
              (Custom.ECMConnection "http://localhost:9880/api/")
              (fresh [reply_result (PStr ""); reply_error (-32000) "busy";
                      reply_result (PStr "COMPLETE")])
              [Return (PStr ""); Raise (ECMException (PStr "busy"))]
              Hq H ltac:(cbn; lia)) as [(st' & E & _) _].
  destruct (wait_returns_complete_when_reported playback (PInt 7) 60000
              (Run.ECMConnection "http://localhost:9880/api")
              (Custom.ECMConnection "http://localhost:9880/api/")
              (fresh [reply_result (PStr ""); reply_error (-32000) "busy";
                      reply_result (PStr "COMPLETE")])
              [Return (PStr ""); Raise (ECMException (PStr "busy"))]
              Hq H ltac:(cbn; lia)) as [_ (st2' & E2 & _)].
  rewrite E, E2. split; reflexivity.
Defined.

(** ** Sessions against any server *)

Lemma prefix_refl l : prefix l l.
Proof. exists []. symmetry. apply app_nil_r. Qed.

Lemma prefix_nil plan : prefix [] plan.
Proof. exists plan. reflexivity. Qed.

Lemma prefix_app_r l p1 p2 : prefix l p1 -> prefix l (p1 ++ p2).
Proof. intros [rest ->]. exists (rest ++ p2). symmetry. apply app_assoc. Qed.

Lemma prefix_app_l p1 l p2 : prefix l p2 -> prefix (p1 ++ l) (p1 ++ p2).
Proof. intros [rest ->]. exists rest. apply app_assoc. Qed.

Lemma follows_weaken {C R A} (m : M C R A) (P Q : list action -> Prop) :
  follows m P -> (forall plan, P plan -> Q plan) -> follows m Q.
Proof.
  intros H HPQ st. destruct (H st) as (l & plan & E & HP & Hr).
  exists l, plan. auto.
Qed.

Lemma follows_ret {C R A} (a : A) : follows (@ret C R A a) (eq []).
Proof. intros st. exists [], []. cbn. rewrite app_nil_r. auto. Qed.

Lemma follows_raise {C R A} e : follows (@raise C R A e) (eq []).
Proof.
  intros st. exists [], []. cbn. rewrite app_nil_r.
  repeat split. apply prefix_nil.
Qed.

Lemma follows_lift {C R A} (r : result A) : follows (@lift C R A r) (eq []).
Proof.
  intros st. exists [], []. cbn. rewrite app_nil_r.
  repeat split. destruct r; [reflexivity | apply prefix_nil].
Qed.

Lemma follows_sleep {C R} ms : follows (@sleep C R ms) (eq [Pause ms]).
Proof. intros st. exists [Pause ms], [Pause ms]. cbn. rewrite actions_app. auto. Qed.

Lemma follows_print {C R} o : follows (@print C R o) (eq []).
Proof. intros st. exists [], []. cbn. rewrite actions_app. auto. Qed.

Lemma follows_print_stderr {C R} o : follows (@print_stderr C R o) (eq []).
Proof. intros st. exists [], []. cbn. rewrite actions_app. auto. Qed.

Lemma follows_bind {C R A B} (m : M C R A) (f : A -> M C R B)
    (P1 P2 : list action -> Prop) :
  follows m P1 -> (forall a, follows (f a) P2) -> (exists p, P2 p) ->
  follows (bind m f) (then_ P1 P2).
Proof.
  intros Hm Hf [p0 Hp0] st. unfold bind.
  destruct (Hm st) as (l1 & p1 & E1 & HP1 & Hr1).
  destruct (m st) as [[a|e] st1]; cbn [fst snd] in *.
  - subst l1. destruct (Hf a st1) as (l2 & p2 & E2 & HP2 & Hr2).
    exists (p1 ++ l2), (p1 ++ p2). rewrite E2, E1, <- app_assoc.
    repeat split.
    + exists p1, p2. auto.
    + destruct (fst (f a st1)); [subst; reflexivity | apply prefix_app_l; exact Hr2].
  - exists l1, (p1 ++ p0). repeat split; [exact E1 | | apply prefix_app_r; exact Hr1].
    exists p1, p0. auto.
Qed.

Lemma then_eq p1 p2 plan : then_ (eq p1) (eq p2) plan -> plan = p1 ++ p2.
Proof. intros (q1 & q2 & <- & <- & ->). reflexivity. Qed.

Lemma follows_seq {C R A B} (m : M C R A) (f : A -> M C R B) p1 p2 :
  follows m (eq p1) -> (forall a, follows (f a) (eq p2)) ->
  follows (bind m f) (eq (p1 ++ p2)).
Proof.
  intros Hm Hf. eapply follows_weaken.
  - apply (follows_bind m f (eq p1) (eq p2) Hm Hf). exists p2. reflexivity.
  - intros plan H. symmetry. apply then_eq. exact H.
Qed.

Lemma follows_ignore {C R A} (m : M C R A) p :
  follows m (eq p) -> follows (ignore m) (eq p).
Proof.
  intros H. unfold ignore. rewrite <- (app_nil_r p).
  apply follows_seq; [exact H | intros; apply follows_ret].
Qed.

Lemma follows_if_not_None {C R A} (o : option A) (body : A -> M C R unit) name :
  (forall x, follows (body x) (eq [Call name])) ->
  follows (if_not_None o body) (eq (if_supplied o name)).
Proof. intros H. destruct o; cbn; [apply H | apply follows_ret]. Qed.

Lemma follows_when {C R} b (m : M C R unit) p :
  follows m (eq p) -> follows (when_ b m) (eq (if b then p else [])).
Proof. intros H. destruct b; cbn; [exact H | apply follows_ret]. Qed.

Lemma follows_for_each {C R A} (xs : list A) (body : A -> M C R unit) :
  (forall x, follows (body x) (eq [])) -> follows (for_each xs body) (eq []).
Proof.
  intros H. induction xs as [|x xs IH]; cbn [for_each].
  - apply follows_ret.
  - change (@nil action) with (@nil action ++ []).
    apply follows_seq; [apply H | intros; exact IH].
Qed.

Lemma run_follows_call {R} (serve : R -> request -> post_outcome * R) m kw :
  follows (Run.call serve m kw) (eq [Call m]).
Proof.
  intros st. exists [Call m], [Call m]. rewrite run_call_actions.
  repeat split. destruct (fst _); [reflexivity | apply prefix_refl].
Qed.

Lemma custom_follows_call {R} (serve : R -> request -> post_outcome * R) m kw :
  follows (Custom.call serve m kw) (eq [Call m]).
Proof.
  intros st. exists [Call m], [Call m]. rewrite custom_call_actions.
  repeat split. destruct (fst _); [reflexivity | apply prefix_refl].
Qed.

Lemma polls_snoc n : polls (S n) = polls n ++ poll.
Proof.
  induction n as [|n IH]; [reflexivity|].
  rewrite (polls_S (S n)), IH at 1. rewrite polls_S, app_assoc. reflexivity.
Qed.

Lemma follows_wait_outcome timeout before after (r : result pyval) :
  wait_outcome timeout before r after ->
  exists l plan,
    after = before ++ l /\ wait_plan timeout plan /\
    match r with
    | Return _ => l = plan
    | Raise _ => prefix l plan
    end.
Proof.
  intros H. destruct r as [s|e]; cbn [wait_outcome] in H.
  - destruct H as (n & Hn & Ha & _). exists (polls n), (polls n).
    repeat split; [exact Ha|]. exists n. auto.
  - destruct H as (_ & k & Hk & Ha).
    exists (polls k ++ [Call "Queue.GetMeasurementState"]), (polls (S k)).
    repeat split; [exact Ha | exists (S k); auto |].
    rewrite polls_snoc. apply prefix_app_l. exists [Pause 250]. reflexivity.
Qed.

Lemma run_follows_wait {R} (serve : R -> request -> post_outcome * R)
    handle timeout :
  follows (Run.wait serve handle timeout) (wait_plan timeout).
Proof.
  intros st. apply (follows_wait_outcome timeout). unfold Run.wait.
  apply (run_wait_loop_outcome serve handle _ _ _ _ eq_refl).
Qed.

Lemma custom_follows_wait {R} (serve : R -> request -> post_outcome * R)
    handle timeout :
  follows (Custom.wait serve handle timeout)
    (then_ (eq [Pause 250]) (wait_plan timeout)).
Proof.
  unfold Custom.wait. apply follows_bind.
  - apply follows_sleep.
  - intros _ st. apply (follows_wait_outcome timeout).
    apply (custom_wait_loop_outcome serve handle _ _ _ _ eq_refl).
  - exists (polls 0). exists 0%nat. split; [lia | reflexivity].
Qed.

(** The end of a released session: the abort and its delay when the status
    is not ["COMPLETE"], then the removal. *)
Lemma run_follows_closing {R} (serve : R -> request -> post_outcome * R)
    handle status :
  follows (when_ (negb (eq_str status "COMPLETE"))
             (print_stderr (OutTimedOut status) ;;
              Run.call serve "Queue.Abort" [("handle", handle)] ;;
              sleep 500) ;;
           Run.call serve "Queue.Remove" [("handle", handle)] ;;
           @ret Run.ECMConnection_ R Z 0) closing.
Proof.
  eapply follows_weaken.
  - apply follows_seq.
    + apply follows_when.
      apply (follows_seq _ _ [] [Call "Queue.Abort"; Pause 500]);
        [apply follows_print_stderr|].
      intros _. apply (follows_seq _ _ [Call "Queue.Abort"] [Pause 500]);
        [apply run_follows_call | intros; apply follows_sleep].
    + intros _. apply (follows_seq _ _ [Call "Queue.Remove"] []);
        [apply run_follows_call | intros; apply follows_ret].
  - intros plan <-. unfold closing.
    destruct (negb (eq_str status "COMPLETE")); cbn; auto.
Qed.

Lemma custom_follows_closing {R} (serve : R -> request -> post_outcome * R)
    handle status :
  follows (when_ (negb (eq_str status "COMPLETE"))
             (print_stderr (OutTimedOut status) ;;
              Custom.call serve "Queue.Abort" [("handle", handle)] ;;
              sleep 500) ;;
           Custom.call serve "Queue.Remove" [("handle", handle)] ;;
           @ret Custom.ECMConnection_ R Z 0) closing.
Proof.
  eapply follows_weaken.
  - apply follows_seq.
    + apply follows_when.
      apply (follows_seq _ _ [] [Call "Queue.Abort"; Pause 500]);
        [apply follows_print_stderr|].
      intros _. apply (follows_seq _ _ [Call "Queue.Abort"] [Pause 500]);
        [apply custom_follows_call | intros; apply follows_sleep].
    + intros _. apply (follows_seq _ _ [Call "Queue.Remove"] []);
        [apply custom_follows_call | intros; apply follows_ret].
  - intros plan <-. unfold closing.
    destruct (negb (eq_str status "COMPLETE")); cbn; auto.
Qed.

Lemma eq_inhab (p : list action) : exists q, p = q.
Proof. exists p. reflexivity. Qed.

Lemma closing_inhab : exists p, closing p.
Proof. exists [Call "Queue.Remove"]. left. reflexivity. Qed.

Lemma wait_plan_inhab timeout : exists p, wait_plan timeout p.
Proof. exists (polls 0), 0%nat. split; [lia | reflexivity]. Qed.

Lemma then_inhab (P Q : list action -> Prop) :
  (exists p, P p) -> (exists q, Q q) -> exists r, then_ P Q r.
Proof. intros [p Hp] [q Hq]. exists (p ++ q), p, q. auto. Qed.

Lemma follows_if {C R A} (b : bool) (m1 m2 : M C R A)
    (P1 P2 : list action -> Prop) :
  follows m1 P1 -> follows m2 P2 ->
  follows (if b then m1 else m2) (fun plan => if b then P1 plan else P2 plan).
Proof. intros H1 H2. destruct b; assumption. Qed.

Lemma if_inhab (b : bool) (P1 P2 : list action -> Prop) :
  (exists p, P1 p) -> (exists q, P2 q) ->
  exists r, (fun plan => if b then P1 plan else P2 plan) r.
Proof. intros H1 H2. destruct b; assumption. Qed.

Lemma run_follows_open_read {R} (fs : string -> option string) path :
  follows (@Run.open_read R fs path) (eq []).
Proof.
  unfold Run.open_read. destruct path as [p|]; [|apply follows_raise].
  destruct (fs p); [apply follows_ret | apply follows_raise].
Qed.

Lemma custom_follows_open_read {R} (fs : string -> option string) path :
  follows (@Custom.open_read R fs path) (eq []).
Proof.
  unfold Custom.open_read. destruct path as [p|]; [|apply follows_raise].
  destruct (fs p); [apply follows_ret | apply follows_raise].
Qed.

Ltac inhab :=
  repeat first [ apply then_inhab | apply eq_inhab | apply closing_inhab
               | apply wait_plan_inhab | apply if_inhab ].

Ltac follow :=
  lazymatch goal with
  | |- follows (bind (when_ (negb (eq_str _ _)) _) _) _ =>
      first [ apply run_follows_closing | apply custom_follows_closing ]
  | |- follows (bind _ _) _ =>
      eapply follows_bind; [ follow | intros; follow | inhab ]
  | |- follows (if _ then _ else _) _ => eapply follows_if; follow
  | |- follows (if_not_None _ _) _ =>
      apply follows_if_not_None; intros; follow
  | |- follows (when_ _ _) _ => apply follows_when; follow
  | |- follows (ignore _) _ => apply follows_ignore; follow
  | |- follows (for_each _ _) _ =>
      apply follows_for_each; intros;
      apply (follows_seq _ _ [] []); [ apply follows_lift | intros; apply follows_print ]
  | |- follows (Run.open_read _ _) _ => apply run_follows_open_read
  | |- follows (Custom.open_read _ _) _ => apply custom_follows_open_read
  | |- follows (Run.call _ _ _) _ => apply run_follows_call
  | |- follows (Custom.call _ _ _) _ => apply custom_follows_call
  | |- follows (Run.wait _ _ _) _ => apply run_follows_wait
  | |- follows (Custom.wait _ _ _) _ => apply custom_follows_wait
  | |- follows (ret _) _ => apply follows_ret
  | |- follows (raise _) _ => apply follows_raise
  | |- follows (lift _) _ => apply follows_lift
  | |- follows (sleep _) _ => apply follows_sleep
  | |- follows (print _) _ => apply follows_print
  | |- follows (print_stderr _) _ => apply follows_print_stderr
  end.

Ltac unthen :=
  repeat match goal with
         | H : then_ _ _ _ |- _ =>
             let p1 := fresh "p" in
             let p2 := fresh "p" in
             let H1 := fresh "H" in
             let H2 := fresh "H" in
             destruct H as (p1 & p2 & H1 & H2 & ->)
         | H : _ = ?p |- _ => is_var p; subst p
         end.

Lemma custom_main_plan {R}
    (serve : R -> request -> post_outcome * R) (fs : string -> option string)
    (args : list Custom.arg) (r0 : R) :
  let out := Custom.main serve fs args (fresh r0) in
  exists plan,
    custom_session_plan (Custom.parse_args args) plan /\
    match fst out with
    | Return _ => actions (trace (snd out)) = plan
    | Raise _ => prefix (actions (trace (snd out))) plan
    end.
Proof.
  cbv zeta. unfold Custom.main.
  set (options := Custom.parse_args args).
  set (ecm := if Custom.o_debug options then _ else _).
  match goal with
  | |- context [let (r, st) := ?X (ecm, fresh r0) in (r, snd st)] =>
      assert (H : follows X (custom_session_plan options))
  end.
  { unfold custom_session_plan.
    destruct (Custom.o_send_trigger options) as [h|].
    - eapply follows_weaken; [follow|].
      intros plan H. unthen. reflexivity.
    - eapply follows_weaken; [follow|].
      intros plan H. unthen.
      destruct (Custom.o_get_laserpowers options).
      + unthen. cbn [app]. rewrite <- ?app_assoc. reflexivity.
      + unthen.
        match goal with
        | H : wait_plan _ _ |- _ => destruct H as (n & Hn & ->)
        end.
        match goal with
        | H : closing ?tail |- _ => exists n, tail; repeat split; [exact Hn | exact H |]
        end.
        unfold custom_configuration. cbn [app]. rewrite <- ?app_assoc.
        cbn [app]. reflexivity. }
  destruct (H (ecm, fresh r0)) as (l & plan & E & HP & Hr).
  exists plan. split; [exact HP|].
  destruct (_ (ecm, fresh r0)) as [r st]. cbn [fst snd] in *.
  cbn in E. subst l. exact Hr.
Qed.

(** X11. Whatever the server does and whatever the command line is, the
    calls and sleeps of a run of [main] of ecm_custom.py are those of one
    plan, in order: the trigger alone; or the creation, the configuration
    calls of the first four options, the laser-power query and the removal;
    or the creation, the configuration calls, the release, the passes of
    the wait (at most one per started 250 of [--timeout]), the abort with
    its delay if any, and the removal.  A run that returns has carried out
    the whole plan, a run that raises a first part of it. *)
Theorem custom_session_keeps_to_its_plan {R}
    (serve : R -> request -> post_outcome * R) (fs : string -> option string)
    (args : list Custom.arg) (r0 : R) :
  let out := Custom.main serve fs args (fresh r0) in
  exists plan,
    custom_session_plan (Custom.parse_args args) plan /\
    match fst out with
    | Return _ => actions (trace (snd out)) = plan
    | Raise _ => prefix (actions (trace (snd out))) plan
    end.
Proof. exact (custom_main_plan serve fs args r0). Qed.

Lemma never_returns_raise {C R A} e : never_returns (@raise C R A e).
Proof. intros st a. discriminate. Qed.

Lemma never_returns_bind_l {C R A B} (m : M C R A) (f : A -> M C R B) :
  never_returns m -> never_returns (bind m f).
Proof.
  intros H st b. unfold bind. specialize (H st).
  destruct (m st) as [[a|e] st1]; cbn [fst] in *; [|discriminate].
  exfalso. apply (H a). reflexivity.
Qed.

Lemma never_returns_bind_r {C R A B} (m : M C R A) (f : A -> M C R B) :
  (forall a, never_returns (f a)) -> never_returns (bind m f).
Proof.
  intros H st b. unfold bind.
  destruct (m st) as [[a|e] st1]; cbn [fst]; [apply H | discriminate].
Qed.

Lemma follows_bind_never {C R A B} (m : M C R A) (f : A -> M C R B)
    (P : list action -> Prop) :
  follows m P -> never_returns m -> follows (bind m f) P.
Proof.
  intros Hm Hn st. unfold bind. specialize (Hn st).
  destruct (Hm st) as (l & plan & E & HP & Hr).
  destruct (m st) as [[a|e] st1]; cbn [fst snd] in *.
  - exfalso. apply (Hn a). reflexivity.
  - exists l, plan. auto.
Qed.

Ltac thenk k := eapply follows_bind; [ follow | intros; k | inhab ].

Lemma run_main_plan {R}
    (serve : R -> request -> post_outcome * R) (fs : string -> option string)
    (args : list Run.arg) (r0 : R) :
  let out := Run.main serve fs args (fresh r0) in
  match Run.parse_args args with
  | Raise e =>
      e = SystemExit 2 /\ fst out = Raise e /\ remote (snd out) = r0 /\
      trace (snd out) =
        parser_error "the following arguments are required: --template"
  | Return options =>
      exists plan,
        run_session_plan options plan /\
        match fst out with
        | Return _ =>
            Run.o_accumulations options = None /\
            actions (trace (snd out)) = plan
        | Raise _ => prefix (actions (trace (snd out))) plan
        end
  end.
Proof.
  cbv zeta. unfold Run.main.
  destruct (Run.parse_args args) as [options|e] eqn:Ep.
  2:{ split; [|repeat split]. unfold Run.parse_args in Ep.
      destruct (Run.o_template _); [discriminate Ep | congruence]. }
  set (ecm := Run.ECMConnection (Run.o_url options)).
  match goal with
  | |- context [let (r, st) := ?X (ecm, fresh r0) in (r, snd st)] => set (x := X)
  end.
  assert (H : follows x (run_session_plan options));
    [|assert (Hn : Run.o_accumulations options <> None -> never_returns x)].
  { unfold x, run_session_plan.
    destruct (Run.o_accumulations options) as [n|]; cbn [if_not_None].
    - eapply follows_weaken.
      + thenk ltac:(thenk ltac:(thenk ltac:(thenk ltac:(
          apply follows_bind_never;
          [ follow
          | apply never_returns_bind_r; intros; apply never_returns_raise ])))).
      + intros plan H. unthen. cbn [app]. rewrite <- ?app_assoc. cbn [app].
        rewrite ?app_nil_r. reflexivity.
    - eapply follows_weaken; [follow|].
      intros plan H. unthen.
      destruct (Run.o_get_laserpowers options).
      + unthen. unfold run_configuration. cbn [app]. rewrite <- ?app_assoc.
        reflexivity.
      + unthen.
        match goal with
        | H : wait_plan _ _ |- _ => destruct H as (n & Hn & ->)
        end.
        match goal with
        | H : closing ?tail |- _ => exists n, tail; repeat split; [exact Hn | exact H |]
        end.
        unfold run_configuration. cbn [app]. rewrite <- ?app_assoc.
        cbn [app]. reflexivity. }
  { intros Hacc. unfold x.
    destruct (Run.o_accumulations options) as [n|]; [|contradiction].
    cbn [if_not_None].
    do 4 (apply never_returns_bind_r; intros).
    apply never_returns_bind_l.
    apply never_returns_bind_r; intros. apply never_returns_raise. }
  destruct (H (ecm, fresh r0)) as (l & plan & E & HP & Hr).
  exists plan. split; [exact HP|].
  specialize (fun Hacc => Hn Hacc (ecm, fresh r0)).
  destruct (x (ecm, fresh r0)) as [r st]. cbn [fst snd] in *.
  cbn in E. subst l. destruct r as [z|e]; [|exact Hr].
  split; [|exact Hr].
  destruct (Run.o_accumulations options) as [n|]; [|reflexivity].
  exfalso. apply (Hn ltac:(discriminate) z). reflexivity.
Qed.

(** X12. The same for ecm_run.py: when the command line is accepted, the
    calls and sleeps of a run of [main] are those of one plan, in order (the
    wait has the fixed budget 10000, so at most 40 passes), in whole when it
    returns and in part when it raises.  With [--accumulations] the plan
    ends at [Measurement.SetAccumulations] and [main] never returns
    normally, whatever the server answers.  When the command line is
    rejected, which is when [--template] is missing, the parser writes its
    usage and its error line to standard error and [main] exits with status
    2: nothing is sent and the server is left alone. *)
Theorem run_session_keeps_to_its_plan {R}
    (serve : R -> request -> post_outcome * R) (fs : string -> option string)
    (args : list Run.arg) (r0 : R) :
  let out := Run.main serve fs args (fresh r0) in
  match Run.parse_args args with
  | Raise e =>
      e = SystemExit 2 /\ fst out = Raise e /\ remote (snd out) = r0 /\
      trace (snd out) =
        parser_error "the following arguments are required: --template"
  | Return options =>
      exists plan,
        run_session_plan options plan /\
        match fst out with
        | Return _ =>
            Run.o_accumulations options = None /\
            actions (trace (snd out)) = plan
        | Raise _ => prefix (actions (trace (snd out))) plan
        end
  end.
Proof. exact (run_main_plan serve fs args r0). Qed.

(** *** Consequences of the plans *)

Lemma count_calls_cons_other m a l :
  action_eqb (Call m) a = false -> count_calls m (a :: l) = count_calls m l.
Proof. intros H. unfold count_calls. cbn [filter]. rewrite H. reflexivity. Qed.

Lemma count_calls_cons_same m l :
  count_calls m (Call m :: l) = S (count_calls m l).
Proof.
  unfold count_calls. cbn [filter action_eqb]. rewrite String.eqb_refl. reflexivity.
Qed.

Lemma action_eqb_call m a : action_eqb (Call m) a = true -> a = Call m.
Proof.
  destruct a as [n|ms]; cbn; [|discriminate].
  intros H. apply String.eqb_eq in H. subst. reflexivity.
Qed.

(** Where the first [Call m] of a list is, what follows any [Call m] is a
    last part of what follows the first. *)
Lemma after_first_call m pre post :
  count_calls m pre = 0%nat ->
  forall l1 l2, pre ++ Call m :: post = l1 ++ Call m :: l2 ->
                exists l, post = l ++ l2.
Proof.
  induction pre as [|a pre IH]; intros Hc l1 l2 E.
  - destruct l1 as [|b l1]; cbn in E; injection E as E.
    + exists []. exact E.
    + exists (l1 ++ [Call m]). rewrite <- app_assoc. exact H.
  - destruct (action_eqb (Call m) a) eqn:Ha.
    + apply action_eqb_call in Ha. subst a.
      rewrite count_calls_cons_same in Hc. discriminate.
    + rewrite (count_calls_cons_other m a pre Ha) in Hc.
      destruct l1 as [|b l1]; cbn in E; injection E as E1 E2.
      * subst a. cbn in Ha. rewrite String.eqb_refl in Ha. discriminate.
      * apply (IH Hc l1 l2 E2).
Qed.

Lemma no_call_no_split m l :
  count_calls m l = 0%nat -> forall l1 l2, l <> l1 ++ Call m :: l2.
Proof.
  intros Hc l1 l2 ->. rewrite count_calls_app, count_calls_cons_same in Hc. lia.
Qed.

Lemma count_calls_prefix m l plan :
  prefix l plan -> (count_calls m l <= count_calls m plan)%nat.
Proof. intros [rest ->]. rewrite count_calls_app. lia. Qed.

Lemma at_most_last_prefix m plan l :
  at_most_last m plan -> prefix l plan ->
  (count_calls m l <= 1)%nat /\
  forall l1 l2, l = l1 ++ Call m :: l2 -> l2 = [].
Proof.
  intros H Hp. pose proof (count_calls_prefix m l plan Hp) as Hc.
  destruct Hp as [rest ->].
  destruct H as [H0 | (body & E & Hb)].
  - split; [lia|]. intros l1 l2 ->.
    exfalso. apply (no_call_no_split m _ H0 l1 (l2 ++ rest)).
    rewrite <- app_assoc. reflexivity.
  - split.
    + rewrite E, count_calls_app, count_calls_cons_same, Hb in Hc.
      cbn in Hc. lia.
    + intros l1 l2 ->.
      destruct (after_first_call m body [] Hb l1 (l2 ++ rest)) as (l & El).
      { rewrite <- E, <- app_assoc. reflexivity. }
      symmetry in El. apply app_eq_nil in El. destruct El as [_ El].
      apply app_eq_nil in El. apply El.
Qed.

Lemma closing_shape tail :
  closing tail ->
  exists body, tail = body ++ [Call "Queue.Remove"] /\
               count_calls "Queue.Remove" body = 0%nat /\
               count_calls "Queue.Continue" tail = 0%nat /\
               Forall after_release tail.
Proof.
  intros [-> | ->].
  - exists []. split; [reflexivity|]. split; [reflexivity|]. split; [reflexivity|].
    constructor; [cbn; auto | constructor].
  - exists [Call "Queue.Abort"; Pause 500].
    split; [reflexivity|]. split; [reflexivity|]. split; [reflexivity|].
    constructor; [cbn; auto|]. constructor; [exact I|].
    constructor; [cbn; auto | constructor].
Qed.

Lemma polls_after_release n : Forall after_release (polls n).
Proof.
  induction n as [|n IH]; [constructor|].
  rewrite polls_S. apply Forall_app. split; [|exact IH].
  repeat constructor.
Qed.

Lemma count_calls_polls_other m n :
  String.eqb m "Queue.GetMeasurementState" = false ->
  count_calls m (polls n) = 0%nat.
Proof.
  intros H. induction n as [|n IH]; [reflexivity|].
  rewrite polls_S, count_calls_app, IH. unfold count_calls. cbn. rewrite H.
  reflexivity.
Qed.

Lemma custom_configuration_count o m :
  m = "Queue.Remove" \/ m = "Queue.Continue" ->
  count_calls m (custom_configuration o) = 0%nat.
Proof.
  intros [-> | ->]; unfold custom_configuration;
    rewrite !count_calls_app, !count_calls_if_supplied by reflexivity;
    destruct (Custom.o_triggers o); reflexivity.
Qed.

Lemma run_configuration_count o m :
  m = "Queue.Remove" \/ m = "Queue.Continue" ->
  count_calls m (run_configuration o) = 0%nat.
Proof.
  intros [-> | ->]; unfold run_configuration;
    rewrite !count_calls_app, !count_calls_if_supplied by reflexivity; reflexivity.
Qed.

Lemma custom_plan_remove o plan :
  custom_session_plan o plan -> at_most_last "Queue.Remove" plan.
Proof.
  unfold custom_session_plan.
  destruct (Custom.o_send_trigger o); [intros ->; left; reflexivity|].
  destruct (Custom.o_get_laserpowers o).
  - intros ->. right.
    match goal with
    | |- context [Call "Queue.Add" :: ?cfg ++ [_; _]] =>
        exists (Call "Queue.Add" :: cfg ++ [Call "Measurement.GetLaserPowers"])
    end.
    split; [cbn [app]; rewrite <- !app_assoc; reflexivity|].
    rewrite count_calls_cons_other by reflexivity.
    rewrite !count_calls_app, !count_calls_if_supplied by reflexivity. reflexivity.
  - intros (n & tail & _ & Ht & ->).
    destruct (closing_shape tail Ht) as (body & -> & Hb & _). right.
    eexists (Call "Queue.Add" :: custom_configuration o ++
             [Call "Queue.Continue"; Pause 250] ++ polls n ++ body).
    split; [do 2 (cbn [app]; rewrite <- ?app_assoc); reflexivity|].
    rewrite count_calls_cons_other by reflexivity.
    rewrite !count_calls_app, custom_configuration_count, count_calls_polls_other,
      Hb by auto.
    reflexivity.
Qed.

Lemma run_plan_remove o plan :
  run_session_plan o plan -> at_most_last "Queue.Remove" plan.
Proof.
  unfold run_session_plan.
  destruct (Run.o_accumulations o).
  { intros ->. left.
    rewrite count_calls_cons_other by reflexivity.
    rewrite !count_calls_app, !count_calls_if_supplied by reflexivity. reflexivity. }
  destruct (Run.o_get_laserpowers o).
  - intros ->. right.
    match goal with
    | |- context [Call "Queue.Add" :: ?cfg ++ [_; _]] =>
        exists (Call "Queue.Add" :: cfg ++ [Call "Measurement.GetLaserPowers"])
    end.
    split; [cbn [app]; rewrite <- !app_assoc; reflexivity|].
    rewrite count_calls_cons_other by reflexivity.
    rewrite !count_calls_app, run_configuration_count by auto. reflexivity.
  - intros (n & tail & _ & Ht & ->).
    destruct (closing_shape tail Ht) as (body & -> & Hb & _). right.
    eexists (Call "Queue.Add" :: run_configuration o ++
             [Call "Queue.Continue"] ++ polls n ++ body).
    split; [do 2 (cbn [app]; rewrite <- ?app_assoc); reflexivity|].
    rewrite count_calls_cons_other by reflexivity.
    rewrite !count_calls_app, run_configuration_count, count_calls_polls_other,
      Hb by auto.
    reflexivity.
Qed.

(** X13. In every run of [main], whatever the server does, [Queue.Remove]
    is issued at most once, and nothing is issued or slept after it.  In
    both files. *)
Theorem remove_is_the_last_thing {R}
    (serve : R -> request -> post_outcome * R) (fs : string -> option string)
    (args : list Custom.arg) (args' : list Run.arg) (r0 : R) :
  let custom := actions (trace (snd (Custom.main serve fs args (fresh r0)))) in
  let run := actions (trace (snd (Run.main serve fs args' (fresh r0)))) in
  ((count_calls "Queue.Remove" custom <= 1)%nat /\
   forall l1 l2, custom = l1 ++ Call "Queue.Remove" :: l2 -> l2 = []) /\
  ((count_calls "Queue.Remove" run <= 1)%nat /\
   forall l1 l2, run = l1 ++ Call "Queue.Remove" :: l2 -> l2 = []).
Proof.
  cbv zeta. split.
  - destruct (custom_main_plan serve fs args r0) as (plan & HP & Hr).
    apply (at_most_last_prefix _ plan); [apply (custom_plan_remove _ _ HP)|].
    destruct (fst _); [rewrite Hr; apply prefix_refl | exact Hr].
  - pose proof (run_main_plan serve fs args' r0) as H. cbv zeta in H.
    destruct (Run.parse_args args') as [options|e].
    + destruct H as (plan & HP & Hr).
      apply (at_most_last_prefix _ plan); [apply (run_plan_remove _ _ HP)|].
      destruct (fst _); [destruct Hr as [_ ->]; apply prefix_refl | exact Hr].
    + destruct H as (_ & _ & _ & Ht). rewrite Ht. cbn. split; [lia|].
      intros l1 l2 E. destruct l1; discriminate E.
Qed.

Lemma after_release_no_continue l :
  Forall after_release l -> count_calls "Queue.Continue" l = 0%nat.
Proof.
  induction 1 as [|a l Ha _ IH]; [reflexivity|].
  rewrite count_calls_cons_other; [exact IH|].
  destruct a as [m|ms]; [|reflexivity].
  cbn in Ha. destruct Ha as [-> | [-> | ->]]; reflexivity.
Qed.

Lemma releases_once_prefix plan l :
  releases_once plan -> prefix l plan ->
  (count_calls "Queue.Continue" l <= 1)%nat /\
  forall l1 l2, l = l1 ++ Call "Queue.Continue" :: l2 -> Forall after_release l2.
Proof.
  intros H Hp. pose proof (count_calls_prefix "Queue.Continue" l plan Hp) as Hc.
  destruct Hp as [rest ->].
  destruct H as [H0 | (pre & post & E & Hpre & Hpost)].
  - split; [lia|]. intros l1 l2 ->.
    exfalso. apply (no_call_no_split _ _ H0 l1 (l2 ++ rest)).
    rewrite <- app_assoc. reflexivity.
  - split.
    + rewrite E, count_calls_app, count_calls_cons_same, Hpre,
        (after_release_no_continue post Hpost) in Hc. lia.
    + intros l1 l2 ->.
      destruct (after_first_call _ pre post Hpre l1 (l2 ++ rest)) as (l & El).
      { rewrite <- E, <- app_assoc. reflexivity. }
      rewrite El in Hpost. apply Forall_app in Hpost. destruct Hpost as [_ Hpost].
      apply Forall_app in Hpost. apply Hpost.
Qed.

Lemma custom_plan_release o plan :
  custom_session_plan o plan -> releases_once plan.
Proof.
  unfold custom_session_plan.
  destruct (Custom.o_send_trigger o); [intros ->; left; reflexivity|].
  destruct (Custom.o_get_laserpowers o).
  - intros ->. left.
    rewrite count_calls_cons_other by reflexivity.
    rewrite !count_calls_app, !count_calls_if_supplied by reflexivity. reflexivity.
  - intros (n & tail & _ & Ht & ->).
    destruct (closing_shape tail Ht) as (body & _ & _ & _ & Hf). right.
    exists (Call "Queue.Add" :: custom_configuration o), (Pause 250 :: polls n ++ tail).
    split; [cbn [app]; reflexivity|]. split.
    + rewrite count_calls_cons_other by reflexivity.
      apply custom_configuration_count. auto.
    + constructor; [exact I|]. apply Forall_app. split; [apply polls_after_release|].
      exact Hf.
Qed.

Lemma run_plan_release o plan :
  run_session_plan o plan -> releases_once plan.
Proof.
  unfold run_session_plan.
  destruct (Run.o_accumulations o).
  { intros ->. left.
    rewrite count_calls_cons_other by reflexivity.
    rewrite !count_calls_app, !count_calls_if_supplied by reflexivity. reflexivity. }
  destruct (Run.o_get_laserpowers o).
  - intros ->. left.
    rewrite count_calls_cons_other by reflexivity.
    rewrite !count_calls_app, run_configuration_count by auto. reflexivity.
  - intros (n & tail & _ & Ht & ->).
    destruct (closing_shape tail Ht) as (body & _ & _ & _ & Hf). right.
    exists (Call "Queue.Add" :: run_configuration o), (polls n ++ tail).
    split; [cbn [app]; reflexivity|]. split.
    + rewrite count_calls_cons_other by reflexivity.
      apply run_configuration_count. auto.
    + apply Forall_app. split; [apply polls_after_release | exact Hf].
Qed.

(** X14. In every run of [main], whatever the server does, the measurement
    is released ([Queue.Continue]) at most once, and after the release the
    session only sleeps, queries the status, aborts and removes: no
    configuration call follows the release.  In both files. *)
Theorem nothing_is_configured_after_release {R}
    (serve : R -> request -> post_outcome * R) (fs : string -> option string)
    (args : list Custom.arg) (args' : list Run.arg) (r0 : R) :
  let custom := actions (trace (snd (Custom.main serve fs args (fresh r0)))) in
  let run := actions (trace (snd (Run.main serve fs args' (fresh r0)))) in
  ((count_calls "Queue.Continue" custom <= 1)%nat /\
   forall l1 l2, custom = l1 ++ Call "Queue.Continue" :: l2 ->
                 Forall after_release l2) /\
  ((count_calls "Queue.Continue" run <= 1)%nat /\
   forall l1 l2, run = l1 ++ Call "Queue.Continue" :: l2 ->
                 Forall after_release l2).
Proof.
  cbv zeta. split.
  - destruct (custom_main_plan serve fs args r0) as (plan & HP & Hr).
    apply (releases_once_prefix plan); [apply (custom_plan_release _ _ HP)|].
    destruct (fst _); [rewrite Hr; apply prefix_refl | exact Hr].
  - pose proof (run_main_plan serve fs args' r0) as H. cbv zeta in H.
    destruct (Run.parse_args args') as [options|e].
    + destruct H as (plan & HP & Hr).
      apply (releases_once_prefix plan); [apply (run_plan_release _ _ HP)|].
      destruct (fst _); [destruct Hr as [_ ->]; apply prefix_refl | exact Hr].
    + destruct H as (_ & _ & _ & Ht). rewrite Ht. cbn. split; [lia|].
      intros l1 l2 E. destruct l1; discriminate E.
Qed.

(** *** The handle *)

Ltac admits_handle :=
  split; [ intros req _ Hp; cbn [names_handle]; rewrite Hp; reflexivity
         | intros; exact I ].

Ltac appender :=
  lazymatch goal with
  | |- appends _ (bind _ _) => apply appends_bind; [ appender | intros; appender ]
  | |- appends _ (if ?b then _ else _) => destruct b; appender
  | |- appends _ (if_not_None _ _) => apply appends_if_not_None; intros; appender
  | |- appends _ (when_ _ _) => apply appends_when; appender
  | |- appends _ (ignore _) => apply appends_ignore; appender
  | |- appends _ (for_each _ _) => apply appends_for_each; intros; appender
  | |- appends _ (Run.call _ _ _) => apply run_appends_call; admits_handle
  | |- appends _ (Custom.call _ _ _) => apply custom_appends_call; admits_handle
  | |- appends _ (Run.wait _ _ _) =>
      apply run_appends_wait; [ admits_handle | exact I ]
  | |- appends _ (Custom.wait _ _ _) =>
      apply custom_appends_wait; [ admits_handle | exact I ]
  | |- appends _ (ret _) => apply appends_ret
  | |- appends _ (raise _) => apply appends_raise
  | |- appends _ (lift _) => apply appends_lift
  | |- appends _ (sleep _) => apply appends_emit; exact I
  | |- appends _ (print _) => apply appends_emit; exact I
  | |- appends _ (print_stderr _) => apply appends_emit; exact I
  end.

Lemma names_handle_posts handle evs :
  Forall (names_handle handle) evs ->
  Forall (fun req => dict_get "handle" (rpc_params (req_json req)) = Some handle)
    (posts evs).
Proof.
  induction 1 as [|e evs He _ IH]; [constructor|].
  destruct e; cbn [posts flat_map app]; try exact IH.
  constructor; [exact He | exact IH].
Qed.

Lemma custom_main_threads_handle {R} (serve : R -> request -> post_outcome * R)
    (fs : string -> option string) (r0 : R) (path xml : string)
    (args : list Custom.arg) :
  fs path = Some xml ->
  Custom.o_send_trigger (Custom.parse_args args) = None ->
  Custom.o_template (Custom.parse_args args) = Some path ->
  threads_handle serve r0 xml (Custom.main serve fs args (fresh r0)).
Proof.
  intros Hfs Htrig Htmpl. unfold Custom.main.
  set (options := Custom.parse_args args) in *. rewrite Htrig, Htmpl.
  unfold Custom.open_read. rewrite Hfs.
  set (ecm := if Custom.o_debug options then _ else _).
  match goal with
  | |- context [bind (ret xml) ?k (ecm, fresh r0)] =>
      rewrite (bind_ok (ret xml) k (ecm, fresh r0) xml (ecm, fresh r0) eq_refl)
  end.
  match goal with
  | |- context [bind (Custom.call serve "Queue.Add" ?kw) ?REST _] =>
      set (rest := REST);
      assert (Ha : forall handle, appends (names_handle handle) (rest handle))
        by (intros handle; unfold rest; appender)
  end.
  unfold bind. rewrite custom_call_spec. cbv zeta. cbn [remote fresh trace].
  set (add := custom_request ecm "Queue.Add" _).
  exists add.
  destruct (rpc_result (fst (serve r0 add))) as [handle|e] eqn:E.
  - destruct (Ha handle (custom_next ecm,
                         {| remote := snd (serve r0 add);
                            trace := [] ++ custom_sent ecm "Queue.Add" ++ [Post add] |}))
      as (evs & Et & Hf).
    destruct (rest handle _) as [r st]. cbn [fst snd] in *.
    exists (posts evs). rewrite Et. cbn [trace app].
    rewrite !posts_app, (proj1 (custom_sent_silent _ _)).
    repeat split. apply names_handle_posts. exact Hf.
  - cbn [fst snd trace app]. exists [].
    rewrite !posts_app, (proj1 (custom_sent_silent _ _)).
    repeat split.
Qed.

Lemma run_main_threads_handle {R} (serve : R -> request -> post_outcome * R)
    (fs : string -> option string) (r0 : R) (path xml : string)
    (args : list Run.arg) (options : Run.options) :
  fs path = Some xml ->
  Run.parse_args args = Return options ->
  Run.o_template options = Some path ->
  threads_handle serve r0 xml (Run.main serve fs args (fresh r0)).
Proof.
  intros Hfs Hargs Htmpl. unfold Run.main. rewrite Hargs, Htmpl.
  unfold Run.open_read. rewrite Hfs.
  set (ecm := Run.ECMConnection (Run.o_url options)).
  match goal with
  | |- context [bind (ret xml) ?k (ecm, fresh r0)] =>
      rewrite (bind_ok (ret xml) k (ecm, fresh r0) xml (ecm, fresh r0) eq_refl)
  end.
  match goal with
  | |- context [bind (Run.call serve "Queue.Add" ?kw) ?REST _] =>
      set (rest := REST);
      assert (Ha : forall handle, appends (names_handle handle) (rest handle))
        by (intros handle; unfold rest; appender)
  end.
  unfold bind. rewrite run_call_spec. cbv zeta. cbn [remote fresh trace].
  set (add := run_request ecm "Queue.Add" _).
  exists add.
  assert (Hp : posts ([] ++ Post add :: run_printed (fst (serve r0 add))) = [add]).
  { cbn [app posts flat_map].
    change (flat_map _ (run_printed ?o)) with (posts (run_printed o)).
    rewrite (proj1 (run_printed_silent _)). reflexivity. }
  destruct (rpc_result (fst (serve r0 add))) as [handle|e] eqn:E.
  - destruct (Ha handle (run_next ecm,
                         {| remote := snd (serve r0 add);
                            trace := [] ++ Post add ::
                                       run_printed (fst (serve r0 add)) |}))
      as (evs & Et & Hf).
    destruct (rest handle _) as [r st]. cbn [fst snd trace] in *.
    exists (posts evs). rewrite Et, posts_app, Hp.
    repeat split. apply names_handle_posts. exact Hf.
  - cbn [fst snd trace]. exists []. rewrite Hp. repeat split.
Qed.

(** X15. When the template can be read, the first request of a session is
    [Queue.Add] with [paused=True], [monitor=False] and the text of the
    template.  If that call fails, [main] raises its exception and sends
    nothing else.  If it returns a handle, every later request of the
    session, whatever the server answers, carries that handle as its
    [handle] parameter.  In both files (in ecm_custom.py unless
    [--send-trigger] is given). *)
Theorem every_request_names_the_handle {R}
    (serve : R -> request -> post_outcome * R) (fs : string -> option string)
    (r0 : R) (path xml : string)
    (args : list Custom.arg) (args' : list Run.arg) (options' : Run.options) :
  fs path = Some xml ->
  (Custom.o_send_trigger (Custom.parse_args args) = None ->
   Custom.o_template (Custom.parse_args args) = Some path ->
   threads_handle serve r0 xml (Custom.main serve fs args (fresh r0))) /\
  (Run.parse_args args' = Return options' ->
   Run.o_template options' = Some path ->
   threads_handle serve r0 xml (Run.main serve fs args' (fresh r0))).
Proof.
  intros Hfs. split.
  - apply custom_main_threads_handle. exact Hfs.
  - apply run_main_threads_handle. exact Hfs.
Qed.

Lemma every_request_names_the_handle_witness :
  threads_handle (busy_instrument (reply_result PNone)) tt "<template/>"
    (Custom.main (busy_instrument (reply_result PNone)) one_template
       [Custom.Template "t.wxm"; Custom.Exposure 100; Custom.TimeoutMs 250]
       (fresh tt)) /\
  threads_handle (busy_instrument (reply_result PNone)) tt "<template/>"
    (Run.main (busy_instrument (reply_result PNone)) one_template
       [Run.Template "t.wxm"; Run.Exposure 100] (fresh tt)).
Proof.
  match eval vm_compute in (Run.parse_args [Run.Template "t.wxm"; Run.Exposure 100]) with
  | Return ?o =>
      destruct (every_request_names_the_handle
                  (busy_instrument (reply_result PNone)) one_template tt
                  "t.wxm" "<template/>"
                  [Custom.Template "t.wxm"; Custom.Exposure 100; Custom.TimeoutMs 250]
                  [Run.Template "t.wxm"; Run.Exposure 100] o eq_refl) as [A B]
  end.
  split; [apply A | apply B]; reflexivity.
Defined.

(** *** Sessions that send one request, or none *)

Lemma last_value_default {A B} (pick : A -> option B) args (default : B) :
  (forall a, In a args -> pick a = None) ->
  last_value pick args default = default.
Proof.
  unfold last_value. induction args as [|a args IH]; intros H; cbn [fold_left].
  - reflexivity.
  - rewrite (H a (or_introl eq_refl)). apply IH.
    intros a' Hin. apply H. right. exact Hin.
Qed.

(** X16. With [--send-trigger h], [main] of ecm_custom.py sends exactly one
    request, [Measurement.Trigger] with [handle=h], and never sleeps.  It
    returns 0 when the call returns and raises what the call raises.  This
    holds for every server and every disk: no template is read, the other
    options are not looked at. *)
Theorem trigger_is_the_only_request {R}
    (serve : R -> request -> post_outcome * R) (fs : string -> option string)
    (args : list Custom.arg) (r0 : R) (h : Z) :
  Custom.o_send_trigger (Custom.parse_args args) = Some h ->
  let out := Custom.main serve fs args (fresh r0) in
  exists req,
    posts (trace (snd out)) = [req] /\
    method_of req = "Measurement.Trigger" /\
    rpc_params (req_json req) = [("handle", PInt h)] /\
    sleeps (trace (snd out)) = [] /\
    fst out = match rpc_result (fst (serve r0 req)) with
              | Return _ => Return 0
              | Raise e => Raise e
              end.
Proof.
  intros Htrig. unfold Custom.main.
  set (options := Custom.parse_args args) in *. rewrite Htrig.
  set (ecm := if Custom.o_debug options then _ else _).
  unfold bind. rewrite custom_call_spec. cbv zeta. cbn [remote fresh trace app].
  set (req := custom_request ecm "Measurement.Trigger" _).
  exists req.
  destruct (custom_sent_silent ecm "Measurement.Trigger") as (Hp & _ & Hs).
  destruct (rpc_result (fst (serve r0 req))) as [v|e];
    cbn [ret fst snd trace]; rewrite posts_app, Hp;
    unfold sleeps; rewrite flat_map_app; fold (sleeps (custom_sent ecm "Measurement.Trigger"));
    rewrite Hs; repeat split.
Qed.

Lemma trigger_is_the_only_request_witness :
  exists req,
    posts (trace (snd
      (Custom.main playback one_template [Custom.SendTrigger 7]
         (fresh [reply_result (PBool true)])))) = [req] /\
    rpc_params (req_json req) = [("handle", PInt 7)] /\
    fst (Custom.main playback one_template [Custom.SendTrigger 7]
           (fresh [reply_result (PBool true)])) = Return 0.
Proof.
  destruct (trigger_is_the_only_request playback one_template
              [Custom.SendTrigger 7] [reply_result (PBool true)] 7 eq_refl)
    as (req & Hp & Hm & Hk & Hs & Hr).
  exists req. split; [exact Hp | split; [exact Hk | reflexivity]].
Defined.

(** X17. A session that cannot read its template sends nothing and leaves
    the server alone.  In ecm_custom.py (without [--send-trigger]) a missing
    [--template] makes [open(None)] raise [TypeError], and nothing is
    written.  In ecm_run.py the option is required: the parser writes its
    usage and the error line to standard error and exits with status 2, and
    that is all [main] does.  In both files a path that cannot be opened
    raises [OSError], and nothing is written. *)
Theorem nothing_is_sent_without_a_template {R}
    (serve : R -> request -> post_outcome * R) (fs : string -> option string)
    (args : list Custom.arg) (args' : list Run.arg) (w : world R) :
  (Custom.o_send_trigger (Custom.parse_args args) = None ->
   match Custom.o_template (Custom.parse_args args) with
   | None => Custom.main serve fs args w = (Raise TypeError, w)
   | Some path => fs path = None -> Custom.main serve fs args w = (Raise OSError, w)
   end) /\
  ((forall path, ~ In (Run.Template path) args') ->
   Run.main serve fs args' w =
     (Raise (SystemExit 2),
      {| remote := remote w;
         trace := trace w ++
                  [Stderr OutUsage;
                   Stderr (OutParserError
                             "the following arguments are required: --template")] |})) /\
  (forall options' path,
     Run.parse_args args' = Return options' ->
     Run.o_template options' = Some path -> fs path = None ->
     Run.main serve fs args' w = (Raise OSError, w)).
Proof.
  split; [|split].
  - intros Htrig. unfold Custom.main.
    set (options := Custom.parse_args args) in *. rewrite Htrig.
    destruct (Custom.o_template options) as [path|]; [intros Hfs|];
      unfold Custom.open_read; rewrite ?Hfs; reflexivity.
  - intros Hno. unfold Run.main.
    replace (Run.parse_args args') with (@Raise Run.options (SystemExit 2));
      [reflexivity|].
    unfold Run.parse_args. cbn [Run.o_template].
    rewrite (last_value_default _ args' None); [reflexivity|].
    intros a Hin. destruct a; try reflexivity.
    exfalso. exact (Hno _ Hin).
  - intros options' path Hargs Htmpl Hfs. unfold Run.main.
    rewrite Hargs, Htmpl. unfold Run.open_read. rewrite Hfs. reflexivity.
Qed.

Lemma nothing_is_sent_without_a_template_witness :
  Custom.main playback one_template [Custom.Exposure 100] (fresh []) =
    (Raise TypeError, fresh []) /\
  Custom.main playback one_template [Custom.Template "missing.wxm"] (fresh []) =
    (Raise OSError, fresh []) /\
  Run.main playback one_template [Run.Exposure 100] (fresh []) =
    (Raise (SystemExit 2),
     {| remote := [];
        trace := [Stderr OutUsage;
                  Stderr (OutParserError
                            "the following arguments are required: --template")] |}) /\
  Run.main playback one_template [Run.Template "missing.wxm"] (fresh []) =
    (Raise OSError, fresh []).
Proof.
  split; [|split; [|split]].
  - exact (proj1 (nothing_is_sent_without_a_template playback one_template
                    [Custom.Exposure 100] [] (fresh [])) eq_refl).
  - exact (proj1 (nothing_is_sent_without_a_template playback one_template
                    [Custom.Template "missing.wxm"] [] (fresh [])) eq_refl eq_refl).
  - apply (proj1 (proj2 (nothing_is_sent_without_a_template playback one_template
                           [] [Run.Exposure 100] (fresh [])))).
    intros path [H|[]]. discriminate H.
  - match eval vm_compute in (Run.parse_args [Run.Template "missing.wxm"]) with
    | Return ?o =>
        exact (proj2 (proj2 (nothing_is_sent_without_a_template playback one_template
                               [] [Run.Template "missing.wxm"] (fresh [])))
                 o "missing.wxm" eq_refl eq_refl eq_refl)
    end.
Defined.

(** *** Sessions on a server that answers every call *)

Lemma custom_wait_completes {R} (serve : R -> request -> post_outcome * R)
    handle timeout st :
  always_complete serve -> 0 < timeout ->
  exists st',
    Custom.wait serve handle timeout st = (Return (PStr "COMPLETE"), st') /\
    actions (trace (snd st')) = actions (trace (snd st)) ++ Pause 250 :: poll.
Proof.
  intros Hc Ht. rewrite custom_wait_unfold.
  set (st0 := (fst st, _)).
  assert (A0 : actions (trace (snd st0)) = actions (trace (snd st)) ++ [Pause 250])
    by (subst st0; cbn [snd trace]; rewrite actions_app; reflexivity).
  pose proof (custom_wait_loop_pass serve handle (PStr "") timeout st0 eq_refl Ht) as P.
  cbv zeta in P.
  match type of P with
  | context [rpc_result (fst (serve ?r ?q))] => rewrite (Hc r q eq_refl) in P
  end.
  destruct P as (st' & E & _ & A).
  exists st'. rewrite E, custom_wait_loop_done by (left; reflexivity).
  split; [reflexivity|]. rewrite A, A0, <- app_assoc. reflexivity.
Qed.

Lemma run_wait_completes {R} (serve : R -> request -> post_outcome * R)
    handle timeout st :
  always_complete serve -> 0 < timeout ->
  exists st',
    Run.wait serve handle timeout st = (Return (PStr "COMPLETE"), st') /\
    actions (trace (snd st')) = actions (trace (snd st)) ++ poll.
Proof.
  intros Hc Ht. unfold Run.wait.
  pose proof (run_wait_loop_pass serve handle (PStr "") timeout st eq_refl Ht) as P.
  cbv zeta in P.
  match type of P with
  | context [rpc_result (fst (serve ?r ?q))] => rewrite (Hc r q eq_refl) in P
  end.
  destruct P as (st' & E & _ & A).
  exists st'. rewrite E, run_wait_loop_done by (left; reflexivity).
  split; [reflexivity | exact A].
Qed.

Lemma custom_remove_ok {R} (serve : R -> request -> post_outcome * R) handle st :
  succeeds serve "Queue.Remove" ->
  exists st',
    (Custom.call serve "Queue.Remove" [("handle", handle)] ;; ret 0) st =
      (Return 0, st') /\
    actions (trace (snd st')) = actions (trace (snd st)) ++ [Call "Queue.Remove"].
Proof.
  intros H.
  destruct (custom_call_ok serve "Queue.Remove" H [("handle", handle)] st)
    as (v & st' & E & A).
  exists st'. rewrite (bind_ok _ _ _ _ _ E). split; [reflexivity | exact A].
Qed.

Lemma run_remove_ok {R} (serve : R -> request -> post_outcome * R) handle st :
  succeeds serve "Queue.Remove" ->
  exists st',
    (Run.call serve "Queue.Remove" [("handle", handle)] ;; ret 0) st =
      (Return 0, st') /\
    actions (trace (snd st')) = actions (trace (snd st)) ++ [Call "Queue.Remove"].
Proof.
  intros H.
  destruct (run_call_ok serve "Queue.Remove" H [("handle", handle)] st)
    as (v & st' & E & A).
  exists st'. rewrite (bind_ok _ _ _ _ _ E). split; [reflexivity | exact A].
Qed.

Lemma custom_completed_session {R}
    (serve : R -> request -> post_outcome * R) (fs : string -> option string)
    (r0 : R) (args : list Custom.arg) (path xml : string) :
  always_complete serve -> (forall m, succeeds serve m) ->
  fs path = Some xml ->
  Custom.o_send_trigger (Custom.parse_args args) = None ->
  Custom.o_get_laserpowers (Custom.parse_args args) = false ->
  Custom.o_template (Custom.parse_args args) = Some path ->
  0 < Custom.o_timeout (Custom.parse_args args) ->
  let out := Custom.main serve fs args (fresh r0) in
  fst out = Return 0 /\
  actions (trace (snd out)) =
    Call "Queue.Add" :: custom_configuration (Custom.parse_args args) ++
    [Call "Queue.Continue"; Pause 250;
     Call "Queue.GetMeasurementState"; Pause 250; Call "Queue.Remove"].
Proof.
  intros Hc H Hfs Htrig Hpow Htmpl Ht out. subst out.
  destruct (custom_main_until_release serve fs args (fresh r0) path xml
              Htrig Hpow Htmpl Hfs (fun m _ _ => H m)) as (handle & st1 & E & A1).
  rewrite E, snd_main_result, main_result.
  destruct (custom_wait_completes serve handle _ st1 Hc Ht) as (st2 & Ew & A2).
  rewrite (bind_ok _ _ _ _ _ Ew).
  change (eq_str (PStr "COMPLETE") "COMPLETE") with true. cbn [negb when_].
  rewrite (bind_ok (ret tt) _ st2 tt st2 eq_refl).
  destruct (custom_remove_ok serve handle st2 (H _)) as (st3 & Er & A3).
  rewrite Er. split; [reflexivity|].
  cbn [snd]. rewrite A3, A2, A1. cbn [fresh trace actions flat_map app poll].
  rewrite <- !app_assoc. reflexivity.
Qed.

Lemma run_completed_session {R}
    (serve : R -> request -> post_outcome * R) (fs : string -> option string)
    (r0 : R) (args : list Run.arg) (options : Run.options) (path xml : string) :
  always_complete serve -> (forall m, succeeds serve m) ->
  fs path = Some xml ->
  Run.parse_args args = Return options ->
  Run.o_accumulations options = None ->
  Run.o_get_laserpowers options = false ->
  Run.o_template options = Some path ->
  let out := Run.main serve fs args (fresh r0) in
  fst out = Return 0 /\
  actions (trace (snd out)) =
    Call "Queue.Add" :: run_configuration options ++
    [Call "Queue.Continue";
     Call "Queue.GetMeasurementState"; Pause 250; Call "Queue.Remove"].
Proof.
  intros Hc H Hfs Hargs Hacc Hpow Htmpl out. subst out.
  destruct (run_main_until_release serve fs args (fresh r0) options path xml
              Hargs Hacc Hpow Htmpl Hfs (fun m _ _ => H m)) as (handle & st1 & E & A1).
  rewrite E, snd_main_result, main_result.
  destruct (run_wait_completes serve handle 10000 st1 Hc ltac:(lia)) as (st2 & Ew & A2).
  rewrite (bind_ok _ _ _ _ _ Ew).
  change (eq_str (PStr "COMPLETE") "COMPLETE") with true. cbn [negb when_].
  rewrite (bind_ok (ret tt) _ st2 tt st2 eq_refl).
  destruct (run_remove_ok serve handle st2 (H _)) as (st3 & Er & A3).
  rewrite Er. split; [reflexivity|].
  cbn [snd]. rewrite A3, A2, A1. cbn [fresh trace actions flat_map app poll].
  rewrite <- !app_assoc. reflexivity.
Qed.

(** X18. When every call returns normally and the first status query
    answers ["COMPLETE"], a full session returns 0 after creating the
    measurement, making the configuration calls of its options, releasing
    it, querying the status once, sleeping 250 ms and removing it:
    [Queue.Abort] is not called.  ecm_custom.py, with a positive
    [--timeout], also sleeps 250 ms between the release and the query;
    ecm_run.py does not. *)
Theorem a_completed_measurement_is_removed {R}
    (serve : R -> request -> post_outcome * R) (fs : string -> option string)
    (r0 : R) (path xml : string)
    (args : list Custom.arg) (args' : list Run.arg) (options' : Run.options) :
  always_complete serve -> (forall m, succeeds serve m) ->
  fs path = Some xml ->
  (Custom.o_send_trigger (Custom.parse_args args) = None ->
   Custom.o_get_laserpowers (Custom.parse_args args) = false ->
   Custom.o_template (Custom.parse_args args) = Some path ->
   0 < Custom.o_timeout (Custom.parse_args args) ->
   let out := Custom.main serve fs args (fresh r0) in
   fst out = Return 0 /\
   actions (trace (snd out)) =
     Call "Queue.Add" :: custom_configuration (Custom.parse_args args) ++
     [Call "Queue.Continue"; Pause 250;
      Call "Queue.GetMeasurementState"; Pause 250; Call "Queue.Remove"]) /\
  (Run.parse_args args' = Return options' ->
   Run.o_accumulations options' = None ->
   Run.o_get_laserpowers options' = false ->
   Run.o_template options' = Some path ->
   let out := Run.main serve fs args' (fresh r0) in
   fst out = Return 0 /\
   actions (trace (snd out)) =
     Call "Queue.Add" :: run_configuration options' ++
     [Call "Queue.Continue";
      Call "Queue.GetMeasurementState"; Pause 250; Call "Queue.Remove"]).
Proof.
  intros Hc H Hfs. split.
  - intros. apply (custom_completed_session serve fs r0 args path xml); assumption.
  - intros. apply (run_completed_session serve fs r0 args' options' path xml);
      assumption.
Qed.

Lemma a_completed_measurement_is_removed_witness :
  actions (trace (snd
    (Custom.main (ready_instrument) one_template
       [Custom.Template "t.wxm"; Custom.Filename "scan"] (fresh tt)))) =
    [Call "Queue.Add"; Call "Measurement.SetFilename";
     Call "Measurement.SetMapUseStage";
     Call "Queue.Continue"; Pause 250;
     Call "Queue.GetMeasurementState"; Pause 250; Call "Queue.Remove"] /\
  fst (Run.main ready_instrument one_template
         [Run.Template "t.wxm"; Run.Filename "scan"] (fresh tt)) = Return 0.
Proof.
  assert (Hc : always_complete ready_instrument).
  { intros r req Hq. unfold ready_instrument.
    unfold is_status_query in Hq. rewrite Hq. reflexivity. }
  assert (H : forall m, succeeds ready_instrument m).
  { intros m r req _. unfold ready_instrument.
    destruct (String.eqb (method_of req) "Queue.GetMeasurementState");
      eexists; reflexivity. }
  match eval vm_compute in (Run.parse_args [Run.Template "t.wxm"; Run.Filename "scan"]) with
  | Return ?o =>
      destruct (a_completed_measurement_is_removed ready_instrument one_template tt
                  "t.wxm" "<template/>"
                  [Custom.Template "t.wxm"; Custom.Filename "scan"]
                  [Run.Template "t.wxm"; Run.Filename "scan"] o Hc H eq_refl)
        as [A B]
  end.
  split.
  - exact (proj2 (A eq_refl eq_refl eq_refl eq_refl)).
  - exact (proj1 (B eq_refl eq_refl eq_refl eq_refl)).
Defined.

(** X19. With a [--timeout] of zero or less, [main] of ecm_custom.py never
    asks for the status: on a server that answers every call, it releases
    the measurement, sleeps 250 ms, aborts it, sleeps 500 ms, removes it and
    returns 0, whatever the state of the measurement is. *)
Theorem a_spent_budget_aborts_unasked {R}
    (serve : R -> request -> post_outcome * R) (fs : string -> option string)
    (r0 : R) (path xml : string) (args : list Custom.arg) :
  (forall m, succeeds serve m) ->
  fs path = Some xml ->
  Custom.o_send_trigger (Custom.parse_args args) = None ->
  Custom.o_get_laserpowers (Custom.parse_args args) = false ->
  Custom.o_template (Custom.parse_args args) = Some path ->
  Custom.o_timeout (Custom.parse_args args) <= 0 ->
  let out := Custom.main serve fs args (fresh r0) in
  fst out = Return 0 /\
  actions (trace (snd out)) =
    Call "Queue.Add" :: custom_configuration (Custom.parse_args args) ++
    [Call "Queue.Continue"; Pause 250;
     Call "Queue.Abort"; Pause 500; Call "Queue.Remove"].
Proof.
  intros H Hfs Htrig Hpow Htmpl Ht out. subst out.
  destruct (custom_main_until_release serve fs args (fresh r0) path xml
              Htrig Hpow Htmpl Hfs (fun m _ _ => H m)) as (handle & st1 & E & A1).
  rewrite E, snd_main_result, main_result.
  rewrite (bind_ok _ _ st1 (PStr "")
             (fst st1, {| remote := remote (snd st1);
                          trace := trace (snd st1) ++ [Sleep 250] |}))
    by (rewrite custom_wait_unfold; apply custom_wait_loop_done; right; exact Ht).
  set (st2 := (fst st1, _)).
  assert (A2 : actions (trace (snd st2)) = actions (trace (snd st1)) ++ [Pause 250])
    by (subst st2; cbn [snd trace]; rewrite actions_app; reflexivity).
  clearbody st2.
  change (eq_str (PStr "") "COMPLETE") with false. cbn [negb when_].
  unfold print_stderr, sleep.
  set (st3 := snd (emit (Stderr (OutTimedOut (PStr ""))) st2)).
  assert (A3 : actions (trace (snd st3)) = actions (trace (snd st2))).
  { subst st3. cbn. rewrite actions_app. cbn. apply app_nil_r. }
  destruct (custom_call_ok serve "Queue.Abort" (H _) [("handle", handle)] st3)
    as (v & st4 & E4 & A4).
  set (st5 := snd (emit (Sleep 500) st4)).
  assert (A5 : actions (trace (snd st5)) = actions (trace (snd st4)) ++ [Pause 500]).
  { subst st5. cbn. rewrite actions_app. reflexivity. }
  destruct (custom_remove_ok serve handle st5 (H _)) as (st6 & E6 & A6).
  assert (Ein :
    (emit (Stderr (OutTimedOut (PStr ""))) ;;
     Custom.call serve "Queue.Abort" [("handle", handle)] ;;
     emit (Sleep 500)) st2 = (Return tt, st5)).
  { rewrite (bind_ok (emit (Stderr (OutTimedOut (PStr "")))) _ st2 tt st3 eq_refl).
    rewrite (bind_ok _ _ _ _ _ E4). reflexivity. }
  rewrite (bind_ok _ _ _ _ _ Ein), E6. split; [reflexivity|].
  cbn [snd]. rewrite A6, A5, A4, A3, A2, A1.
  cbn [fresh trace actions flat_map app].
  rewrite <- !app_assoc. reflexivity.
Qed.

Lemma a_spent_budget_aborts_unasked_witness :
  actions (trace (snd
    (Custom.main ready_instrument one_template
       [Custom.Template "t.wxm"; Custom.TimeoutMs 0] (fresh tt)))) =
    [Call "Queue.Add"; Call "Measurement.SetMapUseStage";
     Call "Queue.Continue"; Pause 250;
     Call "Queue.Abort"; Pause 500; Call "Queue.Remove"].
Proof.
  assert (H : forall m, succeeds ready_instrument m).
  { intros m r req _. unfold ready_instrument.
    destruct (String.eqb (method_of req) "Queue.GetMeasurementState");
      eexists; reflexivity. }
  exact (proj2 (a_spent_budget_aborts_unasked ready_instrument one_template tt
                  "t.wxm" "<template/>"
                  [Custom.Template "t.wxm"; Custom.TimeoutMs 0]
                  H eq_refl eq_refl eq_refl eq_refl ltac:(vm_compute; discriminate))).
Defined.

(** *** The laser powers *)

Lemma power_lines_app tr1 tr2 :
  power_lines (tr1 ++ tr2) = power_lines tr1 ++ power_lines tr2.
Proof. unfold power_lines. apply flat_map_app. Qed.

Lemma custom_call_quiet {R} (serve : R -> request -> post_outcome * R) m :
  succeeds serve m ->
  forall kw st, exists v st',
    Custom.call serve m kw st = (Return v, st') /\
    rpc_result (fst (serve (remote (snd st)) (custom_request (fst st) m kw))) =
      Return v /\
    actions (trace (snd st')) = actions (trace (snd st)) ++ [Call m] /\
    power_lines (trace (snd st')) = power_lines (trace (snd st)).
Proof.
  intros H kw st.
  pose proof (custom_call_actions serve m kw st) as A.
  destruct st as [self w]. rewrite custom_call_spec in *.
  destruct (H (remote w) (custom_request self m kw) eq_refl) as [v E].
  cbn [fst snd] in *. rewrite E in *.
  eexists _, _. split; [reflexivity|]. split; [reflexivity|]. split; [exact A|].
  cbn [snd trace]. rewrite !power_lines_app.
  unfold custom_sent. destruct (_ && _); cbn; rewrite app_nil_r; reflexivity.
Qed.

Lemma custom_optional_quiet {R T} (serve : R -> request -> post_outcome * R) m :
  succeeds serve m ->
  forall (o : option T) kw st, exists st',
    if_not_None o (fun x => ignore (Custom.call serve m (kw x))) st = (Return tt, st') /\
    actions (trace (snd st')) = actions (trace (snd st)) ++ if_supplied o m /\
    power_lines (trace (snd st')) = power_lines (trace (snd st)).
Proof.
  intros H [x|] kw st; cbn [if_not_None if_supplied].
  - destruct (custom_call_quiet serve m H (kw x) st) as (v & st' & E & _ & A & P).
    exists st'. unfold ignore. rewrite (bind_ok _ _ _ _ _ E). auto.
  - exists st. rewrite app_nil_r. auto.
Qed.

Ltac quiet_optional H :=
  match goal with
  | |- context [bind (if_not_None ?o (fun x => ignore (Custom.call ?serve ?m (@?kw x))))
                  ?k ?st] =>
      let st' := fresh "st" in
      let E := fresh "E" in
      let A := fresh "A" in
      let P := fresh "P" in
      destruct (custom_optional_quiet serve m (H m) o kw st) as (st' & E & A & P);
      cbv beta in E; rewrite (bind_ok _ _ _ _ _ E); clear E; cbv beta
  end.

Ltac quiet_call H :=
  match goal with
  | |- context [bind (Custom.call ?serve ?m ?kw) ?k ?st] =>
      let v := fresh "v" in
      let st' := fresh "st" in
      let E := fresh "E" in
      let V := fresh "V" in
      let A := fresh "A" in
      let P := fresh "P" in
      destruct (custom_call_quiet serve m (H m) kw st) as (v & st' & E & V & A & P);
      rewrite (bind_ok _ _ _ _ _ E); clear E; cbv beta
  end.

(** The loop over the powers prints every element while they can be
    formatted, and is left by the first that cannot. *)
Lemma print_powers_all {C R} (values : list pyval) (st : state C R) :
  Forall formattable values ->
  exists st',
    for_each values (fun value =>
      line <- lift (Custom.format_3g value) ;; print line) st = (Return tt, st') /\
    actions (trace (snd st')) = actions (trace (snd st)) /\
    power_lines (trace (snd st')) = power_lines (trace (snd st)) ++ values.
Proof.
  intros H. revert st. induction H as [|value values [line Hv] _ IH]; intros st.
  - exists st. cbn [for_each]. rewrite app_nil_r. auto.
  - cbn [for_each].
    assert (line = OutPower value) as ->.
    { destruct value as [| |n| | | |]; cbn in Hv; try discriminate Hv;
        try (destruct (Z.abs n <? _); try discriminate Hv); congruence. }
    set (st1 := snd (@print C R (OutPower value) st)).
    destruct (IH st1) as (st' & E & A & P).
    exists st'. split; [|split].
    + unfold bind at 1. unfold bind at 1. unfold lift at 1. rewrite Hv.
      cbv iota beta. exact E.
    + rewrite A. subst st1. cbn. rewrite actions_app. cbn. apply app_nil_r.
    + rewrite P. subst st1. cbn [print emit snd trace].
      rewrite power_lines_app, <- app_assoc. reflexivity.
Qed.

Lemma print_powers_stops {C R} (good : list pyval) bad rest e (st : state C R) :
  Forall formattable good -> Custom.format_3g bad = Raise e ->
  exists st',
    for_each (good ++ bad :: rest) (fun value =>
      line <- lift (Custom.format_3g value) ;; print line) st = (Raise e, st') /\
    actions (trace (snd st')) = actions (trace (snd st)) /\
    power_lines (trace (snd st')) = power_lines (trace (snd st)) ++ good.
Proof.
  intros H Hb. revert st. induction H as [|value values [line Hv] _ IH]; intros st.
  - exists st. cbn [app for_each]. unfold bind, lift. rewrite Hb, app_nil_r. auto.
  - cbn [app for_each].
    assert (line = OutPower value) as ->.
    { destruct value as [| |n| | | |]; cbn in Hv; try discriminate Hv;
        try (destruct (Z.abs n <? _); try discriminate Hv); congruence. }
    set (st1 := snd (@print C R (OutPower value) st)).
    destruct (IH st1) as (st' & E & A & P).
    exists st'. split; [|split].
    + unfold bind at 1. unfold bind at 1. unfold lift at 1. rewrite Hv.
      cbv iota beta. exact E.
    + rewrite A. subst st1. cbn. rewrite actions_app. cbn. apply app_nil_r.
    + rewrite P. subst st1. cbn [print emit snd trace].
      rewrite power_lines_app, <- app_assoc. reflexivity.
Qed.

(** A laser-power query of ecm_custom.py on a server that answers every
    call, up to the loop over the powers. *)
Lemma custom_main_until_powers {R} (serve : R -> request -> post_outcome * R)
    (fs : string -> option string) (args : list Custom.arg) (r0 : R)
    (path xml : string) (powers : pyval) :
  let options := Custom.parse_args args in
  (forall m, succeeds serve m) -> offers_powers serve powers ->
  fs path = Some xml ->
  Custom.o_send_trigger options = None ->
  Custom.o_template options = Some path ->
  Custom.o_get_laserpowers options = true ->
  exists handle st1,
    Custom.main serve fs args (fresh r0) =
      (let (r, st) :=
         (values <- lift (Custom.iterate powers) ;;
          for_each values (fun value =>
            line <- lift (Custom.format_3g value) ;; print line) ;;
          Custom.call serve "Queue.Remove" [("handle", handle)] ;;
          ret 0) st1 in
       (r, snd st)) /\
    count_calls "Queue.Remove" (actions (trace (snd st1))) = 0%nat /\
    power_lines (trace (snd st1)) = [].
Proof.
  intros options H Hp Hfs Htrig Htmpl Hpow.
  unfold Custom.main. fold options. rewrite Htrig, Hpow, Htmpl.
  unfold Custom.open_read. rewrite Hfs.
  set (st0 := (_, fresh r0)).
  assert (A0 : actions (trace (snd st0)) = []) by reflexivity.
  assert (P0 : power_lines (trace (snd st0)) = []) by reflexivity.
  clearbody st0.
  rewrite (bind_ok (ret xml) _ st0 xml st0 eq_refl).
  quiet_call H. rename v into handle.
  do 4 quiet_optional H.
  quiet_call H.
  match type of V0 with
  | rpc_result (fst (serve ?r ?q)) = _ => rewrite (Hp r q eq_refl) in V0
  end.
  injection V0 as <-.
  exists handle. eexists. split; [reflexivity|]. split.
  - repeat match goal with
           | A : actions (trace (snd _)) = _ |- _ => rewrite A; clear A
           end.
    rewrite !count_calls_app, !count_calls_if_supplied by reflexivity.
    reflexivity.
  - congruence.
Qed.

(** X20. A laser-power query of ecm_custom.py ([--get-laserpowers]) on a
    server that answers every call, the powers being the list [values]:
    when every element can be formatted with [.3g], each is printed, in
    order, the measurement is removed once and [main] returns 0; when an
    element cannot (a string, [None], a list, an object, an integer too
    large for a float), [main] raises at that element, having printed the
    ones before it, and [Queue.Remove] is not called. *)
Theorem laser_powers_are_printed_in_order {R}
    (serve : R -> request -> post_outcome * R) (fs : string -> option string)
    (args : list Custom.arg) (r0 : R) (path xml : string) (values : list pyval) :
  (forall m, succeeds serve m) -> offers_powers serve (PList values) ->
  fs path = Some xml ->
  Custom.o_send_trigger (Custom.parse_args args) = None ->
  Custom.o_template (Custom.parse_args args) = Some path ->
  Custom.o_get_laserpowers (Custom.parse_args args) = true ->
  let out := Custom.main serve fs args (fresh r0) in
  (Forall formattable values ->
   fst out = Return 0 /\
   power_lines (trace (snd out)) = values /\
   count_calls "Queue.Remove" (actions (trace (snd out))) = 1%nat) /\
  (forall good bad rest e,
     values = good ++ bad :: rest ->
     Forall formattable good -> Custom.format_3g bad = Raise e ->
     fst out = Raise e /\
     power_lines (trace (snd out)) = good /\
     count_calls "Queue.Remove" (actions (trace (snd out))) = 0%nat).
Proof.
  intros H Hp Hfs Htrig Htmpl Hpow out. subst out.
  destruct (custom_main_until_powers serve fs args r0 path xml (PList values)
              H Hp Hfs Htrig Htmpl Hpow) as (handle & st1 & E & A1 & P1).
  rewrite E, snd_main_result, main_result. clear E.
  cbn [Custom.iterate].
  rewrite (bind_ok (lift (Return values)) _ st1 values st1 eq_refl).
  split.
  - intros Hall.
    destruct (print_powers_all values st1 Hall) as (st2 & E2 & A2 & P2).
    rewrite (bind_ok _ _ _ _ _ E2).
    destruct (custom_call_quiet serve "Queue.Remove" (H _) [("handle", handle)] st2)
      as (v & st3 & E3 & _ & A3 & P3).
    rewrite (bind_ok _ _ _ _ _ E3). cbn [ret fst snd].
    split; [reflexivity|]. split.
    + rewrite P3, P2, P1. reflexivity.
    + rewrite A3, A2, count_calls_app, A1. reflexivity.
  - intros good bad rest e -> Hgood Hbad.
    destruct (print_powers_stops good bad rest e st1 Hgood Hbad)
      as (st2 & E2 & A2 & P2).
    rewrite (bind_raise _ _ _ _ _ E2). cbn [fst snd].
    split; [reflexivity|]. split.
    + rewrite P2, P1. reflexivity.
    + rewrite A2. exact A1.
Qed.

Lemma laser_powers_are_printed_in_order_witness :
  power_lines (trace (snd
    (Custom.main (laser_instrument (PList [PFloat 10.5; PInt 25; PFloat 50]))
       one_template [Custom.Template "t.wxm"; Custom.GetLaserpowers] (fresh tt)))) =
    [PFloat 10.5; PInt 25; PFloat 50] /\
  fst (Custom.main (laser_instrument (PList [PFloat 10.5; PStr "max"; PFloat 50]))
         one_template [Custom.Template "t.wxm"; Custom.GetLaserpowers] (fresh tt)) =
    Raise ValueError.
Proof.
  assert (H : forall powers m, succeeds (laser_instrument powers) m).
  { intros powers m r req _. unfold laser_instrument.
    destruct (String.eqb (method_of req) "Measurement.GetLaserPowers");
      eexists; reflexivity. }
  assert (Hp : forall powers, offers_powers (laser_instrument powers) powers).
  { intros powers r req Hq. unfold laser_instrument. rewrite Hq. reflexivity. }
  split.
  - destruct (laser_powers_are_printed_in_order
                (laser_instrument (PList [PFloat 10.5; PInt 25; PFloat 50]))
                one_template [Custom.Template "t.wxm"; Custom.GetLaserpowers] tt
                "t.wxm" "<template/>" [PFloat 10.5; PInt 25; PFloat 50]
                (H _) (Hp _) eq_refl eq_refl eq_refl eq_refl) as [A _].
    apply A. repeat constructor; eexists; reflexivity.
  - destruct (laser_powers_are_printed_in_order
                (laser_instrument (PList [PFloat 10.5; PStr "max"; PFloat 50]))
                one_template [Custom.Template "t.wxm"; Custom.GetLaserpowers] tt
                "t.wxm" "<template/>" [PFloat 10.5; PStr "max"; PFloat 50]
                (H _) (Hp _) eq_refl eq_refl eq_refl eq_refl) as [_ B].
    apply (B [PFloat 10.5] (PStr "max") [PFloat 50] ValueError eq_refl).
    + repeat constructor. eexists. reflexivity.
    + reflexivity.
Defined.

(** *** The converters of the command line *)

Lemma subscripts_returns kv keys vs :
  Custom.subscripts (PDict kv) keys = Return vs <->
  map (fun key => dict_get key kv) keys = map Some vs.
Proof.
  revert vs. induction keys as [|key keys IH]; intros vs.
  - cbn. split; intros E.
    + injection E as <-. reflexivity.
    + destruct vs; [reflexivity | discriminate E].
  - cbn [Custom.subscripts map getitem].
    destruct (dict_get key kv) as [v|].
    + destruct (Custom.subscripts (PDict kv) keys) as [vs'|e].
      * split; intros E.
        -- injection E as <-. cbn [map]. f_equal. apply IH. reflexivity.
        -- destruct vs as [|v0 vs]; [discriminate E|].
           cbn [map] in E. injection E as -> E.
           apply IH in E. injection E as ->. reflexivity.
      * split; [discriminate|]. intros E.
        destruct vs as [|v0 vs]; [discriminate E|].
        cbn [map] in E. injection E as _ E. apply IH in E. discriminate E.
    + split; [discriminate|]. intros E. destruct vs; discriminate E.
Qed.

Lemma subscripts_raises kv keys e :
  Custom.subscripts (PDict kv) keys = Raise e <->
  exists key, first_missing kv keys key /\ e = KeyError key.
Proof.
  revert e. induction keys as [|key keys IH]; intros e.
  - cbn. split; [discriminate|].
    intros (k & (before & after & E & _) & _). destruct before; discriminate E.
  - cbn [Custom.subscripts getitem].
    destruct (dict_get key kv) as [v|] eqn:Ek.
    + destruct (Custom.subscripts (PDict kv) keys) as [vs|e'].
      * split; [discriminate|].
        intros (k & (before & after & E & Hb & Hk) & ->). exfalso.
        destruct before as [|k0 before]; cbn [app] in E; injection E as -> ->.
        -- congruence.
        -- enough (Y : @Return (list pyval) vs = Raise (KeyError k)) by discriminate Y.
           apply IH. exists k. split; [|reflexivity].
           exists before, after. inversion Hb. auto.
      * split.
        -- intros E. injection E as <-.
           destruct (proj1 (IH e') eq_refl) as (k & (before & after & E & Hb & Hk) & ->).
           exists k. split; [|reflexivity].
           exists (key :: before), after. subst keys.
           repeat split; [constructor; [congruence | exact Hb] | exact Hk].
        -- intros (k & (before & after & E & Hb & Hk) & ->).
           destruct before as [|k0 before]; cbn [app] in E; injection E as -> ->.
           ++ congruence.
           ++ f_equal. symmetry.
              enough (Y : @Raise (list pyval) e' = Raise (KeyError k))
                by (injection Y as ->; reflexivity).
              apply IH. exists k. split; [|reflexivity].
              exists before, after. inversion Hb. auto.
    + split.
      * intros E. injection E as <-. exists key. split; [|reflexivity].
        exists [], keys. repeat split; [constructor | exact Ek].
      * intros (k & (before & after & E & Hb & Hk) & ->).
        destruct before as [|k0 before]; cbn [app] in E; injection E as -> ->.
        -- reflexivity.
        -- inversion Hb. congruence.
Qed.

Lemma converter_returns (loaded : option pyval) key keys vs :
  match loaded with
  | None => Raise ValueError
  | Some param => Custom.subscripts param (key :: keys)
  end = Return vs <->
  has_members loaded (key :: keys) vs.
Proof.
  unfold has_members.
  destruct loaded as [param|];
    [|split; [discriminate | intros (kv & E & _); discriminate E]].
  destruct param as [| | | | | |kv];
    try (split; [discriminate | intros (kv & E & _); discriminate E]).
  split.
  - intros E. exists kv. split; [reflexivity|]. apply subscripts_returns. exact E.
  - intros (kv' & E & Hm). injection E as <-. apply subscripts_returns. exact Hm.
Qed.

Lemma converter_raises (loaded : option pyval) key keys e :
  match loaded with
  | None => Raise ValueError
  | Some param => Custom.subscripts param (key :: keys)
  end = Raise e <->
  converter_error loaded (key :: keys) e.
Proof.
  destruct loaded as [param|]; cbn [converter_error].
  - destruct param as [| | | | | |kv];
      try (cbn; split; [intros E; injection E as <-; reflexivity | intros ->; reflexivity]).
    apply subscripts_raises.
  - split; [intros E; injection E as <-; reflexivity | intros ->; reflexivity].
Qed.

(** X21. [parse_map], [parse_series] and [parse_custom] return a list
    exactly when the argument decodes to an object that has every member
    they read; the list then holds those members in the documented order
    (8, 5 and 4 of them), whatever other members the object has and in
    whatever order it lists them. *)
Theorem converters_return_the_members
    (json_loads_text : string -> option pyval) (arg : string) (vs : list pyval) :
  (Custom.parse_map json_loads_text arg = Return vs <->
   has_members (json_loads_text arg)
     ["xStart"; "yStart"; "xStep"; "yStep"; "xCount"; "yCount"; "row_major"; "snake"]
     vs) /\
  (Custom.parse_series json_loads_text arg = Return vs <->
   has_members (json_loads_text arg) ["count"; "start"; "step"; "units"; "label"]
     vs) /\
  (Custom.parse_custom json_loads_text arg = Return vs <->
   has_members (json_loads_text arg) ["index"; "type"; "units"; "label"] vs).
Proof.
  unfold Custom.parse_map, Custom.parse_series, Custom.parse_custom.
  split; [|split]; apply converter_returns.
Qed.

(** X22. How the converters fail: with [ValueError] when the argument is no
    JSON text, with [TypeError] when it decodes to anything but an object,
    and for an object with [KeyError] on the first member, in reading order,
    that it lacks.  They raise nothing else. *)
Theorem converters_raise_on_the_first_missing_member
    (json_loads_text : string -> option pyval) (arg : string) (e : exn) :
  (Custom.parse_map json_loads_text arg = Raise e <->
   converter_error (json_loads_text arg)
     ["xStart"; "yStart"; "xStep"; "yStep"; "xCount"; "yCount"; "row_major"; "snake"]
     e) /\
  (Custom.parse_series json_loads_text arg = Raise e <->
   converter_error (json_loads_text arg)
     ["count"; "start"; "step"; "units"; "label"] e) /\
  (Custom.parse_custom json_loads_text arg = Raise e <->
   converter_error (json_loads_text arg) ["index"; "type"; "units"; "label"] e).
Proof.
  unfold Custom.parse_map, Custom.parse_series, Custom.parse_custom.
  split; [|split]; apply converter_raises.
Qed.

Lemma converters_return_the_members_witness :
  Custom.parse_series
    (decodes "series.json"
       (PDict [("label", PStr "depth"); ("units", PStr "um"); ("comment", PStr "z scan");
               ("step", PFloat 0.5); ("start", PInt 0); ("count", PInt 10)]))
    "series.json" =
  Return [PInt 10; PInt 0; PFloat 0.5; PStr "um"; PStr "depth"].
Proof.
  apply (proj1 (proj2 (converters_return_the_members _ _ _))).
  eexists. split; reflexivity.
Defined.

Lemma converters_raise_on_the_first_missing_member_witness :
  Custom.parse_custom
    (decodes "axis.json" (PDict [("label", PStr "T"); ("index", PInt 1)]))
    "axis.json" = Raise (KeyError "type") /\
  Custom.parse_map (decodes "area.json" (PList [PInt 0; PInt 0])) "area.json" =
    Raise TypeError /\
  Custom.parse_map (decodes "area.json" (PList [])) "snake" = Raise ValueError.
Proof.
  split; [|split].
  - apply (proj2 (proj2 (converters_raise_on_the_first_missing_member _ _ _))).
    exists "type". split; [|reflexivity].
    exists ["index"], ["units"; "label"].
    split; [reflexivity | split; [repeat constructor; discriminate | reflexivity]].
  - apply (proj1 (converters_raise_on_the_first_missing_member _ _ _)). reflexivity.
  - apply (proj1 (converters_raise_on_the_first_missing_member _ _ _)). reflexivity.
Defined.

(** *** The debug output *)

Lemma undebugged_app tr1 tr2 :
  undebugged (tr1 ++ tr2) = undebugged tr1 ++ undebugged tr2.
Proof. unfold undebugged. apply filter_app. Qed.

Lemma blind_ret {R A} (a : A) : debug_blind (R := R) (ret a).
Proof. intros st1 st2 H. split; [reflexivity | exact H]. Qed.

Lemma blind_raise {R A} (e : exn) : debug_blind (R := R) (A := A) (raise e).
Proof. intros st1 st2 H. split; [reflexivity | exact H]. Qed.

Lemma blind_lift {R A} (r : result A) : debug_blind (R := R) (lift r).
Proof. intros st1 st2 H. split; [reflexivity | exact H]. Qed.

Lemma blind_emit {R} (e : event) : debug_blind (R := R) (emit e).
Proof.
  intros [self1 w1] [self2 w2] (Hu & Hi & Hh & Hr & Ht). cbn [fst snd] in *.
  split; [reflexivity|]. unfold same_session. cbn [emit fst snd remote trace].
  rewrite !undebugged_app, Ht. auto.
Qed.

Lemma blind_bind {R A B} (m : M Custom.ECMConnection_ R A)
    (f : A -> M Custom.ECMConnection_ R B) :
  debug_blind m -> (forall a, debug_blind (f a)) -> debug_blind (bind m f).
Proof.
  intros Hm Hf st1 st2 H. unfold bind.
  destruct (Hm st1 st2 H) as [Er Hs].
  destruct (m st1) as [[a1|e1] st1'], (m st2) as [[a2|e2] st2'];
    cbn [fst snd] in *; try discriminate Er.
  - injection Er as <-. apply Hf. exact Hs.
  - injection Er as <-. split; [reflexivity | exact Hs].
Qed.

Lemma blind_if_not_None {R A} (o : option A)
    (body : A -> M Custom.ECMConnection_ R unit) :
  (forall x, debug_blind (body x)) -> debug_blind (if_not_None o body).
Proof. intros H. destruct o; [apply H | apply blind_ret]. Qed.

Lemma blind_when {R} (b : bool) (m : M Custom.ECMConnection_ R unit) :
  debug_blind m -> debug_blind (when_ b m).
Proof. intros H. destruct b; [exact H | apply blind_ret]. Qed.

Lemma blind_ignore {R A} (m : M Custom.ECMConnection_ R A) :
  debug_blind m -> debug_blind (ignore m).
Proof. intros H. apply blind_bind; [exact H | intros; apply blind_ret]. Qed.

Lemma blind_for_each {R A} (xs : list A)
    (body : A -> M Custom.ECMConnection_ R unit) :
  (forall x, debug_blind (body x)) -> debug_blind (for_each xs body).
Proof.
  intros H. induction xs as [|x xs IH]; cbn [for_each].
  - apply blind_ret.
  - apply blind_bind; [apply H | intros; exact IH].
Qed.

Lemma same_request self1 self2 m kw :
  Custom.url self1 = Custom.url self2 ->
  Custom._id self1 = Custom._id self2 ->
  Custom.headers self1 = Custom.headers self2 ->
  custom_request self1 m kw = custom_request self2 m kw.
Proof. intros Hu Hi Hh. unfold custom_request. rewrite Hu, Hi, Hh. reflexivity. Qed.

Lemma undebugged_sent self m : undebugged (custom_sent self m) = [].
Proof. unfold custom_sent. destruct (_ && _); reflexivity. Qed.

Lemma blind_call {R} (serve : R -> request -> post_outcome * R) m kw :
  debug_blind (Custom.call serve m kw).
Proof.
  intros [self1 w1] [self2 w2] (Hu & Hi & Hh & Hr & Ht). cbn [fst snd] in *.
  rewrite !custom_call_spec. cbv zeta.
  rewrite (same_request self1 self2 m kw Hu Hi Hh), Hr.
  split; [reflexivity|]. unfold same_session.
  cbn [fst snd remote trace custom_next Custom.url Custom._id Custom.headers].
  rewrite !undebugged_app, !undebugged_sent, Ht, Hu, Hi, Hh. auto.
Qed.

Lemma blind_wait_body {R} (serve : R -> request -> post_outcome * R) handle status :
  debug_blind (Custom.wait_body serve handle status).
Proof.
  intros [self1 w1] [self2 w2] (Hu & Hi & Hh & Hr & Ht). cbn [fst snd] in *.
  rewrite !custom_wait_body_spec. cbv zeta.
  rewrite (same_request self1 self2 _ _ Hu Hi Hh), Hr.
  set (req := custom_request self2 _ _).
  destruct (rpc_result (fst (serve (remote w2) req))) as [v|[]];
    (split; [reflexivity|]); unfold same_session;
    cbn [fst snd remote trace custom_next Custom.url Custom._id Custom.headers];
    rewrite !undebugged_app, Ht, Hu, Hi, Hh; repeat split.
  destruct (Custom.debug self1), (Custom.debug self2); reflexivity.
Qed.

Lemma blind_wait_loop {R} (serve : R -> request -> post_outcome * R) handle :
  forall n timeout status,
    n = passes timeout -> debug_blind (Custom.wait_loop serve handle status timeout).
Proof.
  induction n as [|n IH]; intros timeout status Hn st1 st2 H.
  - assert (Ht : timeout <= 0).
    { destruct (Z_lt_le_dec 0 timeout) as [Hp|]; [|assumption].
      rewrite (passes_pos timeout Hp) in Hn. discriminate. }
    rewrite !custom_wait_loop_done by (right; exact Ht).
    split; [reflexivity | exact H].
  - rewrite !custom_wait_loop_unfold.
    destruct (negb (eq_str status "COMPLETE") && (0 <? timeout)) eqn:Hcond;
      [|split; [reflexivity | exact H]].
    apply andb_prop in Hcond. destruct Hcond as [_ Ht]. apply Z.ltb_lt in Ht.
    rewrite (passes_pos timeout Ht) in Hn. injection Hn as Hn.
    destruct (blind_wait_body serve handle status st1 st2 H) as [Er Hs].
    destruct (Custom.wait_body serve handle status st1) as [[s1|e1] st1'],
             (Custom.wait_body serve handle status st2) as [[s2|e2] st2'];
      cbn [fst snd] in *; try discriminate Er.
    + injection Er as <-. apply (IH (timeout - 250) s1 Hn). exact Hs.
    + injection Er as <-. split; [reflexivity | exact Hs].
Qed.

Lemma blind_wait {R} (serve : R -> request -> post_outcome * R) handle timeout :
  debug_blind (Custom.wait serve handle timeout).
Proof.
  unfold Custom.wait. apply blind_bind; [apply blind_emit|].
  intros _. apply (blind_wait_loop serve handle _ timeout (PStr "") eq_refl).
Qed.

Ltac blind :=
  lazymatch goal with
  | |- debug_blind (bind _ _) => apply blind_bind; [ blind | intros; blind ]
  | |- debug_blind (match ?o with Some _ => _ | None => _ end) => destruct o; blind
  | |- debug_blind (if ?b then _ else _) => destruct b; blind
  | |- debug_blind (if_not_None _ _) => apply blind_if_not_None; intros; blind
  | |- debug_blind (when_ _ _) => apply blind_when; blind
  | |- debug_blind (ignore _) => apply blind_ignore; blind
  | |- debug_blind (for_each _ _) => apply blind_for_each; intros; blind
  | |- debug_blind (Custom.call _ _ _) => apply blind_call
  | |- debug_blind (Custom.wait _ _ _) => apply blind_wait
  | |- debug_blind (Custom.open_read _ _) => unfold Custom.open_read; blind
  | |- debug_blind (ret _) => apply blind_ret
  | |- debug_blind (raise _) => apply blind_raise
  | |- debug_blind (lift _) => apply blind_lift
  | |- debug_blind (sleep _) => apply blind_emit
  | |- debug_blind (print _) => apply blind_emit
  | |- debug_blind (print_stderr _) => apply blind_emit
  end.

Lemma last_value_filter {A B} (keep : A -> bool) (pick : A -> option B) args default :
  (forall a, keep a = false -> pick a = None) ->
  last_value pick (filter keep args) default = last_value pick args default.
Proof.
  intros H. unfold last_value. revert default.
  induction args as [|a args IH]; intros default; [reflexivity|].
  cbn [filter fold_left]. destruct (keep a) eqn:K; cbn [fold_left].
  - apply IH.
  - rewrite (H a K). apply IH.
Qed.

(** X23. [--debug] only adds lines to the standard output of ecm_custom.py.
    Two command lines that differ in nothing but the presence of [--debug]
    give, against the same server and disk, the same result, leave the
    server in the same state, and produce the same trace once the debug
    lines (the ["Sent = ..."] and ["status: ..."] lines) are taken out: the
    same requests with the same identifiers, the same sleeps, the same
    other output, in the same order. *)
Theorem debug_only_adds_lines {R}
    (serve : R -> request -> post_outcome * R) (fs : string -> option string)
    (args1 args2 : list Custom.arg) (w : world R) :
  filter (fun a => negb (is_debug_flag a)) args1 =
  filter (fun a => negb (is_debug_flag a)) args2 ->
  let out1 := Custom.main serve fs args1 w in
  let out2 := Custom.main serve fs args2 w in
  fst out1 = fst out2 /\
  remote (snd out1) = remote (snd out2) /\
  undebugged (trace (snd out1)) = undebugged (trace (snd out2)).
Proof.
  intros Hargs out1 out2. subst out1 out2.
  unfold Custom.main, Custom.parse_args.
  cbn [Custom.o_url Custom.o_template Custom.o_filename Custom.o_exposure
       Custom.o_accumulations Custom.o_get_laserpowers Custom.o_power
       Custom.o_whitelight Custom.o_map Custom.o_series Custom.o_custom
       Custom.o_stage Custom.o_triggers Custom.o_send_trigger Custom.o_debug
       Custom.o_timeout].
  repeat match goal with
         | |- context [last_value ?p args1 ?d] =>
             rewrite <- (last_value_filter (fun a => negb (is_debug_flag a)) p args1 d)
               by (intros [] K; try reflexivity; discriminate K)
         | |- context [last_value ?p args2 ?d] =>
             rewrite <- (last_value_filter (fun a => negb (is_debug_flag a)) p args2 d)
               by (intros [] K; try reflexivity; discriminate K)
         end.
  rewrite Hargs.
  match goal with
  | |- context [?body (?e1, w)] =>
      match e1 with
      | context [args1] =>
          match goal with
          | |- context [body (?e2, w)] =>
              match e2 with
              | context [args2] =>
                  assert (Hb : debug_blind body);
                  [ blind
                  | assert (Hs : same_session (e1, w) (e2, w));
                    [ | destruct (Hb (e1, w) (e2, w) Hs)
                          as (Er & _ & _ & _ & Hr & Ht);
                        destruct (body (e1, w)) as [r1 st1],
                                 (body (e2, w)) as [r2 st2];
                        cbn [fst snd] in *; repeat split; assumption ] ]
              end
          end
      end
  end.
  unfold same_session. cbn [fst snd].
  repeat match goal with
         | |- context [if ?b then _ else _] => destruct b
         end; repeat split.
Qed.

Lemma debug_only_adds_lines_witness :
  undebugged (trace (snd
    (Custom.main ready_instrument one_template
       [Custom.DebugFlag; Custom.Template "t.wxm"] (fresh tt)))) =
  undebugged (trace (snd
    (Custom.main ready_instrument one_template
       [Custom.Template "t.wxm"] (fresh tt)))).
Proof.
  exact (proj2 (proj2 (debug_only_adds_lines ready_instrument one_template
                         [Custom.DebugFlag; Custom.Template "t.wxm"]
                         [Custom.Template "t.wxm"] (fresh tt) eq_refl))).
Defined.
